(** * mc4go: shared-memory counters, the file layout and its encoder/decoder

    A shallow embedding of the packages [internal/offheap], [internal/layout],
    [internal/mmap] and of the [Writer] / [Reader] facades of mc4go, followed
    by the properties of the layout protocol.

    Conventions of the embedding.
    - The mapped file is a flat byte-addressed [Memory]; an [offheap.Buffer]
      is an (address, capacity) window into it, exactly as in the source,
      where no accessor checks the capacity.
    - Go's [int64] / [int32] values are integers of [Z] kept in their signed
      range by [int64] / [int32], which write out the wrap-around of the
      conversions.  Go's [int] and [uintptr] offsets are [Z]: every offset the
      code computes is bounded by a section capacity.
    - A Go [string] is a [string] of 8-bit characters; [[]byte(s)] is
      [list_ascii_of_string s].
    - The execution is sequential: an atomic load or store acts on the
      memory like a plain one, and a compare-and-swap compares with the
      memory it is given.  The scans over the metadata section, three of which
      may [continue] without advancing, carry a fuel argument and return
      [OutOfFuel] when it is exhausted; a run-time panic of Go is the
      outcome [Panic]. *)

From Stdlib Require Import ZArith Lia Ascii String List.
From stdpp Require Import base option list gmap strings sorting.

Local Open Scope Z_scope.

(** ** Outcomes of a call *)

Inductive outcome (A : Type) : Type :=
| Done (a : A)
| Panic
| OutOfFuel.
Arguments Done {A} a.
Arguments Panic {A}.
Arguments OutOfFuel {A}.

(** The errors the packages create with [errors.New] / [fmt.Errorf]; the
    constructor arguments are the values formatted into the message. *)
Inductive error : Type :=
| ErrStaticsBufferTooSmall (cap : Z)   (* "statics buffer is too small %d" *)
| ErrPropertiesDontFit (cap : Z)       (* "properties don't feet to the statics's buffer size %d" *)
| ErrNoFreeSpace                       (* "there is no free space to add new counter" *)
| ErrLabelNotFound (label : string)    (* "label %s isn't found" *)
| ErrNotAllocated (id : Z)             (* "counter %d isn't allocated" *)
| ErrNotFound (id : Z)                 (* "counter %d not found" *)
| ErrNotInitialized                    (* "counters haven't been initialized yet" *)
| ErrUnexpectedVersion (v : Z)         (* "unexpected version of the counters file: %d" *)
| ErrIncorrectMaxCounters (n : Z)      (* "Incorrect max numbers of counters: %d" *)
| ErrOS                                (* an error returned by the operating system *)
| ErrEINVAL.                           (* syscall.EINVAL, returned by syscall.Mmap / Munmap *)

(** ** Fixed-width integers *)

Definition uint64 (v : Z) : Z := v mod 2 ^ 64.

Definition int64 (v : Z) : Z :=
  let u := v mod 2 ^ 64 in if u <? 2 ^ 63 then u else u - 2 ^ 64.

Definition int32 (v : Z) : Z :=
  let u := v mod 2 ^ 32 in if u <? 2 ^ 31 then u else u - 2 ^ 32.

Definition uint8 (v : Z) : Z := v mod 2 ^ 8.

Definition is_int64 (v : Z) : Prop := - 2 ^ 63 <= v < 2 ^ 63.
Definition is_int32 (v : Z) : Prop := - 2 ^ 31 <= v < 2 ^ 31.

(** ** Package offheap *)

Module Offheap.

Definition byte : Type := ascii.

Definition byte_of_Z (z : Z) : byte := ascii_of_N (Z.to_N (z mod 256)).
Definition Z_of_byte (b : byte) : Z := Z.of_N (N_of_ascii b).

(** The address space of the process. *)
Definition Memory : Type := Z -> byte.

Definition zero_memory : Memory := fun _ => zero.

(** Little-endian encoding of the low [n] bytes of an integer. *)
Fixpoint encode_le (n : nat) (v : Z) : list byte :=
  match n with
  | O => []
  | S n' => byte_of_Z v :: encode_le n' (v / 256)
  end.

Fixpoint decode_le (bs : list byte) : Z :=
  match bs with
  | [] => 0
  | b :: bs' => Z_of_byte b + 256 * decode_le bs'
  end.

Definition load_bytes (m : Memory) (a : Z) (n : nat) : list byte :=
  (fun k => m (a + Z.of_nat k)) <$> seq 0 n.

Definition store_bytes (m : Memory) (a : Z) (bs : list byte) : Memory :=
  fun x =>
    if a <=? x then
      match bs !! Z.to_nat (x - a) with
      | Some b => b
      | None => m x
      end
    else m x.

(** type Buffer struct { addr uintptr; capacity int } *)
Record Buffer : Type := NewBuffer { addr : Z; capacity : Z }.

Definition Address (b : Buffer) : Z := addr b.
Definition Capacity (b : Buffer) : Z := capacity b.

Definition Slice (b : Buffer) (offset : Z) (capacity : Z) : Buffer :=
  NewBuffer (addr b + offset) capacity.

Definition GetInt32 (b : Buffer) (offset : Z) (m : Memory) : Z :=
  int32 (decode_le (load_bytes m (addr b + offset) 4)).

(** atomic.LoadInt32 *)
Definition GetInt32Volatile (b : Buffer) (offset : Z) (m : Memory) : Z :=
  int32 (decode_le (load_bytes m (addr b + offset) 4)).

Definition PutInt32 (b : Buffer) (offset : Z) (v : Z) (m : Memory) : Memory :=
  store_bytes m (addr b + offset) (encode_le 4 v).

(** The source of PutInt32Volatile is a plain assignment through the
    int32 pointer at [b.addr + offset], the same statement as PutInt32:
    unlike PutInt64Volatile it calls no atomic store. *)
Definition PutInt32Volatile (b : Buffer) (offset : Z) (v : Z) (m : Memory) : Memory :=
  store_bytes m (addr b + offset) (encode_le 4 v).

Definition GetInt64 (b : Buffer) (offset : Z) (m : Memory) : Z :=
  int64 (decode_le (load_bytes m (addr b + offset) 8)).

(** atomic.LoadInt64 *)
Definition GetInt64Volatile (b : Buffer) (offset : Z) (m : Memory) : Z :=
  int64 (decode_le (load_bytes m (addr b + offset) 8)).

Definition PutInt64 (b : Buffer) (offset : Z) (v : Z) (m : Memory) : Memory :=
  store_bytes m (addr b + offset) (encode_le 8 v).

(** atomic.StoreInt64 *)
Definition PutInt64Volatile (b : Buffer) (offset : Z) (v : Z) (m : Memory) : Memory :=
  store_bytes m (addr b + offset) (encode_le 8 v).

(** atomic.AddInt64: returns the new value. *)
Definition AddInt64 (b : Buffer) (offset : Z) (delta : Z) (m : Memory) : Z * Memory :=
  let new := int64 (GetInt64 b offset m + delta) in
  (new, PutInt64 b offset new m).

(** SwapInt64 passes its named result [old], which is still zero, to
    atomic.SwapInt64 where [new] was meant: the word becomes 0 and its
    previous value is returned. *)
Definition SwapInt64 (b : Buffer) (offset : Z) (new : Z) (m : Memory) : Z * Memory :=
  let old := 0 in
  (GetInt64 b offset m, PutInt64 b offset old m).

(** atomic.CompareAndSwapInt64 *)
Definition CompareAndSwapInt64 (b : Buffer) (offset : Z) (old new : Z) (m : Memory)
  : bool * Memory :=
  if GetInt64 b offset m =? old then (true, PutInt64 b offset new m) else (false, m).

(** PutSomeBytes copies [bs[start:start+len]] to the buffer; the slice
    expression panics when its bounds are out of range.  The bounds are
    checked against the length of [bs] here: no caller asks for more. *)
Definition PutSomeBytes (b : Buffer) (offset : Z) (bs : list byte) (start len : Z)
           (m : Memory) : option Memory :=
  if (0 <=? start) && (0 <=? len) && (start + len <=? Z.of_nat (length bs)) then
    Some (store_bytes m (addr b + offset)
                      (take (Z.to_nat len) (drop (Z.to_nat start) bs)))
  else None.

Definition PutBytes (b : Buffer) (offset : Z) (bs : list byte) (m : Memory)
  : option Memory :=
  PutSomeBytes b offset bs 0 (Z.of_nat (length bs)) m.

Definition PutString (b : Buffer) (offset : Z) (s : string) (m : Memory)
  : option Memory :=
  PutBytes b offset (list_ascii_of_string s) m.

(** GetBytes allocates [make([]byte, length)], which panics on a negative
    length, and copies the bytes out. *)
Definition GetBytes (b : Buffer) (offset : Z) (length : Z) (m : Memory)
  : option (list byte) :=
  if length <? 0 then None
  else Some (load_bytes m (addr b + offset) (Z.to_nat length)).

Definition GetString (b : Buffer) (offset : Z) (length : Z) (m : Memory)
  : option string :=
  string_of_list_ascii <$> GetBytes b offset length m.

End Offheap.

(** ** Package layout: constants and helpers *)

Module Layout.
Import Offheap.

Definition CountersVersion : Z := 1.

Definition sizeOfInt32 : Z := 4.
Definition sizeOfInt64 : Z := 8.
Definition sizeOfCacheLine : Z := 64.

Record Layout : Type := mkLayout {
  Header : Buffer;
  Statics : Buffer;
  CountersMetadata : Buffer;
  CountersValues : Buffer
}.

Definition headerCountersVersionOffset : Z := 0.
Definition headerStaticsLengthOffset : Z := headerCountersVersionOffset + sizeOfInt32.
Definition headerMetadataLengthOffset : Z := headerStaticsLengthOffset + sizeOfInt32.
Definition headerValuesLengthOffset : Z := headerMetadataLengthOffset + sizeOfInt32.
Definition headerPidOffsert : Z := headerValuesLengthOffset + sizeOfInt32.
Definition headerStartTimeOffsert : Z := headerPidOffsert + sizeOfInt64.

(** Align rounds v up to a multiple of alignment, a power of 2:
    [(v + alignment - 1) &^ (alignment - 1)].  The sum is taken in Z: it is
    the sum of Go's int while v + alignment - 1 is at most 2^63 - 1, which
    holds for the lengths of sections and files that are passed to it. *)
Definition Align (v : Z) (alignment : Z) : Z :=
  Z.ldiff (v + alignment - 1) (alignment - 1).

Definition HeaderLength : Z :=
  Align (headerStartTimeOffsert + sizeOfInt64) (sizeOfCacheLine * 2).

Definition staticsNumberOfStaticsOffset : Z := 0.
Definition staticsRecordsOffset : Z := staticsNumberOfStaticsOffset + sizeOfInt32.

Definition staticsLabelLengthOffset : Z := 0.
Definition staticsValueLengthOffset : Z := staticsLabelLengthOffset + sizeOfInt32.
Definition staticsLabelOffset : Z := staticsValueLengthOffset + sizeOfInt32.

Definition staticsRecordLength (labelLength valueLength : Z) : Z :=
  Align (staticsLabelOffset + labelLength + valueLength) sizeOfInt32.

Definition metadataLabelMaxLength : Z := sizeOfCacheLine * 6 - sizeOfInt32.
Definition metadataCounterIDStatusOffset : Z := 0.
Definition metadataLabelLengthOffset : Z := sizeOfCacheLine * 2.
Definition metadataLabelOffset : Z := metadataLabelLengthOffset + sizeOfInt32.
Definition metadataRecordLength : Z := metadataLabelOffset + metadataLabelMaxLength.

Definition valuesCounterLength : Z := sizeOfCacheLine * 2.

Definition counterStatusNotUsed : Z := 0.
Definition counterStatusAllocationInProgress : Z := 1.
Definition counterStatusAllocated : Z := 2.
Definition counterStatusFreed : Z := 3.

(** int64(uint64(id)<<8 | uint64(status)) *)
Definition makeIDStatus (id : Z) (status : Z) : Z :=
  int64 (Z.lor (uint64 (Z.shiftl (uint64 id) 8)) (uint64 status)).

(** uint8(idStatus & 0xff) *)
Definition extractStatus (idStatus : Z) : Z :=
  uint8 (Z.land idStatus 255).

(** int64(uint64(idStatus) >> 8) *)
Definition extractID (idStatus : Z) : Z :=
  int64 (Z.shiftr (uint64 idStatus) 8).

(** [len(s)] of a Go string, and of [[]byte(s)]. *)
Definition len (s : string) : Z := Z.of_nat (String.length s).

(** The labels of a statics map in the order of [sort.Strings]: ascending
    in the byte-wise lexicographic order of Go's [<] on strings.  The map
    is ranged over in an unspecified order first; sorting makes the
    result independent of it. *)
Definition sortedLabels (statics : gmap string string) : list string :=
  merge_sort String.le (map_to_list statics).*1.

(** [statics[label]]: the zero value for a missing key. *)
Definition mapIndex (statics : gmap string string) (label : string) : string :=
  default EmptyString (statics !! label).

(** ** Encoder *)

Definition StaticsLength (statics : gmap string string) : Z :=
  let l := staticsRecordsOffset in
  if (size statics =? 0)%nat then l
  else
    let l :=
      fold_left
        (fun l label =>
           let value := mapIndex statics label in
           l + staticsRecordLength (len label) (len value))
        (sortedLabels statics) l in
    Align l (sizeOfCacheLine * 2).

Definition MetadataLength (numberOfCounters : Z) : Z :=
  numberOfCounters * metadataRecordLength.

Definition ValuesLength (numberOfCounters : Z) : Z :=
  numberOfCounters * valuesCounterLength.

Record Encoder : Type := mkEncoder { ELayout : Layout }.

Definition NewEncoderWithBuffers (header statics countersMetadata countersValues : Buffer)
           (m : Memory) : Encoder * Memory :=
  let e := mkEncoder (mkLayout header statics countersMetadata countersValues) in
  let m := PutInt32 header headerStaticsLengthOffset (int32 (Capacity statics)) m in
  let m := PutInt32 header headerMetadataLengthOffset (int32 (Capacity countersMetadata)) m in
  let m := PutInt32 header headerValuesLengthOffset (int32 (Capacity countersValues)) m in
  (e, m).

Definition NewEncoder (buf : Buffer) (staticsLength metadataLength valuesLength : Z)
           (m : Memory) : Encoder * Memory :=
  NewEncoderWithBuffers
    (Slice buf 0 HeaderLength)
    (Slice buf HeaderLength staticsLength)
    (Slice buf (HeaderLength + staticsLength) metadataLength)
    (Slice buf (HeaderLength + staticsLength + metadataLength) valuesLength)
    m.

Definition SetVersion (e : Encoder) (v : Z) (m : Memory) : Memory :=
  PutInt32Volatile (Header (ELayout e)) headerCountersVersionOffset v m.

Definition SetPid (e : Encoder) (p : Z) (m : Memory) : Memory :=
  PutInt64Volatile (Header (ELayout e)) headerPidOffsert p m.

Definition SetStartTime (e : Encoder) (t : Z) (m : Memory) : Memory :=
  PutInt64Volatile (Header (ELayout e)) headerStartTimeOffsert t m.

(** The stores of SetStatics, in program order.  Initialisation can be
    observed by readers while it runs, so the stores are kept as a
    sequence ([SetStatics_stores]) that [SetStatics] then performs. *)
Inductive store : Type :=
| StPutInt32 (offset : Z) (v : Z)
| StPutInt32Volatile (offset : Z) (v : Z)
| StPutBytes (offset : Z) (bs : list byte).

Definition exec_store (b : Buffer) (s : store) (m : Memory) : option Memory :=
  match s with
  | StPutInt32 offset v => Some (PutInt32 b offset v m)
  | StPutInt32Volatile offset v => Some (PutInt32Volatile b offset v m)
  | StPutBytes offset bs => PutBytes b offset bs m
  end.

Fixpoint exec_stores (b : Buffer) (ss : list store) (m : Memory) : option Memory :=
  match ss with
  | [] => Some m
  | s :: ss' =>
    match exec_store b s m with
    | Some m' => exec_stores b ss' m'
    | None => None
    end
  end.

(** The body of [for _, label := range labels] in SetStatics. *)
Fixpoint SetStatics_records (statx : Buffer) (statics : gmap string string)
         (labels : list string) (offset : Z) : list store * option error :=
  match labels with
  | [] => ([], None)
  | label :: labels' =>
    let value := mapIndex statics label in
    let labelBytes := list_ascii_of_string label in
    let valueBytes := list_ascii_of_string value in
    let recordLength := staticsRecordLength (len label) (len value) in
    if offset + recordLength >? Capacity statx then
      ([], Some (ErrPropertiesDontFit (Capacity statx)))
    else
      let '(ss, err) :=
        SetStatics_records statx statics labels' (offset + recordLength) in
      (StPutBytes (offset + staticsLabelOffset) labelBytes
       :: StPutBytes (offset + staticsLabelOffset + len label) valueBytes
       :: StPutInt32 (offset + staticsLabelLengthOffset) (int32 (len label))
       :: StPutInt32Volatile (offset + staticsValueLengthOffset) (int32 (len value))
       :: ss, err)
  end.

Definition SetStatics_stores (e : Encoder) (statics : gmap string string)
  : list store * option error :=
  let statx := Statics (ELayout e) in
  let offset := 0 in
  if (size statics =? 0)%nat then
    ([StPutInt32Volatile offset 0], None)
  else if offset + staticsRecordsOffset >? Capacity statx then
    ([], Some (ErrStaticsBufferTooSmall (Capacity statx)))
  else
    let labels := sortedLabels statics in
    let '(ss, err) := SetStatics_records statx statics labels staticsRecordsOffset in
    (StPutInt32Volatile offset (int32 (Z.of_nat (length labels))) :: ss, err).

Definition SetStatics (e : Encoder) (statics : gmap string string) (m : Memory)
  : outcome (option error * Memory) :=
  let '(ss, err) := SetStatics_stores e statics in
  match exec_stores (Statics (ELayout e)) ss m with
  | Some m' => Done (err, m')
  | None => Panic
  end.

(** Fuel that lets a scan over a section of the given capacity visit every
    slot and evaluate the loop condition once more. *)
Definition scan_fuel (cap : Z) : nat := Z.to_nat (cap / metadataRecordLength) + 2.

Fixpoint AddCounter_loop (fuel : nat) (metadata values : Buffer)
         (id initialValue : Z) (label : string)
         (metadataOffset valueOffset : Z) (m : Memory)
  : outcome ((Z * option error) * Memory) :=
  match fuel with
  | O => OutOfFuel
  | S fuel' =>
    if metadataOffset <? Capacity metadata then
      let idStatusOffset := metadataOffset + metadataCounterIDStatusOffset in
      let idStatus := GetInt64Volatile metadata idStatusOffset m in
      let status := extractStatus idStatus in
      if (status =? counterStatusNotUsed) || (status =? counterStatusFreed) then
        let inProgressIDStatus := makeIDStatus id counterStatusAllocationInProgress in
        let '(swapped, m) :=
          CompareAndSwapInt64 metadata idStatusOffset idStatus inProgressIDStatus m in
        if swapped then
          let labelBytes := list_ascii_of_string label in
          let labelLength := len label in
          let labelLength :=
            if metadataLabelMaxLength <? labelLength
            then metadataLabelMaxLength else labelLength in
          let m := PutInt32 metadata (metadataOffset + metadataLabelLengthOffset)
                            (int32 labelLength) m in
          match PutSomeBytes metadata (metadataOffset + metadataLabelOffset)
                             labelBytes 0 labelLength m with
          | None => Panic
          | Some m =>
            let m := PutInt64 values valueOffset initialValue m in
            let allocatedIDStatus := makeIDStatus id counterStatusAllocated in
            let m := PutInt64Volatile metadata idStatusOffset allocatedIDStatus m in
            Done ((valueOffset, None), m)
          end
        else
          (* continue: the same slot is tried again *)
          AddCounter_loop fuel' metadata values id initialValue label
                          metadataOffset valueOffset m
      else
        AddCounter_loop fuel' metadata values id initialValue label
                        (metadataOffset + metadataRecordLength)
                        (valueOffset + valuesCounterLength) m
    else Done ((0, Some ErrNoFreeSpace), m)
  end.

Definition AddCounter (e : Encoder) (id initialValue : Z) (label : string) (m : Memory)
  : outcome ((Z * option error) * Memory) :=
  let metadata := CountersMetadata (ELayout e) in
  let values := CountersValues (ELayout e) in
  AddCounter_loop (scan_fuel (Capacity metadata)) metadata values
                  id initialValue label 0 0 m.

Fixpoint FreeCounter_loop (fuel : nat) (metadata : Buffer) (id : Z)
         (metadataOffset : Z) (m : Memory) : outcome (bool * Memory) :=
  match fuel with
  | O => OutOfFuel
  | S fuel' =>
    if metadataOffset <? Capacity metadata then
      let idStatusOffset := metadataOffset + metadataCounterIDStatusOffset in
      let idStatus := GetInt64Volatile metadata idStatusOffset m in
      let currentID := extractID idStatus in
      if currentID =? id then
        let status := extractStatus idStatus in
        if status =? counterStatusAllocated then
          let newIDStatus := makeIDStatus id counterStatusFreed in
          (* the result of the CAS is ignored *)
          let '(_, m) := CompareAndSwapInt64 metadata idStatusOffset idStatus newIDStatus m in
          Done (true, m)
        else Done (false, m)
      else
        FreeCounter_loop fuel' metadata id (metadataOffset + metadataRecordLength) m
    else Done (false, m)
  end.

Definition FreeCounter (e : Encoder) (id : Z) (m : Memory) : outcome (bool * Memory) :=
  let metadata := CountersMetadata (ELayout e) in
  FreeCounter_loop (scan_fuel (Capacity metadata)) metadata id 0 m.

(** ** Decoder *)

Record Decoder : Type := mkDecoder { DLayout : Layout }.

Definition NewDecoder (buf : Buffer) (m : Memory) : Decoder :=
  let header := Slice buf 0 HeaderLength in
  let staticsLength := GetInt32Volatile header headerStaticsLengthOffset m in
  let metadataLength := GetInt32 header headerMetadataLengthOffset m in
  let valuesLength := GetInt32 header headerValuesLengthOffset m in
  mkDecoder
    (mkLayout header
              (Slice buf HeaderLength staticsLength)
              (Slice buf (HeaderLength + staticsLength) metadataLength)
              (Slice buf (HeaderLength + (staticsLength + metadataLength)) valuesLength)).

Definition NewDecoderWithBuffers (header statics countersMetadata countersValues : Buffer)
  : Decoder :=
  mkDecoder (mkLayout header statics countersMetadata countersValues).

Definition Version (d : Decoder) (m : Memory) : Z :=
  GetInt32Volatile (Header (DLayout d)) headerCountersVersionOffset m.



(** A consumer is a Go closure: it returns whether to go on and may update
    the variables it captured, here the accumulator of type [A]. *)
Fixpoint ForEachStatic_loop {A : Type} (statics : Buffer)
         (consumer : string -> string -> A -> bool * A)
         (n : nat) (offset : Z) (m : Memory) (acc : A) : outcome A :=
  match n with
  | O => Done acc
  | S n' =>
    let labelLen := GetInt32 statics (offset + staticsLabelLengthOffset) m in
    let valueLen := GetInt32 statics (offset + staticsValueLengthOffset) m in
    match GetString statics (offset + staticsLabelOffset) labelLen m with
    | None => Panic
    | Some label =>
      match GetString statics (offset + staticsLabelOffset + labelLen) valueLen m with
      | None => Panic
      | Some value =>
        let '(continue, acc) := consumer label value acc in
        if negb continue then Done acc
        else
          let recordLen := staticsRecordLength labelLen valueLen in
          ForEachStatic_loop statics consumer n' (offset + recordLen) m acc
      end
    end
  end.

Definition ForEachStatic {A : Type} (d : Decoder)
           (consumer : string -> string -> A -> bool * A) (m : Memory) (acc : A)
  : outcome A :=
  let statics := Statics (DLayout d) in
  let offset := staticsNumberOfStaticsOffset in
  let numOfStatics := GetInt32Volatile statics offset m in
  let offset := staticsRecordsOffset in
  (* for i := 0; i < numOfStatics; i++ *)
  ForEachStatic_loop statics consumer (Z.to_nat numOfStatics) offset m acc.

Fixpoint GetStaticValue_loop (statics : Buffer) (label : string)
         (staticLabelBytes : list byte)
         (n : nat) (offset : Z) (m : Memory) : outcome (string * option error) :=
  match n with
  | O => Done (EmptyString, Some (ErrLabelNotFound label))
  | S n' =>
    let labelLength := GetInt32 statics (offset + staticsLabelLengthOffset) m in
    let valueLength := GetInt32 statics (offset + staticsValueLengthOffset) m in
    match GetBytes statics (offset + staticsLabelOffset) labelLength m with
    | None => Panic
    | Some labelBytes =>
      (* bytes.Compare(staticLabelBytes, labelBytes) == 0 *)
      if bool_decide (staticLabelBytes = labelBytes) then
        match GetBytes statics (offset + staticsLabelOffset + labelLength) valueLength m with
        | None => Panic
        | Some valueBytes => Done (string_of_list_ascii valueBytes, None)
        end
      else
        let recordLength := staticsRecordLength labelLength valueLength in
        GetStaticValue_loop statics label staticLabelBytes n' (offset + recordLength) m
    end
  end.

Definition GetStaticValue (d : Decoder) (label : string) (m : Memory)
  : outcome (string * option error) :=
  let offset := staticsNumberOfStaticsOffset in
  let statics := Statics (DLayout d) in
  let numOfStatics := GetInt32Volatile statics offset m in
  let offset := staticsRecordsOffset in
  let staticLabelBytes := list_ascii_of_string label in
  GetStaticValue_loop statics label staticLabelBytes (Z.to_nat numOfStatics) offset m.

Fixpoint ForEachCounter_loop {A : Type} (fuel : nat) (metadata values : Buffer)
         (consumer : Z -> Z -> string -> A -> bool * A)
         (metadataOffset valueOffset : Z) (m : Memory) (acc : A) : outcome A :=
  match fuel with
  | O => OutOfFuel
  | S fuel' =>
    if metadataOffset <? Capacity metadata then
      let idStatusOffset := metadataOffset + metadataCounterIDStatusOffset in
      let idStatus := GetInt64Volatile metadata idStatusOffset m in
      let status := extractStatus idStatus in
      if status =? counterStatusNotUsed then Done acc (* break Stop *)
      else if status =? counterStatusAllocated then
        let id := extractID idStatus in
        let labelLength := GetInt32 metadata (metadataOffset + metadataLabelLengthOffset) m in
        match GetString metadata (metadataOffset + metadataLabelOffset) labelLength m with
        | None => Panic
        | Some label =>
          let value := GetInt64 values valueOffset m in
          if GetInt64Volatile metadata idStatusOffset m =? idStatus then
            let '(continue, acc) := consumer id value label acc in
            if negb continue then Done acc
            else
              ForEachCounter_loop fuel' metadata values consumer
                                  (metadataOffset + metadataRecordLength)
                                  (valueOffset + valuesCounterLength) m acc
          else
            ForEachCounter_loop fuel' metadata values consumer
                                (metadataOffset + metadataRecordLength)
                                (valueOffset + valuesCounterLength) m acc
        end
      else
        ForEachCounter_loop fuel' metadata values consumer
                            (metadataOffset + metadataRecordLength)
                            (valueOffset + valuesCounterLength) m acc
    else Done acc
  end.

Definition ForEachCounter {A : Type} (d : Decoder)
           (consumer : Z -> Z -> string -> A -> bool * A) (m : Memory) (acc : A)
  : outcome A :=
  let metadata := CountersMetadata (DLayout d) in
  let values := CountersValues (DLayout d) in
  ForEachCounter_loop (scan_fuel (Capacity metadata)) metadata values consumer 0 0 m acc.

Fixpoint GetCounterValue_loop (fuel : nat) (metadata values : Buffer) (counterID : Z)
         (metadataOffset valueOffset : Z) (m : Memory) : outcome (Z * option error) :=
  match fuel with
  | O => OutOfFuel
  | S fuel' =>
    if metadataOffset <? Capacity metadata then
      let idStatusOffset := metadataOffset + metadataCounterIDStatusOffset in
      let idStatus := GetInt64Volatile metadata idStatusOffset m in
      let status := extractStatus idStatus in
      if status =? counterStatusNotUsed then
        Done (0, Some (ErrNotFound counterID)) (* break *)
      else
        let id := extractID idStatus in
        if counterID =? id then
          if status =? counterStatusAllocated then
            let value := GetInt64 values valueOffset m in
            if GetInt64Volatile metadata idStatusOffset m =? idStatus then
              Done (value, None)
            else
              (* continue: the same slot is read again *)
              GetCounterValue_loop fuel' metadata values counterID
                                   metadataOffset valueOffset m
          else Done (0, Some (ErrNotAllocated counterID))
        else
          GetCounterValue_loop fuel' metadata values counterID
                               (metadataOffset + metadataRecordLength)
                               (valueOffset + valuesCounterLength) m
    else Done (0, Some (ErrNotFound counterID))
  end.

Definition GetCounterValue (d : Decoder) (counterID : Z) (m : Memory)
  : outcome (Z * option error) :=
  let metadata := CountersMetadata (DLayout d) in
  let values := CountersValues (DLayout d) in
  GetCounterValue_loop (scan_fuel (Capacity metadata)) metadata values counterID 0 0 m.

Fixpoint GetCounterLabel_loop (fuel : nat) (metadata : Buffer) (counterID : Z)
         (metadataOffset : Z) (m : Memory) : outcome (string * option error) :=
  match fuel with
  | O => OutOfFuel
  | S fuel' =>
    if metadataOffset <? Capacity metadata then
      let idStatusOffset := metadataOffset + metadataCounterIDStatusOffset in
      let idStatus := GetInt64Volatile metadata idStatusOffset m in
      let status := extractStatus idStatus in
      if status =? counterStatusNotUsed then
        Done (EmptyString, Some (ErrNotFound counterID)) (* break *)
      else
        let id := extractID idStatus in
        if counterID =? id then
          if status =? counterStatusAllocated then
            let labelLength :=
              GetInt32 metadata (metadataOffset + metadataLabelLengthOffset) m in
            match GetBytes metadata (metadataOffset + metadataLabelOffset) labelLength m with
            | None => Panic
            | Some labelBytes =>
              if GetInt64Volatile metadata idStatusOffset m =? idStatus then
                Done (string_of_list_ascii labelBytes, None)
              else
                (* continue: the same slot is read again *)
                GetCounterLabel_loop fuel' metadata counterID metadataOffset m
            end
          else Done (EmptyString, Some (ErrNotAllocated counterID))
        else
          GetCounterLabel_loop fuel' metadata counterID
                               (metadataOffset + metadataRecordLength) m
    else Done (EmptyString, Some (ErrNotFound counterID))
  end.

Definition GetCounterLabel (d : Decoder) (counterID : Z) (m : Memory)
  : outcome (string * option error) :=
  let metadata := CountersMetadata (DLayout d) in
  GetCounterLabel_loop (scan_fuel (Capacity metadata)) metadata counterID 0 m.

End Layout.

(** ** Package mmap

    The operating system and Go's syscall package are a [World]: the memory
    of the process, the files that exist, the mappings that syscall.Mmap has
    returned and that are still active (the table syscall.Munmap looks a
    range up in), and the munmap system calls made so far.  What the system
    answers is an [Env]: the page size, where mmap places a mapping, the pid,
    the clock, and the errors of the calls of MapNewFile that can fail. *)

Module Mmap.
Import Offheap.

Record World : Type := mkWorld {
  memory : Memory;
  files : gset string;
  mapped : list (Z * Z);
  munmaps : list (Z * Z)
}.

Record Env : Type := mkEnv {
  pageSize : Z;
  mmapAddr : Z;
  pid : Z;
  unixNano : Z;
  (* the error of os.OpenFile for a cause other than that the file exists *)
  openFileError : option error;
  (* the error of os.Truncate for a size that is not negative *)
  truncateError : option error;
  (* the error of f.Stat or of the mmap system call *)
  mmapError : option error
}.

Definition with_memory (w : World) (m : Memory) : World :=
  mkWorld m (files w) (mapped w) (munmaps w).

Definition with_file (w : World) (filename : string) : World :=
  mkWorld (memory w) ({[ filename ]} ∪ files w) (mapped w) (munmaps w).

(** align rounds v up to a multiple of alignment, a power of 2.  As for
    Layout.Align, the sum is taken in Z: it is the sum of Go's int while
    v + alignment - 1 is below 2^63. *)
Definition align (v : Z) (alignment : Z) : Z :=
  Z.ldiff (v + alignment - 1) (alignment - 1).

(** The pages of a file that was just created and truncated read as zero. *)
Definition fresh_pages (a size : Z) (m : Memory) : Memory :=
  fun x => if (a <=? x) && (x <? a + size) then zero else m x.

(** [for position < alignedSize { buf.PutInt64(position, 0); position += pageSize }] *)
Fixpoint pretouch (fuel : nat) (buf : Buffer) (alignedSize pageSize position : Z)
         (m : Memory) : Memory :=
  match fuel with
  | O => m
  | S fuel' =>
    if position <? alignedSize then
      pretouch fuel' buf alignedSize pageSize (position + pageSize)
               (PutInt64 buf position 0 m)
    else m
  end.

(** MapNewFile returns the error of the first call that fails: os.OpenFile
    (exclusive creation, so an existing file is an error), os.Truncate, and
    mmap, which is f.Stat and syscall.Mmap on the length of the file;
    syscall.Mmap refuses a length that is not positive with EINVAL.  The
    error of os.MkdirAll is dropped by the source.  Once os.OpenFile has
    succeeded the file exists, also when a later call fails: the source does
    not remove it. *)
Definition MapNewFile (env : Env) (filename : string) (size : Z) (w : World)
  : (option Buffer * option error) * World :=
  let pageSize := pageSize env in
  let alignedSize := align size pageSize in
  (* os.OpenFile with O_RDWR|O_CREATE|O_EXCL *)
  if bool_decide (filename ∈ files w) then ((None, Some ErrOS), w)
  else
    match openFileError env with
    | Some err => ((None, Some err), w)
    | None =>
      let w := with_file w filename in
      (* os.Truncate(f.Name(), int64(alignedSize)): a negative size is refused *)
      if alignedSize <? 0 then ((None, Some ErrOS), w)
      else
        match truncateError env with
        | Some err => ((None, Some err), w)
        | None =>
          (* mmap(f, false): syscall.Mmap on the size of the file *)
          if alignedSize <=? 0 then ((None, Some ErrEINVAL), w)
          else
            match mmapError env with
            | Some err => ((None, Some err), w)
            | None =>
              let a := mmapAddr env in
              let buf := NewBuffer a alignedSize in
              let m := fresh_pages a alignedSize (memory w) in
              let m := pretouch (Z.to_nat alignedSize) buf alignedSize pageSize 0 m in
              ((Some buf, None),
               mkWorld m (files w) ((a, alignedSize) :: mapped w) (munmaps w))
            end
        end
    end.

(** munmap hands the range to syscall.Munmap as a byte slice of that
    address, length and capacity.  syscall.Munmap returns EINVAL, without a
    system call, for an empty slice and for a range that is not an active
    mapping (one that syscall.Mmap returned and that was not unmapped
    since); its index expression [data[cap(data)-1]] panics on a negative
    length.  For an active mapping it calls munmap(2), which is taken to
    succeed there, and takes the mapping out of the table. *)
Definition munmap (a size : Z) (w : World) : outcome (option error * World) :=
  if size =? 0 then Done (Some ErrEINVAL, w)
  else if size <? 0 then Panic
  else if bool_decide ((a, size) ∈ mapped w) then
    Done (None,
          mkWorld (memory w) (files w)
                  (filter (fun r => r <> (a, size)) (mapped w))
                  ((a, size) :: munmaps w))
  else Done (Some ErrEINVAL, w).

Definition Unmap (buf : Buffer) (w : World) : outcome (option error * World) :=
  munmap (Address buf) (Capacity buf) w.

End Mmap.

(** ** Package mc4go: the Writer, Counter and Reader facades

    The methods of the three types are prefixed with the type's name; a
    Counter's [owner] pointer is the Writer passed along with it. *)

Module Mc4go.
Import Offheap Layout Mmap.

Definition MaxPossibleNumberOfCounters : Z := 10000.

Record Writer : Type := mkWriter {
  filename : string;
  idSequence : Z;
  closed : Z;
  buffer : Buffer;
  encoder : Encoder;
  values : Buffer
}.

Record Counter : Type := mkCounter {
  id : Z;
  label : string;
  valueOffset : Z;
  counterClosed : Z
}.

Record Reader : Type := mkReader {
  readerBuffer : Buffer;
  decoder : Decoder
}.

Definition NewWriterForFile (env : Env) (filename : string)
           (statics : gmap string string) (maxNumbersOfCounters : Z) (w : World)
  : outcome ((option Writer * option error) * World) :=
  if (maxNumbersOfCounters <? 0) || (maxNumbersOfCounters >? MaxPossibleNumberOfCounters)
  then Done ((None, Some (ErrIncorrectMaxCounters maxNumbersOfCounters)), w)
  else
    let staticsLength := StaticsLength statics in
    let metadataLength := MetadataLength maxNumbersOfCounters in
    let valuesLength := ValuesLength maxNumbersOfCounters in
    let countersFileSize :=
      Layout.Align (HeaderLength + staticsLength + metadataLength + valuesLength)
                   (pageSize env) in
    match MapNewFile env filename countersFileSize w with
    | ((None, err), w) => Done ((None, err), w)
    | ((Some buf, _), w) =>
      let '(encoder, m) :=
        NewEncoder buf staticsLength metadataLength valuesLength (memory w) in
      let m := SetPid encoder (int64 (pid env)) m in
      let m := SetStartTime encoder (int64 (unixNano env / 1000000)) m in
      (* the error of SetStatics is dropped *)
      match SetStatics encoder statics m with
      | Done (_, m) =>
        let m := SetVersion encoder CountersVersion m in
        Done ((Some (mkWriter filename (-1) 0 buf encoder
                              (CountersValues (ELayout encoder))), None),
              with_memory w m)
      | Panic => Panic
      | OutOfFuel => OutOfFuel
      end
    end.

(** [atomic.AddInt64(&w.idSequence, 1)] followed by [Encoder.AddCounter]. *)
Definition Writer_AddCounterWithInitialValue (w : Writer) (label : string)
           (initialValue : Z) (m : Memory)
  : outcome ((option Counter * option error) * Writer * Memory) :=
  let id := int64 (idSequence w + 1) in
  let w := mkWriter (filename w) id (closed w) (buffer w) (encoder w) (values w) in
  match AddCounter (encoder w) id initialValue label m with
  | Done ((valueOffset, Some err), m) => Done ((None, Some err), w, m)
  | Done ((valueOffset, None), m) =>
    Done ((Some (mkCounter id label valueOffset 0), None), w, m)
  | Panic => Panic
  | OutOfFuel => OutOfFuel
  end.

Definition Writer_AddCounter (w : Writer) (label : string) (m : Memory)
  : outcome ((option Counter * option error) * Writer * Memory) :=
  Writer_AddCounterWithInitialValue w label 0 m.

Definition Writer_IsClosed (w : Writer) : bool := negb (closed w =? 0).

(** [if !atomic.CompareAndSwapInt32(&w.closed, 0, 1) { return }] then Unmap. *)
Definition Writer_Close (w : Writer) (world : World)
  : outcome (option error * Writer * World) :=
  if closed w =? 0 then
    let w := mkWriter (filename w) (idSequence w) 1 (buffer w) (encoder w) (values w) in
    match Unmap (buffer w) world with
    | Done (err, world) => Done (err, w, world)
    | Panic => Panic
    | OutOfFuel => OutOfFuel
    end
  else Done (None, w, world).

Definition Counter_ID (c : Counter) : Z := id c.
Definition Counter_Label (c : Counter) : string := label c.

Definition Counter_Get (owner : Writer) (c : Counter) (m : Memory) : Z :=
  GetInt64Volatile (values owner) (valueOffset c) m.

Definition Counter_Set (owner : Writer) (c : Counter) (v : Z) (m : Memory) : Memory :=
  PutInt64Volatile (values owner) (valueOffset c) v m.

Definition Counter_Increment (owner : Writer) (c : Counter) (m : Memory) : Z * Memory :=
  AddInt64 (values owner) (valueOffset c) 1 m.

Definition Counter_GetWeak (owner : Writer) (c : Counter) (m : Memory) : Z :=
  GetInt64 (values owner) (valueOffset c) m.

Definition Counter_SetWeak (owner : Writer) (c : Counter) (v : Z) (m : Memory) : Memory :=
  PutInt64 (values owner) (valueOffset c) v m.

(** [AddInt64(c.valueOffset, delta) - delta], an int64 subtraction. *)
Definition Counter_GetAndAdd (owner : Writer) (c : Counter) (delta : Z) (m : Memory)
  : Z * Memory :=
  let '(new, m) := AddInt64 (values owner) (valueOffset c) delta m in
  (int64 (new - delta), m).

Definition Counter_IsClosed (c : Counter) : bool := negb (counterClosed c =? 0).

Definition Counter_Close (owner : Writer) (c : Counter) (m : Memory)
  : outcome (Counter * Memory) :=
  if counterClosed c =? 0 then
    let c := mkCounter (id c) (label c) (valueOffset c) 1 in
    match FreeCounter (encoder owner) (id c) m with
    | Done (_, m) => Done (c, m)
    | Panic => Panic
    | OutOfFuel => OutOfFuel
    end
  else Done (c, m).

Definition NewReader (buf : Buffer) (m : Memory) : option Reader * option error :=
  let decoder := NewDecoder buf m in
  let version := Version decoder m in
  if version =? 0 then (None, Some ErrNotInitialized)
  else if negb (version =? CountersVersion) then (None, Some (ErrUnexpectedVersion version))
  else (Some (mkReader buf decoder), None).

(** Reader.Close is [return mmap.Unmap(r.buffer)]: the Reader has no
    closed flag. *)
Definition Reader_Close (r : Reader) (world : World)
  : outcome (option error * Reader * World) :=
  match Unmap (readerBuffer r) world with
  | Done (err, world) => Done (err, r, world)
  | Panic => Panic
  | OutOfFuel => OutOfFuel
  end.

End Mc4go.

(** ** Views of the sections, used to state the properties *)

Module View.
Import Offheap Layout Mmap Mc4go.

(** Slot [i] of the metadata section and its paired values slot. *)
Definition slot_word (L : Layout.Layout) (m : Memory) (i : nat) : Z :=
  GetInt64Volatile (CountersMetadata L) (Z.of_nat i * metadataRecordLength) m.

Definition slot_status (L : Layout.Layout) (m : Memory) (i : nat) : Z :=
  extractStatus (slot_word L m i).

Definition slot_id (L : Layout.Layout) (m : Memory) (i : nat) : Z :=
  extractID (slot_word L m i).

Definition slot_label_length (L : Layout.Layout) (m : Memory) (i : nat) : Z :=
  GetInt32 (CountersMetadata L)
           (Z.of_nat i * metadataRecordLength + metadataLabelLengthOffset) m.

Definition slot_label_bytes (L : Layout.Layout) (m : Memory) (i : nat) (n : Z)
  : list byte :=
  load_bytes m (addr (CountersMetadata L)
                + (Z.of_nat i * metadataRecordLength + metadataLabelOffset))
             (Z.to_nat n).

(** The label a slot stores: as many bytes as its label-length field says. *)
Definition slot_label (L : Layout.Layout) (m : Memory) (i : nat) : string :=
  string_of_list_ascii (slot_label_bytes L m i (slot_label_length L m i)).

Definition slot_value (L : Layout.Layout) (m : Memory) (i : nat) : Z :=
  GetInt64 (CountersValues L) (Z.of_nat i * valuesCounterLength) m.

(** A metadata section of [n] slots whose paired values slots lie outside
    of it, as NewEncoder slices them. *)
Definition layout_ok (L : Layout.Layout) (n : nat) : Prop :=
  Capacity (CountersMetadata L) = Z.of_nat n * metadataRecordLength /\
  (addr (CountersMetadata L) + Z.of_nat n * metadataRecordLength
     <= addr (CountersValues L) \/
   addr (CountersValues L) + Z.of_nat n * valuesCounterLength
     <= addr (CountersMetadata L)).

(** The statuses AddCounter takes a slot in. *)
Definition is_free (status : Z) : Prop :=
  status = counterStatusNotUsed \/ status = counterStatusFreed.

#[global] Instance is_free_dec (status : Z) : Decision (is_free status).
Proof. unfold is_free. apply _. Defined.

#[global] Instance layout_ok_dec (L : Layout.Layout) (n : nat) : Decision (layout_ok L n).
Proof. unfold layout_ok. apply _. Defined.

(** The slots of a list that come before its first NotUsed slot. *)
Definition live_prefix (L : Layout.Layout) (m : Memory) (ks : list nat) : list nat :=
  match list_find (fun i => slot_status L m i = counterStatusNotUsed) ks with
  | Some (p, _) => take p ks
  | None => ks
  end.

(** The search horizon: the index of the first NotUsed slot, or [n]. *)
Definition horizon (L : Layout.Layout) (m : Memory) (n : nat) : nat :=
  match list_find (fun i => slot_status L m i = counterStatusNotUsed) (seq 0 n) with
  | Some (k, _) => k
  | None => n
  end.

(** The Allocated slots before the horizon, in ascending order. *)
Definition live_slots (L : Layout.Layout) (m : Memory) (n : nat) : list nat :=
  filter (fun i => slot_status L m i = counterStatusAllocated) (seq 0 (horizon L m n)).

Definition slot_record (L : Layout.Layout) (m : Memory) (i : nat) : Z * Z * string :=
  (slot_id L m i, slot_value L m i, slot_label L m i).


(** Calling a sink on the records of a list, until it returns false. *)
Fixpoint feed {R A : Type} (sink : R -> A -> bool * A) (rs : list R) (acc : A) : A :=
  match rs with
  | [] => acc
  | r :: rs' =>
    let '(continue, acc) := sink r acc in
    if continue then feed sink rs' acc else acc
  end.

(** The sink that appends what it is given and always asks for more. *)
Definition collect {R : Type} (r : R) (acc : list R) : bool * list R :=
  (true, acc ++ [r]).

(** The entries of a statics map in ascending order of label. *)
Definition sortedEntries (statics : gmap string string) : list (string * string) :=
  (fun label => (label, mapIndex statics label)) <$> sortedLabels statics.

(** The memory after AddCounter has taken slot [i]: the stores of the
    allocation branch, in program order. *)
Definition allocate (L : Layout.Layout) (i : nat) (id initialValue : Z) (label : string)
           (m : Memory) : Memory :=
  let metadata := CountersMetadata L in
  let values := CountersValues L in
  let metadataOffset := Z.of_nat i * metadataRecordLength in
  let idStatusOffset := metadataOffset + metadataCounterIDStatusOffset in
  let labelLength :=
    if metadataLabelMaxLength <? len label then metadataLabelMaxLength else len label in
  let m := PutInt64 metadata idStatusOffset
                    (makeIDStatus id counterStatusAllocationInProgress) m in
  let m := PutInt32 metadata (metadataOffset + metadataLabelLengthOffset)
                    (int32 labelLength) m in
  let m := store_bytes m (addr metadata + (metadataOffset + metadataLabelOffset))
                       (take (Z.to_nat labelLength)
                             (drop (Z.to_nat 0) (list_ascii_of_string label))) in
  let m := PutInt64 values (Z.of_nat i * valuesCounterLength) initialValue m in
  PutInt64Volatile metadata idStatusOffset (makeIDStatus id counterStatusAllocated) m.

(** The memory after FreeCounter has freed slot [i]. *)
Definition release (L : Layout.Layout) (i : nat) (id : Z) (m : Memory) : Memory :=
  PutInt64 (CountersMetadata L)
           (Z.of_nat i * metadataRecordLength + metadataCounterIDStatusOffset)
           (makeIDStatus id counterStatusFreed) m.

(** The invariant of a metadata section of [n] slots: every status is one
    of the four, and the NotUsed slots form a suffix. *)
Definition slots_inv (L : Layout.Layout) (n : nat) (m : Memory) : Prop :=
  (forall i, (i < n)%nat ->
             slot_status L m i = counterStatusNotUsed \/
             slot_status L m i = counterStatusAllocationInProgress \/
             slot_status L m i = counterStatusAllocated \/
             slot_status L m i = counterStatusFreed) /\
  (forall i j, (i < j < n)%nat ->
               slot_status L m i = counterStatusNotUsed ->
               slot_status L m j = counterStatusNotUsed).

(** The memory after the four stores of one statics record. *)
Definition record_written (statx : Buffer) (offset : Z) (label value : string)
           (m : Memory) : Memory :=
  let m := store_bytes m (addr statx + (offset + staticsLabelOffset))
                       (list_ascii_of_string label) in
  let m := store_bytes m (addr statx + (offset + staticsLabelOffset + len label))
                       (list_ascii_of_string value) in
  let m := PutInt32 statx (offset + staticsLabelLengthOffset) (int32 (len label)) m in
  PutInt32Volatile statx (offset + staticsValueLengthOffset) (int32 (len value)) m.

(** The operations of the encoder on the counters. *)
Inductive op : Type :=
| OpAdd (id initialValue : Z) (label : string)
| OpFree (id : Z).

Definition step (e : Encoder) (o : op) (m : Memory) : outcome Memory :=
  match o with
  | OpAdd id initialValue label =>
    match AddCounter e id initialValue label m with
    | Done (_, m') => Done m'
    | Panic => Panic
    | OutOfFuel => OutOfFuel
    end
  | OpFree id =>
    match FreeCounter e id m with
    | Done (_, m') => Done m'
    | Panic => Panic
    | OutOfFuel => OutOfFuel
    end
  end.

Fixpoint run (e : Encoder) (ops : list op) (m : Memory) : outcome Memory :=
  match ops with
  | [] => Done m
  | o :: ops' =>
    match step e o m with
    | Done m' => run e ops' m'
    | Panic => Panic
    | OutOfFuel => OutOfFuel
    end
  end.

(** The stores of one statics record, and of the records of a list of
    labels laid out from an offset on: the order in which SetStatics is
    to issue them. *)
Definition record_stores (offset : Z) (label value : string) : list store :=
  [ StPutBytes (offset + staticsLabelOffset) (list_ascii_of_string label);
    StPutBytes (offset + staticsLabelOffset + len label) (list_ascii_of_string value);
    StPutInt32 (offset + staticsLabelLengthOffset) (int32 (len label));
    StPutInt32Volatile (offset + staticsValueLengthOffset) (int32 (len value)) ].

Fixpoint records_stores (statics : gmap string string) (labels : list string)
         (offset : Z) : list store :=
  match labels with
  | [] => []
  | label :: labels' =>
    let value := mapIndex statics label in
    record_stores offset label value
    ++ records_stores statics labels'
                      (offset + staticsRecordLength (len label) (len value))
  end.

Definition store_offset (s : store) : Z :=
  match s with
  | StPutInt32 offset _ => offset
  | StPutInt32Volatile offset _ => offset
  | StPutBytes offset _ => offset
  end.

(** The memory after the first [k] stores of a sequence. *)
Definition after_stores (b : Buffer) (ss : list store) (k : nat) (m : Memory)
  : option Memory :=
  exec_stores b (take k ss) m.

(** The calls a program makes on a Writer and its counters. *)
Inductive call : Type :=
| CallAdd (label : string) (initialValue : Z)
| CallClose (c : Counter).

(** Runs the calls in order.  For each CallAdd the result lists the value of
    the writer's id sequence right after the call, which is the id the call
    drew, and the counter returned, if any. *)
Fixpoint run_calls (w : Writer) (calls : list call) (m : Memory)
  : outcome (list (Z * option Counter) * Writer * Memory) :=
  match calls with
  | [] => Done ([], w, m)
  | CallAdd label initialValue :: calls' =>
    match Writer_AddCounterWithInitialValue w label initialValue m with
    | Done ((c, _), w, m) =>
      match run_calls w calls' m with
      | Done (rs, w', m') => Done ((idSequence w, c) :: rs, w', m')
      | Panic => Panic
      | OutOfFuel => OutOfFuel
      end
    | Panic => Panic
    | OutOfFuel => OutOfFuel
    end
  | CallClose c :: calls' =>
    match Counter_Close w c m with
    | Done (_, m) => run_calls w calls' m
    | Panic => Panic
    | OutOfFuel => OutOfFuel
    end
  end.

Definition is_add (c : call) : bool :=
  match c with CallAdd _ _ => true | CallClose _ => false end.

(** Where a store ends, and where the records of a statics map end when
    they are laid out from staticsRecordsOffset on: the length StaticsLength
    computes before it rounds up. *)
Definition store_end (s : store) : Z :=
  match s with
  | StPutInt32 offset _ => offset + 4
  | StPutInt32Volatile offset _ => offset + 4
  | StPutBytes offset bs => offset + Z.of_nat (length bs)
  end.

Definition recordsEnd (statics : gmap string string) : Z :=
  fold_left
    (fun l label => l + staticsRecordLength (len label) (len (mapIndex statics label)))
    (sortedLabels statics) staticsRecordsOffset.

(** The operations that add the counters of a list. *)
Definition adds (cs : list (Z * Z * string)) : list op :=
  (fun c => OpAdd c.1.1 c.1.2 c.2) <$> cs.

(** A label as AddCounter stores it: its first 380 bytes. *)
Definition cut_label (label : string) : string :=
  string_of_list_ascii (take 380 (list_ascii_of_string label)).

(** What a reader is to list for the counters of a list, added in order. *)
Definition listed (cs : list (Z * Z * string)) : list (Z * Z * string) :=
  (fun c => (c.1.1, c.1.2, cut_label c.2)) <$> cs.

(** The first slots of a section hold the counters of a list. *)
Definition records (L : Layout.Layout) (m : Memory) (cs : list (Z * Z * string)) : Prop :=
  forall (j : nat) (c : Z * Z * string),
    cs !! j = Some c ->
    (slot_record L m j = (c.1.1, c.1.2, cut_label c.2)) /\
    (0 <= slot_label_length L m j <= metadataLabelMaxLength).

(** The first [k] slots of a section of [n] slots are Allocated and the
    others NotUsed. *)
Definition filled (L : Layout.Layout) (n k : nat) (m : Memory) : Prop :=
  forall i, (i < n)%nat ->
            slot_status L m i
            = if decide (i < k)%nat then counterStatusAllocated else counterStatusNotUsed.

(** The bytes of a range are zero. *)
Definition zero_on (a size : Z) (m : Memory) : Prop :=
  forall x, a <= x < a + size -> m x = zero.

(** The slots of a writer's section that are in use store ids the writer
    has drawn already. *)
Definition ids_drawn (w : Writer) (n : nat) (m : Memory) : Prop :=
  forall i, (i < n)%nat ->
            slot_status (ELayout (encoder w)) m i <> counterStatusNotUsed ->
            slot_id (ELayout (encoder w)) m i <= idSequence w.

End View.

(** ** A small file image, for the examples

    A header of 128 bytes at address 0, a statics section of 128 bytes, a
    metadata section of two slots and the two paired values slots. *)

Module Example.
Import Offheap Layout Mmap Mc4go View.

Definition layout : Layout.Layout :=
  mkLayout (NewBuffer 0 128) (NewBuffer 128 128) (NewBuffer 256 1024) (NewBuffer 1280 256).

Definition encoder : Encoder := mkEncoder layout.
Definition decoder : Decoder := mkDecoder layout.

(** The memory after a first counter was added to the empty image. *)
Definition one_counter : Memory := allocate layout 0 7 5 "first" zero_memory.

(** Two counters were added and the first one, of id 0, was freed. *)
Definition second_counter_live : Memory :=
  release layout 0 0 (allocate layout 1 1 6 "b" (allocate layout 0 0 5 "a" zero_memory)).

(** A statics map of two entries; its records take 28 bytes. *)
Definition statics : gmap string string :=
  <["b" := "2"]> (<["a" := "1"]> ∅).

(** What the system answers to a writer, and a world with no file yet. *)
Definition env : Env := mkEnv 4096 65536 1234 1600000000000000000 None None None.
Definition world : World := mkWorld zero_memory ∅ [] [].

(** A writer over the small image, as NewWriterForFile initialises it. *)
Definition writer : Writer :=
  mkWriter "f" (-1) 0 (NewBuffer 0 4096) encoder (CountersValues layout).

(** A reader over a mapping of one page at address 8192. *)
Definition reader : Reader :=
  mkReader (NewBuffer 8192 4096) (mkDecoder layout).

End Example.

(** * Properties *)

Import Offheap Layout Mmap Mc4go View.

(** ** Bytes and fixed-width integers *)

Section Integers.

Lemma Z_of_byte_range (b : byte) : 0 <= Z_of_byte b < 256.
Proof.
  unfold Z_of_byte. pose proof (N_ascii_bounded b). lia.
Qed.

Lemma Z_of_byte_of_Z (z : Z) : Z_of_byte (byte_of_Z z) = z mod 256.
Proof.
  unfold Z_of_byte, byte_of_Z.
  pose proof (Z.mod_pos_bound z 256 ltac:(lia)).
  rewrite N_ascii_embedding by lia. lia.
Qed.

Lemma byte_of_Z_of_byte (b : byte) : byte_of_Z (Z_of_byte b) = b.
Proof.
  unfold byte_of_Z. rewrite Z.mod_small by apply Z_of_byte_range.
  unfold Z_of_byte. rewrite N2Z.id. apply ascii_N_embedding.
Qed.

Lemma length_encode_le (n : nat) (v : Z) : length (encode_le n v) = n.
Proof. revert v. induction n as [|n IH]; intros v; simpl; [done|]. by rewrite IH. Qed.

Lemma decode_encode_le (n : nat) (v : Z) :
  decode_le (encode_le n v) = v mod 256 ^ Z.of_nat n.
Proof.
  revert v. induction n as [|n IH]; intros v.
  - simpl. by rewrite Z.mod_1_r.
  - cbn [encode_le decode_le]. rewrite IH, Z_of_byte_of_Z.
    rewrite Nat2Z.inj_succ, Z.pow_succ_r by lia.
    rewrite (Z.rem_mul_r v 256 (256 ^ Z.of_nat n)) by lia. lia.
Qed.

Lemma decode_le_range (bs : list byte) :
  0 <= decode_le bs < 256 ^ Z.of_nat (length bs).
Proof.
  induction bs as [|b bs IH].
  - simpl. lia.
  - cbn [decode_le length]. pose proof (Z_of_byte_range b).
    rewrite Nat2Z.inj_succ, Z.pow_succ_r by lia. lia.
Qed.

Lemma encode_decode_le (bs : list byte) :
  encode_le (length bs) (decode_le bs) = bs.
Proof.
  induction bs as [|b bs IH]; [done|].
  cbn [length encode_le decode_le]. pose proof (Z_of_byte_range b).
  f_equal.
  - unfold byte_of_Z.
    replace ((Z_of_byte b + 256 * decode_le bs) mod 256) with (Z_of_byte b).
    + unfold Z_of_byte. rewrite N2Z.id. apply ascii_N_embedding.
    + apply (Z.mod_unique_pos _ _ (decode_le bs)); lia.
  - replace ((Z_of_byte b + 256 * decode_le bs) / 256) with (decode_le bs); [done|].
    apply (Z.div_unique_pos _ _ _ (Z_of_byte b)); lia.
Qed.

Lemma int64_is_int64 (v : Z) : is_int64 (int64 v).
Proof.
  unfold is_int64, int64. pose proof (Z.mod_pos_bound v (2 ^ 64) ltac:(lia)).
  destruct (Z.ltb_spec (v mod 2 ^ 64) (2 ^ 63)); lia.
Qed.

Lemma int64_id (v : Z) : is_int64 v -> int64 v = v.
Proof.
  unfold is_int64, int64. intros Hv.
  destruct (Z.ltb_spec (v mod 2 ^ 64) (2 ^ 63)) as [H|H].
  - destruct (Z.neg_nonneg_cases v) as [Hn|Hn].
    + rewrite <- (Z.mod_add v 1 (2 ^ 64)) in H by lia.
      rewrite Z.mod_small in H by lia. lia.
    + apply Z.mod_small. lia.
  - destruct (Z.neg_nonneg_cases v) as [Hn|Hn].
    + rewrite <- (Z.mod_add v 1 (2 ^ 64)) by lia.
      rewrite Z.mod_small by lia. lia.
    + rewrite Z.mod_small in H by lia. lia.
Qed.

Lemma int64_mod (v : Z) : int64 (v mod 2 ^ 64) = int64 v.
Proof. unfold int64. by rewrite Z.mod_mod by lia. Qed.

Lemma uint64_int64 (v : Z) : uint64 (int64 v) = uint64 v.
Proof.
  unfold uint64, int64. pose proof (Z.mod_pos_bound v (2 ^ 64) ltac:(lia)).
  destruct (Z.ltb_spec (v mod 2 ^ 64) (2 ^ 63)).
  - by rewrite Z.mod_mod by lia.
  - rewrite <- (Z.mod_add _ 1 (2 ^ 64)) by lia.
    replace (v mod 2 ^ 64 - 2 ^ 64 + 1 * 2 ^ 64) with (v mod 2 ^ 64) by lia.
    by rewrite Z.mod_mod by lia.
Qed.

Lemma int32_is_int32 (v : Z) : is_int32 (int32 v).
Proof.
  unfold is_int32, int32. pose proof (Z.mod_pos_bound v (2 ^ 32) ltac:(lia)).
  destruct (Z.ltb_spec (v mod 2 ^ 32) (2 ^ 31)); lia.
Qed.

Lemma int32_id (v : Z) : is_int32 v -> int32 v = v.
Proof.
  unfold is_int32, int32. intros Hv.
  destruct (Z.ltb_spec (v mod 2 ^ 32) (2 ^ 31)) as [H|H].
  - destruct (Z.neg_nonneg_cases v) as [Hn|Hn].
    + rewrite <- (Z.mod_add v 1 (2 ^ 32)) in H by lia.
      rewrite Z.mod_small in H by lia. lia.
    + apply Z.mod_small. lia.
  - destruct (Z.neg_nonneg_cases v) as [Hn|Hn].
    + rewrite <- (Z.mod_add v 1 (2 ^ 32)) by lia.
      rewrite Z.mod_small by lia. lia.
    + rewrite Z.mod_small in H by lia. lia.
Qed.

Lemma int32_mod (v : Z) : int32 (v mod 2 ^ 32) = int32 v.
Proof. unfold int32. by rewrite Z.mod_mod by lia. Qed.

End Integers.

(** ** Loads and stores *)

Section Memory.

Lemma length_load_bytes (m : Memory) (a : Z) (n : nat) : length (load_bytes m a n) = n.
Proof. unfold load_bytes. by rewrite length_fmap, length_seq. Qed.

Lemma load_bytes_lookup (m : Memory) (a : Z) (n i : nat) :
  (i < n)%nat -> load_bytes m a n !! i = Some (m (a + Z.of_nat i)).
Proof.
  intros Hi. unfold load_bytes.
  rewrite list_lookup_fmap, lookup_seq_lt by done. done.
Qed.

Lemma load_bytes_ext (m m' : Memory) (a : Z) (n : nat) :
  (forall x, a <= x < a + Z.of_nat n -> m x = m' x) ->
  load_bytes m a n = load_bytes m' a n.
Proof.
  intros H. apply list_eq. intros i.
  destruct (decide (i < n)%nat) as [Hi|Hi].
  - rewrite !load_bytes_lookup by done. f_equal. apply H. lia.
  - rewrite !lookup_ge_None_2; [done| |]; rewrite length_load_bytes; lia.
Qed.

Lemma store_bytes_outside (m : Memory) (a : Z) (bs : list byte) (x : Z) :
  x < a \/ a + Z.of_nat (length bs) <= x -> store_bytes m a bs x = m x.
Proof.
  intros H. unfold store_bytes.
  destruct (Z.leb_spec a x) as [Hax|Hax]; [|done].
  rewrite lookup_ge_None_2; [done|]. lia.
Qed.

Lemma store_bytes_inside (m : Memory) (a : Z) (bs : list byte) (k : nat) :
  (k < length bs)%nat -> Some (store_bytes m a bs (a + Z.of_nat k)) = bs !! k.
Proof.
  intros Hk. unfold store_bytes.
  destruct (Z.leb_spec a (a + Z.of_nat k)) as [_|]; [|lia].
  replace (Z.to_nat (a + Z.of_nat k - a)) with k by lia.
  destruct (lookup_lt_is_Some_2 bs k Hk) as [b Hb]. by rewrite Hb.
Qed.

Lemma load_store_same (m : Memory) (a : Z) (bs : list byte) :
  load_bytes (store_bytes m a bs) a (length bs) = bs.
Proof.
  apply list_eq. intros i.
  destruct (decide (i < length bs)%nat) as [Hi|Hi].
  - rewrite load_bytes_lookup by done. by apply store_bytes_inside.
  - rewrite !lookup_ge_None_2; [done| |]; rewrite ?length_load_bytes; lia.
Qed.

Lemma load_store_disjoint (m : Memory) (a : Z) (bs : list byte) (a' : Z) (n : nat) :
  a' + Z.of_nat n <= a \/ a + Z.of_nat (length bs) <= a' ->
  load_bytes (store_bytes m a bs) a' n = load_bytes m a' n.
Proof.
  intros H. apply load_bytes_ext. intros x Hx.
  apply store_bytes_outside. lia.
Qed.

(** A store of [n] bytes of an integer, read back. *)
Lemma decode_load_store (m : Memory) (a : Z) (n : nat) (v : Z) :
  decode_le (load_bytes (store_bytes m a (encode_le n v)) a n) = v mod 256 ^ Z.of_nat n.
Proof.
  rewrite <- (length_encode_le n v) at 2.
  rewrite load_store_same. apply decode_encode_le.
Qed.

Lemma load_bytes_take (m : Memory) (a : Z) (n k : nat) :
  (k <= n)%nat -> take k (load_bytes m a n) = load_bytes m a k.
Proof.
  intros Hk. unfold load_bytes. rewrite <- fmap_take. f_equal.
  rewrite take_seq. f_equal. lia.
Qed.

End Memory.

(** ** Layout arithmetic *)

Section Arithmetic.

Lemma metadataRecordLength_eq : metadataRecordLength = 512.
Proof. reflexivity. Qed.

Lemma valuesCounterLength_eq : valuesCounterLength = 128.
Proof. reflexivity. Qed.

Lemma metadataLabelMaxLength_eq : metadataLabelMaxLength = 380.
Proof. reflexivity. Qed.

Lemma HeaderLength_eq : HeaderLength = 128.
Proof. reflexivity. Qed.

Lemma Align_pow2 (v : Z) (k : Z) :
  0 <= k -> Align v (2 ^ k) = (v + 2 ^ k - 1) / 2 ^ k * 2 ^ k.
Proof.
  intros Hk. unfold Align.
  replace (2 ^ k - 1) with (Z.ones k) by (rewrite Z.ones_equiv; lia).
  rewrite Z.ldiff_ones_r by done.
  by rewrite Z.shiftr_div_pow2, Z.shiftl_mul_pow2.
Qed.

Lemma Align_bounds (v : Z) (k : Z) :
  0 <= k -> v <= Align v (2 ^ k) < v + 2 ^ k.
Proof.
  intros Hk. rewrite Align_pow2 by done.
  assert (0 < 2 ^ k) by (apply Z.pow_pos_nonneg; lia).
  pose proof (Z.div_mod (v + 2 ^ k - 1) (2 ^ k) ltac:(lia)).
  pose proof (Z.mod_pos_bound (v + 2 ^ k - 1) (2 ^ k) ltac:(lia)).
  lia.
Qed.

Lemma staticsRecordLength_bounds (ll vl : Z) :
  8 + ll + vl <= staticsRecordLength ll vl < 8 + ll + vl + 4.
Proof.
  unfold staticsRecordLength.
  change sizeOfInt32 with (2 ^ 2). change staticsLabelOffset with 8.
  apply Align_bounds. lia.
Qed.

Lemma len_nonneg (s : string) : 0 <= len s.
Proof. unfold len. lia. Qed.

Lemma length_list_ascii_of_string (s : string) :
  length (list_ascii_of_string s) = String.length s.
Proof. induction s as [|c s IH]; simpl; [done|]. by rewrite IH. Qed.

(** Packing and unpacking of the id-status word. *)
Lemma int64_mod_pow2 (w k : Z) : 0 <= k <= 64 -> int64 w mod 2 ^ k = w mod 2 ^ k.
Proof.
  intros Hk.
  assert (Hd : (2 ^ k | 2 ^ 64)).
  { exists (2 ^ (64 - k)). rewrite <- Z.pow_add_r by lia. f_equal. lia. }
  assert (0 < 2 ^ k) by (apply Z.pow_pos_nonneg; lia).
  rewrite <- (Z.mod_mod_divide w (2 ^ 64) (2 ^ k)) by done.
  unfold int64. destruct (Z.ltb_spec (w mod 2 ^ 64) (2 ^ 63)); [done|].
  destruct Hd as [q Hq]. rewrite Hq at 2.
  replace (w mod 2 ^ 64 - q * 2 ^ k) with (w mod 2 ^ 64 + (- q) * 2 ^ k) by lia.
  by rewrite Z.mod_add by lia.
Qed.

Lemma extractStatus_makeIDStatus (id status : Z) :
  0 <= status < 256 -> extractStatus (makeIDStatus id status) = status.
Proof.
  intros Hs. unfold extractStatus, makeIDStatus, uint8.
  change 255 with (Z.ones 8). rewrite Z.land_ones by lia.
  rewrite Z.mod_mod by lia.
  rewrite int64_mod_pow2 by lia.
  rewrite <- Z.land_ones by lia. rewrite Z.land_lor_distr_l.
  rewrite !Z.land_ones by lia.
  unfold uint64.
  rewrite Z.mod_mod_divide by (by exists (2 ^ 56)).
  rewrite Z.shiftl_mul_pow2 by lia. rewrite Z.mod_mul by lia.
  rewrite Z.lor_0_l.
  rewrite Z.mod_mod_divide by (by exists (2 ^ 56)).
  apply Z.mod_small. lia.
Qed.

Lemma extractID_makeIDStatus (id status : Z) :
  0 <= status < 256 -> extractID (makeIDStatus id status) = id mod 2 ^ 56.
Proof.
  intros Hs. unfold extractID, makeIDStatus.
  rewrite uint64_int64. unfold uint64 at 1.
  set (A := uint64 (Z.shiftl (uint64 id) 8)).
  assert (HA : A = (id mod 2 ^ 56) * 2 ^ 8).
  { unfold A, uint64. rewrite Z.shiftl_mul_pow2 by lia.
    change (2 ^ 64) with (2 ^ 56 * 2 ^ 8) at 2.
    rewrite Z.mul_mod_distr_r by lia. f_equal.
    rewrite Z.mod_mod_divide by (by exists (2 ^ 8)). done. }
  assert (Hst : uint64 status = status) by (unfold uint64; apply Z.mod_small; lia).
  rewrite Hst.
  assert (Hlor : Z.lor A status = A + status).
  { rewrite HA. rewrite <- Z.shiftl_mul_pow2 by lia.
    assert (Hland : Z.land (Z.shiftl (id mod 2 ^ 56) 8) status = 0).
    { rewrite <- (Z.mod_small status (2 ^ 8)) by lia.
      rewrite <- (Z.land_ones status) by lia.
      rewrite (Z.land_comm status), Z.land_assoc.
      rewrite (Z.land_ones (Z.shiftl _ _)) by lia.
      rewrite Z.shiftl_mul_pow2, Z.mod_mul by lia. done. }
    rewrite Z.add_nocarry_lxor by done. symmetry. by apply Z.lxor_lor. }
  rewrite Hlor, HA.
  pose proof (Z.mod_pos_bound id (2 ^ 56) ltac:(lia)).
  rewrite (Z.mod_small (_ + _)) by lia.
  rewrite Z.shiftr_div_pow2 by lia.
  rewrite Z.div_add_l by lia. rewrite (Z.div_small status) by lia.
  rewrite Z.add_0_r. apply int64_id. unfold is_int64. lia.
Qed.

End Arithmetic.

(** Rewrites loads through the stores that precede them. *)
Ltac mem_unfold :=
  unfold slot_status, slot_id, slot_word, slot_value, slot_label, slot_label_bytes,
    slot_label_length,
    GetInt64Volatile, GetInt64, GetInt32Volatile, GetInt32,
    PutInt64Volatile, PutInt64, PutInt32Volatile, PutInt32 in *.

Ltac mem_frame :=
  repeat (rewrite load_store_disjoint
            by (rewrite ?length_encode_le, ?length_take, ?length_drop,
                  ?length_list_ascii_of_string; lia)).

Lemma decode_load_store' (m : Memory) (a a' : Z) (n : nat) (v : Z) :
  a' = a ->
  decode_le (load_bytes (store_bytes m a (encode_le n v)) a' n) = v mod 256 ^ Z.of_nat n.
Proof. intros ->. apply decode_load_store. Qed.

Lemma load_store_same' (m : Memory) (a a' : Z) (bs : list byte) (n : nat) :
  a' = a -> n = length bs -> load_bytes (store_bytes m a bs) a' n = bs.
Proof. intros -> ->. apply load_store_same. Qed.

(** ** The encoder on the counters sections *)

Ltac consts :=
  change metadataRecordLength with 512 in *;
  change valuesCounterLength with 128 in *;
  change metadataLabelMaxLength with 380 in *;
  change metadataLabelLengthOffset with 128 in *;
  change metadataLabelOffset with 132 in *;
  change metadataCounterIDStatusOffset with 0 in *;
  change counterStatusNotUsed with 0 in *;
  change counterStatusAllocationInProgress with 1 in *;
  change counterStatusAllocated with 2 in *;
  change counterStatusFreed with 3 in *.


Lemma is_free_test (status : Z) :
  (status =? counterStatusNotUsed) || (status =? counterStatusFreed) = true
  <-> is_free status.
Proof.
  unfold is_free. rewrite orb_true_iff, !Z.eqb_eq. done.
Qed.

Lemma scan_fuel_slots (n : nat) :
  scan_fuel (Z.of_nat n * metadataRecordLength) = (n + 2)%nat.
Proof.
  unfold scan_fuel. consts. rewrite Z.div_mul by lia. lia.
Qed.

Lemma truncated_length (label : string) :
  (if metadataLabelMaxLength <? len label then metadataLabelMaxLength else len label)
  = Z.min (len label) metadataLabelMaxLength.
Proof.
  destruct (Z.ltb_spec metadataLabelMaxLength (len label)); lia.
Qed.

(** AddCounter passes over the slots that are neither NotUsed nor Freed and
    takes the first one that is. *)
Lemma AddCounter_loop_takes (L : Layout.Layout) (n : nat)
      (id initialValue : Z) (label : string) (m : Memory) (i : nat) :
  Capacity (CountersMetadata L) = Z.of_nat n * metadataRecordLength ->
  (i < n)%nat ->
  is_free (slot_status L m i) ->
  forall (fuel k : nat),
    (k <= i)%nat -> (i - k < fuel)%nat ->
    (forall j, (k <= j < i)%nat -> ~ is_free (slot_status L m j)) ->
    AddCounter_loop fuel (CountersMetadata L) (CountersValues L) id initialValue label
                    (Z.of_nat k * metadataRecordLength) (Z.of_nat k * valuesCounterLength) m
    = Done ((Z.of_nat i * valuesCounterLength, None), allocate L i id initialValue label m).
Proof.
  intros Hcap Hi Hfree. induction fuel as [|fuel IH]; intros k Hk Hfuel Hbusy; [lia|].
  cbn [AddCounter_loop].
  destruct (Z.ltb_spec (Z.of_nat k * metadataRecordLength) (Capacity (CountersMetadata L)))
    as [_|Hge]; [|rewrite Hcap in Hge; consts; lia].
  destruct (decide (k = i)) as [->|Hne].
  - unfold slot_status, slot_word in Hfree. apply is_free_test in Hfree.
    rewrite Z.add_0_r. rewrite Hfree.
    unfold CompareAndSwapInt64.
    change (GetInt64 ?b ?o ?m) with (GetInt64Volatile b o m).
    rewrite Z.eqb_refl.
    unfold PutSomeBytes.
    match goal with
    | |- context [if ?c then Some _ else None] => assert (Hb : c = true)
    end.
    { rewrite truncated_length, length_list_ascii_of_string. unfold len. consts.
      rewrite !andb_true_iff, !Z.leb_le. lia. }
    rewrite Hb. unfold allocate. rewrite Z.add_0_r. done.
  - assert (Hbusy' : ~ is_free (slot_status L m k)) by (apply Hbusy; lia).
    rewrite <- is_free_test in Hbusy'. apply not_true_is_false in Hbusy'.
    unfold slot_status, slot_word in Hbusy'. rewrite Z.add_0_r, Hbusy'.
    replace (Z.of_nat k * metadataRecordLength + metadataRecordLength)
      with (Z.of_nat (S k) * metadataRecordLength) by lia.
    replace (Z.of_nat k * valuesCounterLength + valuesCounterLength)
      with (Z.of_nat (S k) * valuesCounterLength) by lia.
    apply IH; [lia | lia |]. intros j Hj. apply Hbusy. lia.
Qed.

(** With no NotUsed or Freed slot left, AddCounter fails and stores nothing. *)
Lemma AddCounter_loop_full (L : Layout.Layout) (n : nat)
      (id initialValue : Z) (label : string) (m : Memory) :
  Capacity (CountersMetadata L) = Z.of_nat n * metadataRecordLength ->
  forall (fuel k : nat),
    (k <= n)%nat -> (n - k < fuel)%nat ->
    (forall j, (k <= j < n)%nat -> ~ is_free (slot_status L m j)) ->
    AddCounter_loop fuel (CountersMetadata L) (CountersValues L) id initialValue label
                    (Z.of_nat k * metadataRecordLength) (Z.of_nat k * valuesCounterLength) m
    = Done ((0, Some ErrNoFreeSpace), m).
Proof.
  intros Hcap. induction fuel as [|fuel IH]; intros k Hk Hfuel Hbusy; [lia|].
  cbn [AddCounter_loop].
  destruct (Z.ltb_spec (Z.of_nat k * metadataRecordLength) (Capacity (CountersMetadata L)))
    as [Hlt|Hge]; [|done].
  rewrite Hcap in Hlt. assert (k < n)%nat by (consts; lia).
  assert (Hbusy' : ~ is_free (slot_status L m k)) by (apply Hbusy; lia).
  rewrite <- is_free_test in Hbusy'. apply not_true_is_false in Hbusy'.
  unfold slot_status, slot_word in Hbusy'. rewrite Z.add_0_r, Hbusy'.
  replace (Z.of_nat k * metadataRecordLength + metadataRecordLength)
    with (Z.of_nat (S k) * metadataRecordLength) by lia.
  replace (Z.of_nat k * valuesCounterLength + valuesCounterLength)
    with (Z.of_nat (S k) * valuesCounterLength) by lia.
  apply IH; [lia | lia |]. intros j Hj. apply Hbusy. lia.
Qed.


Lemma truncated_label_length (label : string) :
  length (take (Z.to_nat (if metadataLabelMaxLength <? len label
                          then metadataLabelMaxLength else len label))
               (drop (Z.to_nat 0) (list_ascii_of_string label)))
  = Z.to_nat (Z.min (len label) metadataLabelMaxLength).
Proof.
  rewrite truncated_length, length_take, length_drop, length_list_ascii_of_string.
  unfold len. consts. lia.
Qed.

Ltac alloc_frame :=
  repeat (rewrite load_store_disjoint
            by (rewrite ?length_encode_le, ?truncated_label_length;
                match goal with H : layout_ok _ _ |- _ => destruct H as [? [?|?]] end;
                consts; lia)).

Lemma allocate_word (L : Layout.Layout) (i : nat) (id initialValue : Z)
      (label : string) (m : Memory) :
  slot_word L (allocate L i id initialValue label m) i
  = makeIDStatus id counterStatusAllocated.
Proof.
  unfold allocate. mem_unfold.
  rewrite decode_load_store' by (consts; lia).
  change (256 ^ Z.of_nat 8) with (2 ^ 64). rewrite int64_mod.
  apply int64_id. unfold makeIDStatus. apply int64_is_int64.
Qed.

Lemma allocate_word_other (L : Layout.Layout) (n i j : nat) (id initialValue : Z)
      (label : string) (m : Memory) :
  layout_ok L n -> (i < n)%nat -> (j < n)%nat -> j <> i ->
  slot_word L (allocate L i id initialValue label m) j = slot_word L m j.
Proof.
  intros Hok Hi Hj Hne. unfold allocate. mem_unfold. by alloc_frame.
Qed.

Lemma allocate_label_length (L : Layout.Layout) (n i : nat) (id initialValue : Z)
      (label : string) (m : Memory) :
  layout_ok L n -> (i < n)%nat ->
  slot_label_length L (allocate L i id initialValue label m) i
  = Z.min (len label) metadataLabelMaxLength.
Proof.
  intros Hok Hi. unfold allocate. mem_unfold. alloc_frame.
  rewrite decode_load_store' by (consts; lia).
  change (256 ^ Z.of_nat 4) with (2 ^ 32). rewrite int32_mod.
  rewrite truncated_length.
  assert (Hr : is_int32 (Z.min (len label) metadataLabelMaxLength))
    by (unfold is_int32, len; consts; lia).
  by rewrite !(int32_id _ Hr).
Qed.

Lemma allocate_label_bytes (L : Layout.Layout) (n i : nat) (id initialValue : Z)
      (label : string) (m : Memory) :
  layout_ok L n -> (i < n)%nat ->
  slot_label_bytes L (allocate L i id initialValue label m) i
                   (Z.min (len label) metadataLabelMaxLength)
  = take (Z.to_nat (Z.min (len label) metadataLabelMaxLength)) (list_ascii_of_string label).
Proof.
  intros Hok Hi. unfold allocate. mem_unfold. alloc_frame.
  rewrite load_store_same' by (rewrite ?truncated_label_length; consts; lia).
  by rewrite truncated_length.
Qed.

Lemma allocate_value (L : Layout.Layout) (n i : nat) (id initialValue : Z)
      (label : string) (m : Memory) :
  layout_ok L n -> (i < n)%nat ->
  slot_value L (allocate L i id initialValue label m) i = int64 initialValue.
Proof.
  intros Hok Hi. unfold allocate. mem_unfold. alloc_frame.
  rewrite decode_load_store' by (consts; lia).
  change (256 ^ Z.of_nat 8) with (2 ^ 64). by rewrite int64_mod.
Qed.

Lemma layout_ok_NewEncoder (buf : Buffer) (staticsLength : Z) (n : nat) (m : Memory) :
  layout_ok (ELayout (NewEncoder buf staticsLength
                                 (MetadataLength (Z.of_nat n))
                                 (ValuesLength (Z.of_nat n)) m).1) n.
Proof.
  unfold layout_ok, NewEncoder, NewEncoderWithBuffers, MetadataLength, Slice. simpl.
  split; [done|]. left. lia.
Qed.

(** Either some NotUsed or Freed slot has lowest index or there is none. *)
Lemma lowest_free_slot_or_none (L : Layout.Layout) (m : Memory) (n : nat) :
  (exists i, (i < n)%nat /\ is_free (slot_status L m i) /\
             forall j, (j < i)%nat -> ~ is_free (slot_status L m j))
  \/ (forall j, (j < n)%nat -> ~ is_free (slot_status L m j)).
Proof.
  induction n as [|n [(i & Hi & Hf & Hlow)|Hnone]].
  - right. intros j Hj. lia.
  - left. exists i. repeat split; [lia|done|done].
  - assert (Hdec : {is_free (slot_status L m n)} + {~ is_free (slot_status L m n)}).
    { unfold is_free.
      destruct (decide (slot_status L m n = counterStatusNotUsed)); [by left; left|].
      destruct (decide (slot_status L m n = counterStatusFreed)); [by left; right|].
      right. tauto. }
    destruct Hdec as [Hf|Hf].
    + left. exists n. repeat split; [lia|done|]. intros j Hj. by apply Hnone.
    + right. intros j Hj. destruct (decide (j = n)) as [->|]; [done|]. apply Hnone. lia.
Qed.



Lemma example_layout_ok : layout_ok Example.layout 2.
Proof. split; [reflexivity | left; vm_compute; discriminate]. Qed.


(** The outcome of a call, read through projections of the memory. *)
Example AddCounter_second_slot :
  match AddCounter Example.encoder 8 42 "second" Example.one_counter with
  | Done (r, m') =>
    Some (r, slot_status Example.layout m' 1, slot_id Example.layout m' 1,
          slot_label Example.layout m' 1, slot_value Example.layout m' 1,
          slot_id Example.layout m' 0, slot_label Example.layout m' 0)
  | _ => None
  end
  = Some ((128, None), 2, 8, "second"%string, 42, 7, "first"%string).
Proof. vm_compute. reflexivity. Qed.

(** AddCounter either takes the lowest NotUsed or Freed slot or, when there
    is none, fails with the memory unchanged. *)
Lemma AddCounter_cases (e : Encoder) (n : nat) (id initialValue : Z) (label : string)
      (m : Memory) :
  layout_ok (ELayout e) n ->
  (exists i, (i < n)%nat /\ is_free (slot_status (ELayout e) m i) /\
             (forall j, (j < i)%nat -> ~ is_free (slot_status (ELayout e) m j)) /\
             AddCounter e id initialValue label m
             = Done ((Z.of_nat i * valuesCounterLength, None),
                     allocate (ELayout e) i id initialValue label m))
  \/ ((forall j, (j < n)%nat -> ~ is_free (slot_status (ELayout e) m j)) /\
      AddCounter e id initialValue label m = Done ((0, Some ErrNoFreeSpace), m)).
Proof.
  intros [Hcap Hsep].
  destruct (lowest_free_slot_or_none (ELayout e) m n) as [(i & Hi & Hf & Hlow)|Hnone].
  - left. exists i. repeat split; [done..|].
    unfold AddCounter. rewrite Hcap, scan_fuel_slots.
    apply (AddCounter_loop_takes (ELayout e) n id initialValue label m i Hcap Hi Hf
                                 (n + 2) 0); [lia | lia |].
    intros j Hj. apply Hlow. lia.
  - right. split; [done|].
    unfold AddCounter. rewrite Hcap, scan_fuel_slots.
    apply (AddCounter_loop_full (ELayout e) n id initialValue label m Hcap (n + 2) 0);
      [lia | lia |].
    intros j Hj. apply Hnone. lia.
Qed.

(** FreeCounter stops at the first slot that stores the id: it frees the
    slot when it is Allocated, and reports failure otherwise. *)
Lemma FreeCounter_loop_cases (L : Layout.Layout) (n : nat) (id : Z) (m : Memory) :
  Capacity (CountersMetadata L) = Z.of_nat n * metadataRecordLength ->
  forall (fuel k : nat),
    (k <= n)%nat -> (n - k < fuel)%nat ->
    FreeCounter_loop fuel (CountersMetadata L) id (Z.of_nat k * metadataRecordLength) m
    = Done (false, m)
    \/ exists j, (k <= j < n)%nat /\
                 slot_id L m j = id /\
                 slot_status L m j = counterStatusAllocated /\
                 (forall j', (k <= j' < j)%nat -> slot_id L m j' <> id) /\
                 FreeCounter_loop fuel (CountersMetadata L) id
                                  (Z.of_nat k * metadataRecordLength) m
                 = Done (true, release L j id m).
Proof.
  intros Hcap. induction fuel as [|fuel IH]; intros k Hk Hfuel; [lia|].
  cbn [FreeCounter_loop].
  destruct (Z.ltb_spec (Z.of_nat k * metadataRecordLength) (Capacity (CountersMetadata L)))
    as [Hlt|Hge]; [|by left].
  rewrite Hcap in Hlt. assert (k < n)%nat by (consts; lia).
  rewrite Z.add_0_r.
  change (GetInt64Volatile (CountersMetadata L) (Z.of_nat k * metadataRecordLength) m)
    with (slot_word L m k).
  change (extractID (slot_word L m k)) with (slot_id L m k).
  change (extractStatus (slot_word L m k)) with (slot_status L m k).
  destruct (Z.eqb_spec (slot_id L m k) id) as [Hid|Hid].
  - destruct (Z.eqb_spec (slot_status L m k) counterStatusAllocated) as [Hst|Hst];
      [|by left].
    right. exists k. repeat split; [lia | lia | done | done | intros; lia |].
    unfold CompareAndSwapInt64.
    change (GetInt64 (CountersMetadata L) (Z.of_nat k * metadataRecordLength) m)
      with (slot_word L m k).
    rewrite Z.eqb_refl. unfold release. by rewrite Z.add_0_r.
  - replace (Z.of_nat k * metadataRecordLength + metadataRecordLength)
      with (Z.of_nat (S k) * metadataRecordLength) by lia.
    destruct (IH (S k)) as [Hno|(j & Hj & Hjid & Hjst & Hfirst & Hrun)]; [lia | lia | by left |].
    right. exists j. repeat split; [lia | lia | done | done | | done].
    intros j' Hj'. destruct (decide (j' = k)) as [->|]; [done|]. apply Hfirst. lia.
Qed.

Lemma release_word (L : Layout.Layout) (i : nat) (id : Z) (m : Memory) :
  slot_word L (release L i id m) i = makeIDStatus id counterStatusFreed.
Proof.
  unfold release. mem_unfold.
  rewrite decode_load_store' by (consts; lia).
  change (256 ^ Z.of_nat 8) with (2 ^ 64). rewrite int64_mod.
  apply int64_id. unfold makeIDStatus. apply int64_is_int64.
Qed.

Lemma release_word_other (L : Layout.Layout) (i j : nat) (id : Z) (m : Memory) :
  j <> i -> slot_word L (release L i id m) j = slot_word L m j.
Proof.
  intros Hne. unfold release. mem_unfold.
  by rewrite load_store_disjoint by (rewrite length_encode_le; consts; lia).
Qed.

(** ** Fuel

    A scan that returns with some fuel returns the same with more: the
    fuel only bounds the number of iterations. *)

Lemma AddCounter_loop_fuel (metadata values : Buffer) (id initialValue : Z) (label : string)
      (fuel fuel' : nat) :
  (fuel <= fuel')%nat ->
  forall (metadataOffset valueOffset : Z) (m : Memory) r,
    AddCounter_loop fuel metadata values id initialValue label metadataOffset valueOffset m
    = Done r ->
    AddCounter_loop fuel' metadata values id initialValue label metadataOffset valueOffset m
    = Done r.
Proof.
  revert fuel'. induction fuel as [|fuel IH]; intros fuel' Hle mo vo m r Hrun; [done|].
  destruct fuel' as [|fuel']; [lia|].
  cbn [AddCounter_loop] in *.
  destruct (mo <? Capacity metadata); [|done].
  destruct (_ || _).
  - destruct (CompareAndSwapInt64 _ _ _ _ _) as [[] m1]; [done|].
    apply IH; [lia|done].
  - apply IH; [lia|done].
Qed.

Lemma FreeCounter_loop_fuel (metadata : Buffer) (id : Z) (fuel fuel' : nat) :
  (fuel <= fuel')%nat ->
  forall (metadataOffset : Z) (m : Memory) r,
    FreeCounter_loop fuel metadata id metadataOffset m = Done r ->
    FreeCounter_loop fuel' metadata id metadataOffset m = Done r.
Proof.
  revert fuel'. induction fuel as [|fuel IH]; intros fuel' Hle mo m r Hrun; [done|].
  destruct fuel' as [|fuel']; [lia|].
  cbn [FreeCounter_loop] in *.
  destruct (mo <? Capacity metadata); [|done].
  destruct (_ =? id); [done|]. apply IH; [lia|done].
Qed.

Lemma ForEachCounter_loop_fuel {A : Type} (metadata values : Buffer)
      (consumer : Z -> Z -> string -> A -> bool * A) (m : Memory) (fuel fuel' : nat) :
  (fuel <= fuel')%nat ->
  forall (metadataOffset valueOffset : Z) (acc r : A),
    ForEachCounter_loop fuel metadata values consumer metadataOffset valueOffset m acc
    = Done r ->
    ForEachCounter_loop fuel' metadata values consumer metadataOffset valueOffset m acc
    = Done r.
Proof.
  revert fuel'. induction fuel as [|fuel IH]; intros fuel' Hle mo vo acc r Hrun; [done|].
  destruct fuel' as [|fuel']; [lia|].
  cbn [ForEachCounter_loop] in *.
  destruct (mo <? Capacity metadata); [|done].
  destruct (_ =? counterStatusNotUsed); [done|].
  destruct (_ =? counterStatusAllocated); [|apply IH; [lia|done]].
  destruct (GetString _ _ _ _); [|done].
  destruct (_ =? _); [|apply IH; [lia|done]].
  destruct (consumer _ _ _ _) as [[] acc']; cbn [negb] in *; [|done].
  apply IH; [lia|done].
Qed.

Lemma GetCounterValue_loop_fuel (metadata values : Buffer) (counterID : Z) (m : Memory)
      (fuel fuel' : nat) :
  (fuel <= fuel')%nat ->
  forall (metadataOffset valueOffset : Z) r,
    GetCounterValue_loop fuel metadata values counterID metadataOffset valueOffset m
    = Done r ->
    GetCounterValue_loop fuel' metadata values counterID metadataOffset valueOffset m
    = Done r.
Proof.
  revert fuel'. induction fuel as [|fuel IH]; intros fuel' Hle mo vo r Hrun; [done|].
  destruct fuel' as [|fuel']; [lia|].
  cbn [GetCounterValue_loop] in *.
  destruct (mo <? Capacity metadata); [|done].
  destruct (_ =? counterStatusNotUsed); [done|].
  destruct (counterID =? _); [|apply IH; [lia|done]].
  destruct (_ =? counterStatusAllocated); [|done].
  destruct (_ =? _); [done|]. apply IH; [lia|done].
Qed.

Lemma GetCounterLabel_loop_fuel (metadata : Buffer) (counterID : Z) (m : Memory)
      (fuel fuel' : nat) :
  (fuel <= fuel')%nat ->
  forall (metadataOffset : Z) r,
    GetCounterLabel_loop fuel metadata counterID metadataOffset m = Done r ->
    GetCounterLabel_loop fuel' metadata counterID metadataOffset m = Done r.
Proof.
  revert fuel'. induction fuel as [|fuel IH]; intros fuel' Hle mo r Hrun; [done|].
  destruct fuel' as [|fuel']; [lia|].
  cbn [GetCounterLabel_loop] in *.
  destruct (mo <? Capacity metadata); [|done].
  destruct (_ =? counterStatusNotUsed); [done|].
  destruct (counterID =? _); [|apply IH; [lia|done]].
  destruct (_ =? counterStatusAllocated); [|done].
  destruct (GetBytes _ _ _ _); [|done].
  destruct (_ =? _); [done|]. apply IH; [lia|done].
Qed.

(** Read in the same memory, a word just loaded is still there: sequentially
    the compare-and-swap of AddCounter and FreeCounter succeeds. *)
Lemma CompareAndSwapInt64_same (b : Buffer) (offset new : Z) (m : Memory) :
  CompareAndSwapInt64 b offset (GetInt64Volatile b offset m) new m
  = (true, PutInt64 b offset new m).
Proof.
  unfold CompareAndSwapInt64.
  change (GetInt64Volatile b offset m) with (GetInt64 b offset m).
  by rewrite Z.eqb_refl.
Qed.

(** The id a slot stores after an allocation is the id passed, for the ids
    of 56 bits that the packed word has room for. *)
Lemma allocate_id (L : Layout.Layout) (i : nat) (counterID initialValue : Z)
      (label : string) (m : Memory) :
  slot_id L (allocate L i counterID initialValue label m) i = counterID mod 2 ^ 56.
Proof.
  unfold slot_id. rewrite allocate_word.
  apply extractID_makeIDStatus. consts. lia.
Qed.

(** ** The slot state machine *)

Lemma allocate_status (L : Layout.Layout) (i : nat) (id initialValue : Z) (label : string)
      (m : Memory) :
  slot_status L (allocate L i id initialValue label m) i = counterStatusAllocated.
Proof.
  unfold slot_status. rewrite allocate_word.
  apply extractStatus_makeIDStatus. consts. lia.
Qed.

Lemma allocate_status_other (L : Layout.Layout) (n i j : nat) (id initialValue : Z)
      (label : string) (m : Memory) :
  layout_ok L n -> (i < n)%nat -> (j < n)%nat -> j <> i ->
  slot_status L (allocate L i id initialValue label m) j = slot_status L m j.
Proof.
  intros. unfold slot_status. by rewrite (allocate_word_other L n).
Qed.

Lemma release_status (L : Layout.Layout) (i : nat) (id : Z) (m : Memory) :
  slot_status L (release L i id m) i = counterStatusFreed.
Proof.
  unfold slot_status. rewrite release_word.
  apply extractStatus_makeIDStatus. consts. lia.
Qed.

Lemma release_status_other (L : Layout.Layout) (i j : nat) (id : Z) (m : Memory) :
  j <> i -> slot_status L (release L i id m) j = slot_status L m j.
Proof.
  intros. unfold slot_status. by rewrite release_word_other.
Qed.

(** Every operation returns, keeps the invariant, and moves no slot back
    to NotUsed. *)
Lemma step_preserves (e : Encoder) (n : nat) (o : op) (m : Memory) :
  layout_ok (ELayout e) n ->
  slots_inv (ELayout e) n m ->
  exists m', step e o m = Done m' /\
             slots_inv (ELayout e) n m' /\
             forall i, (i < n)%nat ->
                       slot_status (ELayout e) m i <> counterStatusNotUsed ->
                       slot_status (ELayout e) m' i <> counterStatusNotUsed.
Proof.
  intros Hok [Hfour Hsuffix]. destruct o as [id initialValue label|id]; unfold step.
  - destruct (AddCounter_cases e n id initialValue label m Hok)
      as [(i & Hi & Hf & Hlow & ->)|[Hnone ->]].
    + exists (allocate (ELayout e) i id initialValue label m).
      split; [done|].
      assert (Hst : forall j, (j < n)%nat ->
                slot_status (ELayout e) (allocate (ELayout e) i id initialValue label m) j
                = if decide (j = i) then counterStatusAllocated
                  else slot_status (ELayout e) m j).
      { intros j Hj. destruct (decide (j = i)) as [->|Hne].
        - apply allocate_status.
        - by apply (allocate_status_other _ n). }
      split; [split|].
      * intros j Hj. rewrite Hst by done. destruct (decide (j = i)); [tauto|by apply Hfour].
      * intros a b Hab. rewrite !Hst by lia.
        destruct (decide (a = i)) as [->|Ha]; [consts; lia|].
        intros Ha0. destruct (decide (b = i)) as [->|Hb].
        -- exfalso. apply (Hlow a); [lia|]. by left.
        -- by apply (Hsuffix a b).
      * intros j Hj. rewrite Hst by done. destruct (decide (j = i)); [consts; lia|done].
    + exists m. done.
  - destruct Hok as [Hcap Hsep]. unfold FreeCounter. rewrite Hcap, scan_fuel_slots.
    pose proof (FreeCounter_loop_cases (ELayout e) n id m Hcap (n + 2) 0) as Hfree.
    change (Z.of_nat 0 * metadataRecordLength) with 0 in Hfree.
    destruct Hfree as [->|(j & Hj & Hjid & Hjst & _ & ->)]; [lia | lia | by exists m |].
    exists (release (ELayout e) j id m). split; [done|].
    assert (Hst : forall i,
              slot_status (ELayout e) (release (ELayout e) j id m) i
              = if decide (i = j) then counterStatusFreed else slot_status (ELayout e) m i).
    { intros i. destruct (decide (i = j)) as [->|Hne].
      - apply release_status.
      - by apply release_status_other. }
    split; [split|].
    + intros i Hi. rewrite Hst. destruct (decide (i = j)); [tauto|by apply Hfour].
    + intros a b Hab. rewrite !Hst.
      destruct (decide (a = j)) as [->|Ha]; [consts; lia|].
      intros Ha0. destruct (decide (b = j)) as [->|Hb].
      * exfalso. rewrite (Hsuffix a j) in Hjst by (done || lia). consts. lia.
      * by apply (Hsuffix a b).
    + intros i Hi. rewrite Hst. destruct (decide (i = j)); [consts; lia|done].
Qed.

(** C4.  In every state reached from the all-NotUsed section by AddCounter
    and FreeCounter operations, each slot's status is NotUsed,
    AllocationInProgress, Allocated or Freed, the NotUsed slots form a
    suffix of the section, and no further operation moves a slot that has
    left NotUsed back to it. *)
Theorem reachable_slots_invariant (e : Encoder) (n : nat) (m0 : Memory) (ops : list op) :
  layout_ok (ELayout e) n ->
  (forall i, (i < n)%nat -> slot_status (ELayout e) m0 i = counterStatusNotUsed) ->
  exists m,
    run e ops m0 = Done m /\
    (forall i, (i < n)%nat ->
               slot_status (ELayout e) m i = counterStatusNotUsed \/
               slot_status (ELayout e) m i = counterStatusAllocationInProgress \/
               slot_status (ELayout e) m i = counterStatusAllocated \/
               slot_status (ELayout e) m i = counterStatusFreed) /\
    (forall i j, (i < j < n)%nat ->
                 slot_status (ELayout e) m i = counterStatusNotUsed ->
                 slot_status (ELayout e) m j = counterStatusNotUsed) /\
    (forall o, exists m',
        step e o m = Done m' /\
        forall i, (i < n)%nat ->
                  slot_status (ELayout e) m i <> counterStatusNotUsed ->
                  slot_status (ELayout e) m' i <> counterStatusNotUsed).
Proof.
  intros Hok Hinit.
  assert (Hinv0 : slots_inv (ELayout e) n m0).
  { split; [intros i Hi; left; by apply Hinit|].
    intros i j Hij _. apply Hinit. lia. }
  clear Hinit. revert m0 Hinv0.
  induction ops as [|o ops IH]; intros m0 Hinv0.
  - exists m0. split; [done|]. destruct Hinv0 as [Hfour Hsuffix].
    split; [done|]. split; [done|].
    intros o. destruct (step_preserves e n o m0 Hok) as (m' & Hstep & _ & Hmono);
      [by split|]. by exists m'.
  - destruct (step_preserves e n o m0 Hok Hinv0) as (m1 & Hstep & Hinv1 & _).
    destruct (IH m1 Hinv1) as (m & Hrun & Hrest).
    exists m. split; [|done]. cbn [run]. by rewrite Hstep.
Qed.

Lemma reachable_slots_invariant_witness :
  layout_ok (ELayout Example.encoder) 2 /\
  (forall i, (i < 2)%nat ->
             slot_status (ELayout Example.encoder) zero_memory i = counterStatusNotUsed) /\
  exists m,
    run Example.encoder
        [OpAdd 0 5 "a"; OpAdd 1 6 "b"; OpFree 0; OpAdd 2 7 "c"; OpAdd 3 8 "d"]
        zero_memory = Done m /\
    (forall i, (i < 2)%nat ->
               slot_status (ELayout Example.encoder) m i = counterStatusNotUsed \/
               slot_status (ELayout Example.encoder) m i = counterStatusAllocationInProgress \/
               slot_status (ELayout Example.encoder) m i = counterStatusAllocated \/
               slot_status (ELayout Example.encoder) m i = counterStatusFreed) /\
    (forall i j, (i < j < 2)%nat ->
                 slot_status (ELayout Example.encoder) m i = counterStatusNotUsed ->
                 slot_status (ELayout Example.encoder) m j = counterStatusNotUsed) /\
    (forall o, exists m',
        step Example.encoder o m = Done m' /\
        forall i, (i < 2)%nat ->
                  slot_status (ELayout Example.encoder) m i <> counterStatusNotUsed ->
                  slot_status (ELayout Example.encoder) m' i <> counterStatusNotUsed).
Proof.
  assert (H1 : layout_ok (ELayout Example.encoder) 2)
    by (split; [reflexivity | left; vm_compute; discriminate]).
  assert (H2 : forall i, (i < 2)%nat ->
             slot_status (ELayout Example.encoder) zero_memory i = counterStatusNotUsed).
  { intros i Hi. destruct i as [|[|i]]; [vm_compute; reflexivity .. | lia]. }
  split; [exact H1|]. split; [exact H2|].
  exact (reachable_slots_invariant Example.encoder 2 zero_memory _ H1 H2).
Defined.

(** The statuses and ids of the two slots along a run that frees slot 0
    and takes it again. *)
Example run_reuses_freed_slot :
  match run Example.encoder [OpAdd 0 5 "a"; OpAdd 1 6 "b"; OpFree 0; OpAdd 2 7 "c"]
            zero_memory with
  | Done m => Some (slot_status Example.layout m 0, slot_id Example.layout m 0,
                    slot_status Example.layout m 1, slot_id Example.layout m 1)
  | _ => None
  end = Some (2, 2, 2, 1).
Proof. vm_compute. reflexivity. Qed.

(** ** The decoder on the counters sections *)

Lemma live_prefix_nil (L : Layout.Layout) (m : Memory) : live_prefix L m [] = [].
Proof. reflexivity. Qed.

Lemma live_prefix_cons (L : Layout.Layout) (m : Memory) (k : nat) (ks : list nat) :
  live_prefix L m (k :: ks)
  = if decide (slot_status L m k = counterStatusNotUsed) then []
    else k :: live_prefix L m ks.
Proof.
  unfold live_prefix. cbn [list_find].
  destruct (decide (slot_status L m k = counterStatusNotUsed)); [done|].
  destruct (list_find _ ks) as [[p x]|]; done.
Qed.

Lemma live_prefix_seq (L : Layout.Layout) (m : Memory) (n : nat) :
  live_prefix L m (seq 0 n) = seq 0 (horizon L m n).
Proof.
  unfold live_prefix, horizon.
  destruct (list_find _ (seq 0 n)) as [[p x]|] eqn:Hfind; [|done].
  apply list_find_Some in Hfind as (Hp & _ & _).
  apply lookup_lt_Some in Hp. rewrite length_seq in Hp.
  rewrite take_seq. f_equal. lia.
Qed.

Lemma horizon_le (L : Layout.Layout) (m : Memory) (n : nat) : (horizon L m n <= n)%nat.
Proof.
  unfold horizon. destruct (list_find _ (seq 0 n)) as [[p x]|] eqn:Hfind; [|done].
  apply list_find_Some in Hfind as (Hp & _ & _).
  apply lookup_lt_Some in Hp. rewrite length_seq in Hp. lia.
Qed.

(** ForEachCounter feeds the sink the Allocated slots that precede the
    first NotUsed one. *)
Lemma ForEachCounter_loop_spec {A : Type} (L : Layout.Layout) (n : nat)
      (consumer : Z -> Z -> string -> A -> bool * A) (m : Memory) :
  Capacity (CountersMetadata L) = Z.of_nat n * metadataRecordLength ->
  forall (d fuel k : nat) (acc : A),
    (k + d = n)%nat -> (d < fuel)%nat ->
    (forall i, i ∈ filter (fun i => slot_status L m i = counterStatusAllocated)
                          (live_prefix L m (seq k d)) ->
               0 <= slot_label_length L m i) ->
    ForEachCounter_loop fuel (CountersMetadata L) (CountersValues L) consumer
                        (Z.of_nat k * metadataRecordLength)
                        (Z.of_nat k * valuesCounterLength) m acc
    = Done (feed (uncurry3 consumer)
                 (slot_record L m <$>
                    filter (fun i => slot_status L m i = counterStatusAllocated)
                           (live_prefix L m (seq k d)))
                 acc).
Proof.
  intros Hcap. induction d as [|d IH]; intros fuel k acc Hkd Hfuel Hlen;
    (destruct fuel as [|fuel]; [lia|]); cbn [ForEachCounter_loop].
  - destruct (Z.ltb_spec (Z.of_nat k * metadataRecordLength)
                         (Capacity (CountersMetadata L))) as [Hlt|_]; [|done].
    rewrite Hcap in Hlt. consts. lia.
  - destruct (Z.ltb_spec (Z.of_nat k * metadataRecordLength)
                         (Capacity (CountersMetadata L))) as [_|Hge];
      [|rewrite Hcap in Hge; consts; lia].
    rewrite Z.add_0_r.
    change (GetInt64Volatile (CountersMetadata L) (Z.of_nat k * metadataRecordLength) m)
      with (slot_word L m k).
    change (extractStatus (slot_word L m k)) with (slot_status L m k).
    change (extractID (slot_word L m k)) with (slot_id L m k).
    cbn [seq] in *. rewrite live_prefix_cons in *.
    replace (Z.of_nat k * metadataRecordLength + metadataRecordLength)
      with (Z.of_nat (S k) * metadataRecordLength) by lia.
    replace (Z.of_nat k * valuesCounterLength + valuesCounterLength)
      with (Z.of_nat (S k) * valuesCounterLength) by lia.
    destruct (decide (slot_status L m k = counterStatusNotUsed)) as [Hnu|Hnu].
    { rewrite Hnu. done. }
    apply Z.eqb_neq in Hnu as Hnu'. rewrite Hnu'.
    rewrite filter_cons in *.
    destruct (decide (slot_status L m k = counterStatusAllocated)) as [Hal|Hal].
    + rewrite Hal, Z.eqb_refl.
      change (GetInt32 (CountersMetadata L)
                       (Z.of_nat k * metadataRecordLength + metadataLabelLengthOffset) m)
        with (slot_label_length L m k).
      assert (Hk : 0 <= slot_label_length L m k) by (apply Hlen; left).
      unfold GetString, GetBytes.
      destruct (Z.ltb_spec (slot_label_length L m k) 0) as [|_]; [lia|].
      cbn [fmap option_fmap option_map feed list_fmap].
      change (string_of_list_ascii
                (load_bytes m (addr (CountersMetadata L)
                               + (Z.of_nat k * metadataRecordLength + metadataLabelOffset))
                            (Z.to_nat (slot_label_length L m k))))
        with (slot_label L m k).
      change (GetInt64 (CountersValues L) (Z.of_nat k * valuesCounterLength) m)
        with (slot_value L m k).
      rewrite Z.eqb_refl. unfold slot_record at 1. cbn [uncurry3].
      destruct (consumer (slot_id L m k) (slot_value L m k) (slot_label L m k) acc)
        as [continue acc'].
      destruct continue; cbn [negb]; [|done].
      apply IH; [lia | lia |]. intros i Hi. apply Hlen. by right.
    + apply Z.eqb_neq in Hal as Hal'. rewrite Hal'.
      apply IH; [lia | lia | done].
Qed.



(** The freed slot is skipped; a sink that returns false is not called again. *)
Example ForEachCounter_skips_freed :
  ForEachCounter Example.decoder (fun id value label => collect (id, value, label))
                 Example.second_counter_live []
  = Done [(1, 6, "b"%string)].
Proof. vm_compute. reflexivity. Qed.

Example ForEachCounter_halts :
  ForEachCounter Example.decoder
                 (fun id value label acc => (false, acc ++ [(id, value, label)]))
                 (allocate Example.layout 1 1 6 "b" Example.one_counter) []
  = Done [(7, 5, "first"%string)].
Proof. vm_compute. reflexivity. Qed.

Lemma GetCounterValue_loop_spec (L : Layout.Layout) (n : nat) (counterID : Z) (m : Memory) :
  Capacity (CountersMetadata L) = Z.of_nat n * metadataRecordLength ->
  forall (d fuel k : nat),
    (k + d = n)%nat -> (d < fuel)%nat ->
    GetCounterValue_loop fuel (CountersMetadata L) (CountersValues L) counterID
                         (Z.of_nat k * metadataRecordLength)
                         (Z.of_nat k * valuesCounterLength) m
    = match list_find (fun i => slot_id L m i = counterID) (live_prefix L m (seq k d)) with
      | Some (_, i) =>
        if decide (slot_status L m i = counterStatusAllocated)
        then Done (slot_value L m i, None)
        else Done (0, Some (ErrNotAllocated counterID))
      | None => Done (0, Some (ErrNotFound counterID))
      end.
Proof.
  intros Hcap. induction d as [|d IH]; intros fuel k Hkd Hfuel;
    (destruct fuel as [|fuel]; [lia|]); cbn [GetCounterValue_loop].
  - destruct (Z.ltb_spec (Z.of_nat k * metadataRecordLength)
                         (Capacity (CountersMetadata L))) as [Hlt|_]; [|done].
    rewrite Hcap in Hlt. consts. lia.
  - destruct (Z.ltb_spec (Z.of_nat k * metadataRecordLength)
                         (Capacity (CountersMetadata L))) as [_|Hge];
      [|rewrite Hcap in Hge; consts; lia].
    rewrite Z.add_0_r.
    change (GetInt64Volatile (CountersMetadata L) (Z.of_nat k * metadataRecordLength) m)
      with (slot_word L m k).
    change (extractStatus (slot_word L m k)) with (slot_status L m k).
    change (extractID (slot_word L m k)) with (slot_id L m k).
    change (GetInt64 (CountersValues L) (Z.of_nat k * valuesCounterLength) m)
      with (slot_value L m k).
    cbn [seq]. rewrite live_prefix_cons.
    replace (Z.of_nat k * metadataRecordLength + metadataRecordLength)
      with (Z.of_nat (S k) * metadataRecordLength) by lia.
    replace (Z.of_nat k * valuesCounterLength + valuesCounterLength)
      with (Z.of_nat (S k) * valuesCounterLength) by lia.
    destruct (decide (slot_status L m k = counterStatusNotUsed)) as [Hnu|Hnu].
    { rewrite Hnu. done. }
    apply Z.eqb_neq in Hnu as Hnu'. rewrite Hnu'.
    cbn [list_find].
    destruct (decide (slot_id L m k = counterID)) as [Hid|Hid].
    + rewrite Hid, Z.eqb_refl.
      destruct (decide (slot_status L m k = counterStatusAllocated)) as [Hal|Hal].
      * rewrite Hal. by rewrite !Z.eqb_refl.
      * apply Z.eqb_neq in Hal. by rewrite Hal.
    + assert (Hid' : (counterID =? slot_id L m k) = false) by (apply Z.eqb_neq; congruence).
      rewrite Hid'. rewrite (IH fuel (S k)) by lia.
      destruct (list_find _ (live_prefix L m (seq (S k) d))) as [[p i]|]; done.
Qed.

Lemma GetCounterLabel_loop_spec (L : Layout.Layout) (n : nat) (counterID : Z) (m : Memory) :
  Capacity (CountersMetadata L) = Z.of_nat n * metadataRecordLength ->
  forall (d fuel k : nat),
    (k + d = n)%nat -> (d < fuel)%nat ->
    GetCounterLabel_loop fuel (CountersMetadata L) counterID
                         (Z.of_nat k * metadataRecordLength) m
    = match list_find (fun i => slot_id L m i = counterID) (live_prefix L m (seq k d)) with
      | Some (_, i) =>
        if decide (slot_status L m i = counterStatusAllocated)
        then if decide (0 <= slot_label_length L m i)
             then Done (slot_label L m i, None)
             else Panic
        else Done (EmptyString, Some (ErrNotAllocated counterID))
      | None => Done (EmptyString, Some (ErrNotFound counterID))
      end.
Proof.
  intros Hcap. induction d as [|d IH]; intros fuel k Hkd Hfuel;
    (destruct fuel as [|fuel]; [lia|]); cbn [GetCounterLabel_loop].
  - destruct (Z.ltb_spec (Z.of_nat k * metadataRecordLength)
                         (Capacity (CountersMetadata L))) as [Hlt|_]; [|done].
    rewrite Hcap in Hlt. consts. lia.
  - destruct (Z.ltb_spec (Z.of_nat k * metadataRecordLength)
                         (Capacity (CountersMetadata L))) as [_|Hge];
      [|rewrite Hcap in Hge; consts; lia].
    rewrite Z.add_0_r.
    change (GetInt64Volatile (CountersMetadata L) (Z.of_nat k * metadataRecordLength) m)
      with (slot_word L m k).
    change (extractStatus (slot_word L m k)) with (slot_status L m k).
    change (extractID (slot_word L m k)) with (slot_id L m k).
    change (GetInt32 (CountersMetadata L)
                     (Z.of_nat k * metadataRecordLength + metadataLabelLengthOffset) m)
      with (slot_label_length L m k).
    cbn [seq]. rewrite live_prefix_cons.
    replace (Z.of_nat k * metadataRecordLength + metadataRecordLength)
      with (Z.of_nat (S k) * metadataRecordLength) by lia.
    destruct (decide (slot_status L m k = counterStatusNotUsed)) as [Hnu|Hnu].
    { rewrite Hnu. done. }
    apply Z.eqb_neq in Hnu as Hnu'. rewrite Hnu'.
    cbn [list_find].
    destruct (decide (slot_id L m k = counterID)) as [Hid|Hid].
    + rewrite Hid, Z.eqb_refl.
      destruct (decide (slot_status L m k = counterStatusAllocated)) as [Hal|Hal].
      * rewrite Hal, Z.eqb_refl. unfold GetBytes.
        destruct (decide (0 <= slot_label_length L m k)) as [Hl|Hl].
        -- destruct (Z.ltb_spec (slot_label_length L m k) 0) as [|_]; [lia|].
           by rewrite Z.eqb_refl.
        -- destruct (Z.ltb_spec (slot_label_length L m k) 0) as [_|]; [done|lia].
      * apply Z.eqb_neq in Hal. by rewrite Hal.
    + assert (Hid' : (counterID =? slot_id L m k) = false) by (apply Z.eqb_neq; congruence).
      rewrite Hid'. rewrite (IH fuel (S k)) by lia.
      destruct (list_find _ (live_prefix L m (seq (S k) d))) as [[p i]|]; done.
Qed.



(** The three outcomes of a lookup on a section that holds a freed counter
    of id 0 and a live counter of id 1. *)
Example lookup_outcomes :
  (GetCounterValue Example.decoder 1 Example.second_counter_live,
   GetCounterLabel Example.decoder 1 Example.second_counter_live,
   GetCounterValue Example.decoder 0 Example.second_counter_live,
   GetCounterLabel Example.decoder 0 Example.second_counter_live,
   GetCounterValue Example.decoder 2 Example.second_counter_live,
   GetCounterLabel Example.decoder 2 Example.second_counter_live)
  = (Done (6, None), Done ("b"%string, None),
     Done (0, Some (ErrNotAllocated 0)), Done (EmptyString, Some (ErrNotAllocated 0)),
     Done (0, Some (ErrNotFound 2)), Done (EmptyString, Some (ErrNotFound 2))).
Proof. vm_compute. reflexivity. Qed.


(** ** The statics section *)

Lemma PutBytes_store (b : Buffer) (offset : Z) (bs : list byte) (m : Memory) :
  PutBytes b offset bs m = Some (store_bytes m (addr b + offset) bs).
Proof.
  unfold PutBytes, PutSomeBytes.
  rewrite (proj2 (Z.leb_le 0 0)) by lia.
  rewrite (proj2 (Z.leb_le 0 (Z.of_nat (length bs)))) by lia.
  rewrite (proj2 (Z.leb_le (0 + Z.of_nat (length bs)) (Z.of_nat (length bs)))) by lia.
  cbn [andb]. rewrite Nat2Z.id. change (Z.to_nat 0) with 0%nat.
  by rewrite drop_0, firstn_all.
Qed.

(** No store of a store sequence panics. *)
Lemma exec_stores_total (b : Buffer) (ss : list store) (m : Memory) :
  exists m', exec_stores b ss m = Some m'.
Proof.
  revert m. induction ss as [|s ss IH]; intros m; [by exists m|].
  cbn [exec_stores]. destruct s as [o v|o v|o bs]; cbn [exec_store];
    rewrite ?PutBytes_store; apply IH.
Qed.

Lemma exec_stores_app (b : Buffer) (ss1 ss2 : list store) (m : Memory) :
  exec_stores b (ss1 ++ ss2) m
  = match exec_stores b ss1 m with
    | Some m1 => exec_stores b ss2 m1
    | None => None
    end.
Proof.
  revert m. induction ss1 as [|s ss1 IH]; intros m; [done|].
  cbn [app exec_stores]. destruct (exec_store b s m); [apply IH|done].
Qed.

(** The records SetStatics writes start at [offset] and end within the
    capacity: 8 bytes of lengths and the bytes of label and value each. *)
Lemma SetStatics_records_fit (statx : Buffer) (statics : gmap string string)
      (labels : list string) (offset : Z) (ss : list store) :
  SetStatics_records statx statics labels offset = (ss, None) ->
  offset + 8 * Z.of_nat (length labels) <= Z.max offset (Capacity statx).
Proof.
  revert offset ss. induction labels as [|label labels IH]; intros offset ss Hrec.
  - cbn [length]. lia.
  - cbn [SetStatics_records] in Hrec.
    rewrite Z.gtb_ltb in Hrec.
    destruct (Z.ltb_spec (Capacity statx)
                (offset + staticsRecordLength (len label) (len (mapIndex statics label))))
      as [|Hfit]; [done|].
    destruct (SetStatics_records statx statics labels _) as [ss' err] eqn:Hrest.
    injection Hrec as <- ->.
    apply IH in Hrest.
    pose proof (staticsRecordLength_bounds (len label) (len (mapIndex statics label))).
    pose proof (len_nonneg label). pose proof (len_nonneg (mapIndex statics label)).
    cbn [length]. lia.
Qed.

(** The stores of the records touch no byte below their first offset. *)
Lemma SetStatics_records_frame (statx : Buffer) (statics : gmap string string)
      (labels : list string) (offset : Z) (ss : list store) (err : option error)
      (m m' : Memory) (a : Z) (n : nat) :
  SetStatics_records statx statics labels offset = (ss, err) ->
  exec_stores statx ss m = Some m' ->
  a + Z.of_nat n <= addr statx + offset ->
  load_bytes m' a n = load_bytes m a n.
Proof.
  revert offset ss m. induction labels as [|label labels IH]; intros offset ss m Hrec Hexec Ha.
  - cbn [SetStatics_records] in Hrec. injection Hrec as <- <-.
    cbn [exec_stores] in Hexec. by injection Hexec as <-.
  - cbn [SetStatics_records] in Hrec.
    destruct (_ >? _) in Hrec.
    { injection Hrec as <- <-. cbn [exec_stores] in Hexec. by injection Hexec as <-. }
    destruct (SetStatics_records statx statics labels _) as [ss' err'] eqn:Hrest.
    injection Hrec as <- <-.
    cbn [exec_stores exec_store] in Hexec. rewrite !PutBytes_store in Hexec.
    pose proof (staticsRecordLength_bounds (len label) (len (mapIndex statics label))).
    pose proof (len_nonneg label). pose proof (len_nonneg (mapIndex statics label)).
    rewrite (IH _ _ _ Hrest Hexec) by lia.
    mem_unfold. change staticsLabelOffset with 8. change staticsLabelLengthOffset with 0.
    change staticsValueLengthOffset with 4.
    by rewrite !load_store_disjoint
      by (rewrite ?length_encode_le, ?length_list_ascii_of_string; unfold len in *; lia).
Qed.

Ltac statics_consts :=
  change staticsLabelOffset with 8 in *;
  change staticsLabelLengthOffset with 0 in *;
  change staticsValueLengthOffset with 4 in *;
  change staticsRecordsOffset with 4 in *;
  change staticsNumberOfStaticsOffset with 0 in *.

(** The fields of a record, read from a memory that agrees with the one
    left by the record's stores on the bytes of the record. *)
Lemma record_fields (statx : Buffer) (offset : Z) (label value : string) (m m' : Memory) :
  len label < 2 ^ 31 -> len value < 2 ^ 31 ->
  (forall a n, addr statx + offset <= a ->
               a + Z.of_nat n <= addr statx + offset + (8 + len label + len value) ->
               load_bytes m' a n
               = load_bytes (record_written statx offset label value m) a n) ->
  GetInt32 statx (offset + staticsLabelLengthOffset) m' = len label /\
  GetInt32 statx (offset + staticsValueLengthOffset) m' = len value /\
  GetBytes statx (offset + staticsLabelOffset) (len label) m'
  = Some (list_ascii_of_string label) /\
  GetBytes statx (offset + staticsLabelOffset + len label) (len value) m'
  = Some (list_ascii_of_string value).
Proof.
  intros Hl Hv Hsame.
  pose proof (len_nonneg label) as Hl0. pose proof (len_nonneg value) as Hv0.
  assert (Hil : int32 (len label) = len label) by (apply int32_id; unfold is_int32; lia).
  assert (Hiv : int32 (len value) = len value) by (apply int32_id; unfold is_int32; lia).
  unfold GetBytes.
  destruct (Z.ltb_spec (len label) 0) as [|_]; [lia|].
  destruct (Z.ltb_spec (len value) 0) as [|_]; [lia|].
  unfold GetInt32. rewrite !Hsame by (statics_consts; lia).
  unfold record_written. mem_unfold. statics_consts.
  repeat split.
  - rewrite load_store_disjoint by (rewrite length_encode_le; lia).
    rewrite decode_load_store' by lia.
    change (256 ^ Z.of_nat 4) with (2 ^ 32). by rewrite int32_mod, !Hil.
  - rewrite decode_load_store' by lia.
    change (256 ^ Z.of_nat 4) with (2 ^ 32). by rewrite int32_mod, !Hiv.
  - f_equal.
    rewrite !load_store_disjoint
      by (rewrite ?length_encode_le, ?length_list_ascii_of_string; unfold len in *; lia).
    apply load_store_same'; [lia|].
    rewrite length_list_ascii_of_string. unfold len. lia.
  - f_equal.
    rewrite !load_store_disjoint
      by (rewrite ?length_encode_le, ?length_list_ascii_of_string; unfold len in *; lia).
    apply load_store_same'; [lia|].
    rewrite length_list_ascii_of_string. unfold len. lia.
Qed.

(** What the stores of SetStatics_records leave for the record at
    [offset]: the memory after all of them agrees, on the record's bytes,
    with the memory right after the record's own stores. *)
Lemma SetStatics_records_cons (statx : Buffer) (statics : gmap string string)
      (label : string) (labels : list string) (offset : Z) (ss : list store)
      (m m' : Memory) :
  SetStatics_records statx statics (label :: labels) offset = (ss, None) ->
  exec_stores statx ss m = Some m' ->
  let value := mapIndex statics label in
  let recordLength := staticsRecordLength (len label) (len value) in
  offset + recordLength <= Capacity statx /\
  exists ss',
    SetStatics_records statx statics labels (offset + recordLength) = (ss', None) /\
    exec_stores statx ss' (record_written statx offset label value m) = Some m' /\
    forall a n, a + Z.of_nat n <= addr statx + offset + recordLength ->
                load_bytes m' a n
                = load_bytes (record_written statx offset label value m) a n.
Proof.
  intros Hrec Hexec value recordLength.
  cbn [SetStatics_records] in Hrec. fold value recordLength in Hrec.
  rewrite Z.gtb_ltb in Hrec.
  destruct (Z.ltb_spec (Capacity statx) (offset + recordLength)) as [|Hfit]; [done|].
  destruct (SetStatics_records statx statics labels _) as [ss' err] eqn:Hrest.
  injection Hrec as <- ->.
  cbn [exec_stores exec_store] in Hexec. rewrite !PutBytes_store in Hexec.
  split; [done|]. exists ss'. split; [done|]. split; [done|].
  intros a n Ha.
  apply (SetStatics_records_frame statx statics labels _ ss' None _ _ a n Hrest Hexec).
  lia.
Qed.

(** Reading back the records: ForEachStatic_loop meets the records that
    SetStatics_records wrote, in the order of the labels. *)
Lemma ForEachStatic_loop_reads {A : Type} (statx : Buffer) (statics : gmap string string)
      (consumer : string -> string -> A -> bool * A) :
  Capacity statx < 2 ^ 31 ->
  forall (labels : list string) (offset : Z) (ss : list store) (m m' : Memory) (acc : A),
    0 <= offset ->
    SetStatics_records statx statics labels offset = (ss, None) ->
    exec_stores statx ss m = Some m' ->
    ForEachStatic_loop statx consumer (length labels) offset m' acc
    = Done (feed (uncurry consumer)
                 ((fun label => (label, mapIndex statics label)) <$> labels) acc).
Proof.
  intros Hcap. induction labels as [|label labels IH];
    intros offset ss m m' acc Hoff Hrec Hexec; [done|].
  destruct (SetStatics_records_cons _ _ _ _ _ _ _ _ Hrec Hexec)
    as (Hfit & ss' & Hrest & Hexec' & Hsame).
  pose proof (staticsRecordLength_bounds (len label) (len (mapIndex statics label))) as Hb.
  pose proof (len_nonneg label). pose proof (len_nonneg (mapIndex statics label)).
  destruct (record_fields statx offset label (mapIndex statics label) m m')
    as (Hll & Hvl & Hlb & Hvb); [lia | lia | intros; apply Hsame; lia |].
  cbn [length ForEachStatic_loop]. unfold GetString. rewrite Hll, Hvl, Hlb, Hvb.
  cbn [fmap option_fmap option_map list_fmap feed uncurry].
  rewrite !string_of_list_ascii_of_string.
  destruct (consumer label (mapIndex statics label) acc) as [continue acc'].
  destruct continue; cbn [negb]; [|done].
  apply (IH _ ss' (record_written statx offset label (mapIndex statics label) m));
    [lia | done | done].
Qed.

Lemma list_ascii_of_string_inj (s1 s2 : string) :
  list_ascii_of_string s1 = list_ascii_of_string s2 -> s1 = s2.
Proof.
  intros H. rewrite <- (string_of_list_ascii_of_string s1),
              <- (string_of_list_ascii_of_string s2). by rewrite H.
Qed.

(** GetStaticValue_loop returns the value of the first record whose label
    is the one asked for. *)
Lemma GetStaticValue_loop_reads (statx : Buffer) (statics : gmap string string)
      (query : string) :
  Capacity statx < 2 ^ 31 ->
  forall (labels : list string) (offset : Z) (ss : list store) (m m' : Memory),
    0 <= offset ->
    SetStatics_records statx statics labels offset = (ss, None) ->
    exec_stores statx ss m = Some m' ->
    GetStaticValue_loop statx query (list_ascii_of_string query) (length labels) offset m'
    = if decide (query ∈ labels) then Done (mapIndex statics query, None)
      else Done (EmptyString, Some (ErrLabelNotFound query)).
Proof.
  intros Hcap. induction labels as [|label labels IH];
    intros offset ss m m' Hoff Hrec Hexec.
  - cbn [length GetStaticValue_loop]. rewrite decide_False; [done|]. apply not_elem_of_nil.
  - destruct (SetStatics_records_cons _ _ _ _ _ _ _ _ Hrec Hexec)
      as (Hfit & ss' & Hrest & Hexec' & Hsame).
    pose proof (staticsRecordLength_bounds (len label) (len (mapIndex statics label))) as Hb.
    pose proof (len_nonneg label). pose proof (len_nonneg (mapIndex statics label)).
    destruct (record_fields statx offset label (mapIndex statics label) m m')
      as (Hll & Hvl & Hlb & Hvb); [lia | lia | intros; apply Hsame; lia |].
    cbn [length GetStaticValue_loop]. rewrite Hll, Hvl, Hlb.
    destruct (decide (query = label)) as [->|Hne].
    + rewrite bool_decide_eq_true_2 by done. rewrite Hvb.
      rewrite string_of_list_ascii_of_string.
      rewrite decide_True; [done|]. left.
    + rewrite bool_decide_eq_false_2
        by (intros Heq; by apply list_ascii_of_string_inj in Heq).
      rewrite (IH _ ss' (record_written statx offset label (mapIndex statics label) m))
        by (lia || done).
      destruct (decide (query ∈ labels)) as [Hin|Hin].
      * rewrite decide_True; [done|]. by right.
      * rewrite decide_False; [done|]. intros [?|?]%elem_of_cons; done.
Qed.

(** The sorted labels of a statics map: its keys, each once, in ascending
    byte order. *)
Lemma sortedLabels_Permutation (statics : gmap string string) :
  sortedLabels statics ≡ₚ (map_to_list statics).*1.
Proof. apply merge_sort_Permutation. Qed.

Lemma sortedLabels_sorted (statics : gmap string string) :
  StronglySorted String.le (sortedLabels statics).
Proof. apply (StronglySorted_merge_sort String.le). Qed.

Lemma elem_of_sortedLabels (statics : gmap string string) (label : string) :
  label ∈ sortedLabels statics <-> is_Some (statics !! label).
Proof.
  rewrite sortedLabels_Permutation, list_elem_of_fmap. split.
  - intros ([l v] & -> & Hin). apply elem_of_map_to_list in Hin. by exists v.
  - intros [v Hv]. exists (label, v). split; [done|]. by apply elem_of_map_to_list.
Qed.

Lemma sortedLabels_NoDup (statics : gmap string string) : NoDup (sortedLabels statics).
Proof. rewrite sortedLabels_Permutation. apply NoDup_fst_map_to_list. Qed.

Lemma sortedLabels_length (statics : gmap string string) :
  length (sortedLabels statics) = size statics.
Proof.
  rewrite sortedLabels_Permutation, length_fmap. apply length_map_to_list.
Qed.

Lemma sortedEntries_Permutation (statics : gmap string string) :
  sortedEntries statics ≡ₚ map_to_list statics.
Proof.
  unfold sortedEntries. rewrite sortedLabels_Permutation, <- list_fmap_compose.
  rewrite <- (list_fmap_id (map_to_list statics)) at 2.
  apply reflexive_eq, Forall_fmap_ext_1, Forall_forall.
  intros [k v] Hin. apply elem_of_map_to_list in Hin.
  unfold mapIndex. cbn. by rewrite Hin.
Qed.

Lemma sortedEntries_labels (statics : gmap string string) :
  (sortedEntries statics).*1 = sortedLabels statics.
Proof.
  unfold sortedEntries. rewrite <- list_fmap_compose. apply list_fmap_id.
Qed.

(** The shape of a successful SetStatics: the count is stored first, the
    stores of the records follow. *)
Lemma SetStatics_Done (e : Encoder) (statics : gmap string string) (m m' : Memory) :
  SetStatics e statics m = Done (None, m') ->
  (size statics = 0%nat /\
   m' = PutInt32Volatile (Statics (ELayout e)) 0 0 m)
  \/ (size statics <> 0%nat /\
      staticsRecordsOffset <= Capacity (Statics (ELayout e)) /\
      exists ss,
        SetStatics_records (Statics (ELayout e)) statics (sortedLabels statics)
                           staticsRecordsOffset = (ss, None) /\
        exec_stores (Statics (ELayout e)) ss
                    (PutInt32Volatile (Statics (ELayout e)) 0
                                      (int32 (Z.of_nat (length (sortedLabels statics)))) m)
        = Some m').
Proof.
  unfold SetStatics, SetStatics_stores.
  destruct (Nat.eqb_spec (size statics) 0) as [Hsz|Hsz].
  - cbn [exec_stores exec_store]. intros [= <-]. by left.
  - rewrite Z.gtb_ltb.
    destruct (Z.ltb_spec (Capacity (Statics (ELayout e))) (0 + staticsRecordsOffset))
      as [|Hfit]; [done|].
    destruct (SetStatics_records _ statics (sortedLabels statics) staticsRecordsOffset)
      as [ss err] eqn:Hrec.
    cbn [exec_stores exec_store].
    destruct (exec_stores _ ss _) as [m1|] eqn:Hexec; [|done].
    intros [= -> <-]. right. split; [done|]. split; [lia|]. by exists ss.
Qed.

(** The count that a successful SetStatics leaves in the section. *)
Lemma SetStatics_count (e : Encoder) (statics : gmap string string) (ss : list store)
      (m m' : Memory) :
  Capacity (Statics (ELayout e)) < 2 ^ 31 ->
  staticsRecordsOffset <= Capacity (Statics (ELayout e)) ->
  SetStatics_records (Statics (ELayout e)) statics (sortedLabels statics)
                     staticsRecordsOffset = (ss, None) ->
  exec_stores (Statics (ELayout e)) ss
              (PutInt32Volatile (Statics (ELayout e)) 0
                                (int32 (Z.of_nat (length (sortedLabels statics)))) m)
  = Some m' ->
  GetInt32Volatile (Statics (ELayout e)) 0 m' = Z.of_nat (length (sortedLabels statics)).
Proof.
  intros Hcap Hfit Hrec Hexec.
  pose proof (SetStatics_records_fit _ _ _ _ _ Hrec) as Hn. statics_consts.
  unfold GetInt32Volatile.
  rewrite (SetStatics_records_frame _ _ _ _ _ _ _ _ _ _ Hrec Hexec) by lia.
  mem_unfold. rewrite decode_load_store.
  change (256 ^ Z.of_nat 4) with (2 ^ 32). rewrite int32_mod.
  assert (Hr : is_int32 (Z.of_nat (length (sortedLabels statics))))
    by (unfold is_int32; lia).
  by rewrite !(int32_id _ Hr).
Qed.

(** After a successful SetStatics, ForEachStatic feeds the sink the entries
    of the map in ascending order of label. *)
Lemma ForEachStatic_after_SetStatics {A : Type} (e : Encoder) (d : Decoder)
      (statics : gmap string string) (m m' : Memory)
      (consumer : string -> string -> A -> bool * A) (acc : A) :
  Statics (DLayout d) = Statics (ELayout e) ->
  Capacity (Statics (ELayout e)) < 2 ^ 31 ->
  SetStatics e statics m = Done (None, m') ->
  ForEachStatic d consumer m' acc
  = Done (feed (uncurry consumer) (sortedEntries statics) acc).
Proof.
  intros Hd Hcap Hset. unfold ForEachStatic. rewrite Hd.
  destruct (SetStatics_Done e statics m m' Hset)
    as [[Hsz ->]|(Hsz & Hfit & ss & Hrec & Hexec)].
  - mem_unfold. statics_consts. rewrite decode_load_store by lia.
    cbn. unfold sortedEntries.
    pose proof (sortedLabels_length statics) as Hlen. rewrite Hsz in Hlen.
    by apply nil_length_inv in Hlen as ->.
  - change staticsNumberOfStaticsOffset with 0.
    rewrite (SetStatics_count e statics ss m m' Hcap Hfit Hrec Hexec), Nat2Z.id.
    eapply (ForEachStatic_loop_reads _ statics consumer Hcap);
      [by statics_consts | exact Hrec | exact Hexec].
Qed.

(** The collecting sink receives every record it is fed. *)
Lemma feed_collect {R1 R2 : Type} (rs acc : list (R1 * R2)) :
  feed (uncurry (fun r1 r2 => collect (r1, r2))) rs acc = acc ++ rs.
Proof.
  revert acc. induction rs as [|[r1 r2] rs IH]; intros acc; cbn [feed collect uncurry].
  - by rewrite app_nil_r.
  - rewrite IH. by rewrite <- app_assoc.
Qed.

Lemma GetStaticValue_after_SetStatics (e : Encoder) (d : Decoder)
      (statics : gmap string string) (m m' : Memory) (label value : string) :
  Statics (DLayout d) = Statics (ELayout e) ->
  Capacity (Statics (ELayout e)) < 2 ^ 31 ->
  SetStatics e statics m = Done (None, m') ->
  statics !! label = Some value ->
  GetStaticValue d label m' = Done (value, None).
Proof.
  intros Hd Hcap Hset Hlookup. unfold GetStaticValue. rewrite Hd.
  assert (Hin : label ∈ sortedLabels statics) by (apply elem_of_sortedLabels; eauto).
  destruct (SetStatics_Done e statics m m' Hset)
    as [[Hsz ->]|(Hsz & Hfit & ss & Hrec & Hexec)].
  - pose proof (sortedLabels_length statics) as Hlen. rewrite Hsz in Hlen.
    apply nil_length_inv in Hlen. rewrite Hlen in Hin. by apply elem_of_nil in Hin.
  - change staticsNumberOfStaticsOffset with 0.
    rewrite (SetStatics_count e statics ss m m' Hcap Hfit Hrec Hexec), Nat2Z.id.
    rewrite (GetStaticValue_loop_reads _ statics label Hcap _ staticsRecordsOffset ss _ m'
                                       ltac:(by statics_consts) Hrec Hexec).
    rewrite decide_True by done. unfold mapIndex. by rewrite Hlookup.
Qed.

(** C5.  After SetStatics(M) has succeeded on a section whose capacity an
    int32 can hold, ForEachStatic calls the sink with the entries of M, each
    once, in ascending byte order of label, until the sink returns false,
    and GetStaticValue(l) returns M[l] for every label l of M. *)
Theorem statics_round_trip (e : Encoder) (d : Decoder) (statics : gmap string string)
        (m m' : Memory) :
  Statics (DLayout d) = Statics (ELayout e) ->
  Capacity (Statics (ELayout e)) < 2 ^ 31 ->
  SetStatics e statics m = Done (None, m') ->
  (forall (A : Type) (consumer : string -> string -> A -> bool * A) (acc : A),
      ForEachStatic d consumer m' acc
      = Done (feed (uncurry consumer) (sortedEntries statics) acc)) /\
  ForEachStatic d (fun label value => collect (label, value)) m' []
  = Done (sortedEntries statics) /\
  sortedEntries statics ≡ₚ map_to_list statics /\
  StronglySorted String.le (sortedEntries statics).*1 /\
  NoDup (sortedEntries statics).*1 /\
  (forall label value,
      statics !! label = Some value ->
      GetStaticValue d label m' = Done (value, None)).
Proof.
  intros Hd Hcap Hset.
  split; [intros; by apply (ForEachStatic_after_SetStatics e d statics m m')|].
  split.
  { rewrite (ForEachStatic_after_SetStatics e d statics m m') by done.
    by rewrite feed_collect. }
  split; [apply sortedEntries_Permutation|].
  split; [rewrite sortedEntries_labels; apply sortedLabels_sorted|].
  split; [rewrite sortedEntries_labels; apply sortedLabels_NoDup|].
  intros label value Hlookup.
  by apply (GetStaticValue_after_SetStatics e d statics m m').
Qed.

(** The length StaticsLength sums up bounds the end of every record. *)
Lemma records_length_le (statics : gmap string string) (labels : list string) (l : Z) :
  l <= fold_left (fun l label =>
                    l + staticsRecordLength (len label) (len (mapIndex statics label)))
                 labels l.
Proof.
  revert l. induction labels as [|label labels IH]; intros l; cbn [fold_left]; [lia|].
  pose proof (staticsRecordLength_bounds (len label) (len (mapIndex statics label))).
  pose proof (len_nonneg label). pose proof (len_nonneg (mapIndex statics label)).
  etrans; [|apply IH]. lia.
Qed.

Lemma SetStatics_records_ok (statx : Buffer) (statics : gmap string string)
      (labels : list string) (offset : Z) :
  fold_left (fun l label =>
               l + staticsRecordLength (len label) (len (mapIndex statics label)))
            labels offset <= Capacity statx ->
  exists ss, SetStatics_records statx statics labels offset = (ss, None).
Proof.
  revert offset. induction labels as [|label labels IH]; intros offset Hfit.
  - by exists [].
  - cbn [fold_left] in Hfit. cbn [SetStatics_records].
    pose proof (records_length_le statics labels
                  (offset + staticsRecordLength (len label) (len (mapIndex statics label)))).
    rewrite Z.gtb_ltb.
    destruct (Z.ltb_spec (Capacity statx)
                (offset + staticsRecordLength (len label) (len (mapIndex statics label))))
      as [|_]; [lia|].
    destruct (IH _ Hfit) as [ss ->]. eauto.
Qed.

(** Sized by StaticsLength, the statics section takes every record. *)
Lemma SetStatics_stores_sized (e : Encoder) (statics : gmap string string) :
  Capacity (Statics (ELayout e)) = StaticsLength statics ->
  exists ss, SetStatics_stores e statics = (ss, None).
Proof.
  unfold StaticsLength, SetStatics_stores. intros Hcap.
  destruct (Nat.eqb_spec (size statics) 0) as [Hsz|Hsz]; [eauto|].
  change (sizeOfCacheLine * 2) with (2 ^ 7) in Hcap.
  set (total := fold_left _ _ _) in Hcap.
  pose proof (Align_bounds total 7 ltac:(lia)) as Hal.
  pose proof (records_length_le statics (sortedLabels statics) staticsRecordsOffset) as Hle.
  fold total in Hle. statics_consts.
  rewrite Z.gtb_ltb.
  destruct (Z.ltb_spec (Capacity (Statics (ELayout e))) (0 + 4)) as [|_]; [lia|].
  destruct (SetStatics_records_ok (Statics (ELayout e)) statics (sortedLabels statics) 4)
    as [ss ->]; [fold total; lia|]. eauto.
Qed.

Lemma SetStatics_sized (e : Encoder) (statics : gmap string string) (m : Memory) :
  Capacity (Statics (ELayout e)) = StaticsLength statics ->
  exists m', SetStatics e statics m = Done (None, m').
Proof.
  intros Hcap. unfold SetStatics.
  destruct (SetStatics_stores_sized e statics Hcap) as [ss ->].
  destruct (exec_stores_total (Statics (ELayout e)) ss m) as [m' ->]. eauto.
Qed.

(** NewEncoder gives the statics section the length it is passed, and the
    writer passes StaticsLength of the map. *)
Lemma NewEncoder_statics_capacity (buf : Buffer) (staticsLength metadataLength valuesLength : Z)
      (m : Memory) :
  Capacity (Statics (ELayout (NewEncoder buf staticsLength metadataLength valuesLength m).1))
  = staticsLength.
Proof. reflexivity. Qed.

Lemma NewWriterForFile_statics_capacity (env : Env) (filename : string)
      (statics : gmap string string) (maxNumbersOfCounters : Z) (world world' : World)
      (w : Writer) (err : option error) :
  NewWriterForFile env filename statics maxNumbersOfCounters world
  = Done ((Some w, err), world') ->
  Capacity (Statics (ELayout (encoder w))) = StaticsLength statics.
Proof.
  unfold NewWriterForFile.
  destruct (_ || _); [done|].
  destruct (MapNewFile _ _ _ _) as [[[buf|] err'] world1]; [|done].
  destruct (NewEncoder _ _ _ _ _) as [enc m1] eqn:Henc.
  destruct (SetStatics _ _ _) as [[err'' m2]| |]; [|done..].
  intros [= <- _ _].
  cbn [encoder]. replace enc with (NewEncoder buf (StaticsLength statics)
    (MetadataLength maxNumbersOfCounters) (ValuesLength maxNumbersOfCounters)
    (memory world1)).1 by (by rewrite Henc).
  apply NewEncoder_statics_capacity.
Qed.

(** C10.  When the statics section has capacity StaticsLength(M), as
    NewEncoder slices it for the writer, SetStatics(M) performs its stores
    and returns no error: neither of its two capacity errors is reached. *)
Theorem SetStatics_fits_StaticsLength (e : Encoder) (statics : gmap string string)
        (m : Memory) :
  Capacity (Statics (ELayout e)) = StaticsLength statics ->
  (SetStatics_stores e statics).2 = None /\
  exists m', SetStatics e statics m = Done (None, m').
Proof.
  intros Hcap. split; [|by apply SetStatics_sized].
  by destruct (SetStatics_stores_sized e statics Hcap) as [ss ->].
Qed.

Lemma SetStatics_fits_StaticsLength_witness :
  Capacity (Statics (ELayout Example.encoder)) = StaticsLength Example.statics /\
  (SetStatics_stores Example.encoder Example.statics).2 = None /\
  exists m', SetStatics Example.encoder Example.statics zero_memory = Done (None, m').
Proof.
  assert (H1 : Capacity (Statics (ELayout Example.encoder)) = StaticsLength Example.statics)
    by (vm_compute; reflexivity).
  split; [exact H1|].
  exact (SetStatics_fits_StaticsLength Example.encoder Example.statics zero_memory H1).
Defined.

Lemma statics_round_trip_witness :
  Statics (DLayout Example.decoder) = Statics (ELayout Example.encoder) /\
  Capacity (Statics (ELayout Example.encoder)) < 2 ^ 31 /\
  exists m',
    SetStatics Example.encoder Example.statics zero_memory = Done (None, m') /\
    (forall (A : Type) (consumer : string -> string -> A -> bool * A) (acc : A),
        ForEachStatic Example.decoder consumer m' acc
        = Done (feed (uncurry consumer) (sortedEntries Example.statics) acc)) /\
    ForEachStatic Example.decoder (fun label value => collect (label, value)) m' []
    = Done (sortedEntries Example.statics) /\
    sortedEntries Example.statics ≡ₚ map_to_list Example.statics /\
    StronglySorted String.le (sortedEntries Example.statics).*1 /\
    NoDup (sortedEntries Example.statics).*1 /\
    (forall label value,
        Example.statics !! label = Some value ->
        GetStaticValue Example.decoder label m' = Done (value, None)).
Proof.
  assert (H1 : Statics (DLayout Example.decoder) = Statics (ELayout Example.encoder))
    by reflexivity.
  assert (H2 : Capacity (Statics (ELayout Example.encoder)) < 2 ^ 31)
    by (vm_compute; reflexivity).
  split; [exact H1|]. split; [exact H2|].
  destruct (SetStatics_sized Example.encoder Example.statics zero_memory
                             ltac:(vm_compute; reflexivity)) as [m' H3].
  exists m'. split; [exact H3|].
  exact (statics_round_trip Example.encoder Example.decoder Example.statics
                            zero_memory m' H1 H2 H3).
Defined.

(** Written and read back: the entries come out in ascending order of
    label, and a label that is not in the map is not found. *)
Example statics_read_back :
  match SetStatics Example.encoder Example.statics zero_memory with
  | Done (err, m') =>
    Some (err,
          ForEachStatic Example.decoder (fun label value => collect (label, value)) m' [],
          GetStaticValue Example.decoder "b" m',
          GetStaticValue Example.decoder "c" m')
  | _ => None
  end
  = Some (None, Done [("a", "1"); ("b", "2")]%string,
          Done ("2"%string, None),
          Done (EmptyString, Some (ErrLabelNotFound "c"))).
Proof. vm_compute. reflexivity. Qed.

(** *** The order of the stores of SetStatics *)

(** PutInt32Volatile is the plain store that PutInt32 is. *)
Lemma PutInt32Volatile_plain (b : Buffer) (offset v : Z) (m : Memory) :
  PutInt32Volatile b offset v m = PutInt32 b offset v m.
Proof. reflexivity. Qed.

(** The records are stored one after the other, each with its value length
    last. *)
Lemma SetStatics_records_stores (statx : Buffer) (statics : gmap string string)
      (labels : list string) (offset : Z) (ss : list store) :
  SetStatics_records statx statics labels offset = (ss, None) ->
  ss = records_stores statics labels offset.
Proof.
  revert offset ss. induction labels as [|label labels IH]; intros offset ss Hrec.
  - cbn [SetStatics_records] in Hrec. by injection Hrec as <-.
  - cbn [SetStatics_records] in Hrec. destruct (_ >? _) in Hrec; [done|].
    destruct (SetStatics_records statx statics labels _) as [ss' err] eqn:Hrest.
    injection Hrec as <- ->. cbn [records_stores record_stores app].
    by rewrite (IH _ _ Hrest).
Qed.

Lemma records_stores_above (statics : gmap string string) (labels : list string)
      (offset : Z) :
  Forall (fun s => offset <= store_offset s) (records_stores statics labels offset).
Proof.
  revert offset. induction labels as [|label labels IH]; intros offset; [constructor|].
  cbn [records_stores record_stores app].
  pose proof (staticsRecordLength_bounds (len label) (len (mapIndex statics label))).
  pose proof (len_nonneg label). pose proof (len_nonneg (mapIndex statics label)).
  statics_consts.
  repeat (constructor; [cbn [store_offset]; lia|]).
  eapply Forall_impl; [apply IH|]. intros s Hs. cbn beta in Hs. lia.
Qed.

(** Stores at or above an offset leave the bytes below it as they were. *)
Lemma exec_stores_frame (b : Buffer) (lo : Z) (ss : list store) (m m' : Memory)
      (a : Z) (n : nat) :
  Forall (fun s => lo <= store_offset s) ss ->
  exec_stores b ss m = Some m' ->
  a + Z.of_nat n <= addr b + lo ->
  load_bytes m' a n = load_bytes m a n.
Proof.
  intros Hss. revert m. induction Hss as [|s ss Hs Hss IH]; intros m Hexec Ha.
  - cbn in Hexec. by injection Hexec as <-.
  - cbn [exec_stores] in Hexec.
    destruct s as [o v|o v|o bs]; cbn [exec_store store_offset] in *;
      rewrite ?PutBytes_store in Hexec;
      rewrite (IH _ Hexec Ha); mem_unfold;
      by rewrite load_store_disjoint by lia.
Qed.

(** C8 (as amended).  SetStatics of a non-empty map stores the statics
    count first, through PutInt32Volatile, and then the records in ascending
    order of label, each as label bytes, value bytes, label length and,
    last, value length through PutInt32Volatile.  From the first store on
    the count read from the section is the number of entries, whatever part
    of the records is written; the records are all there when the last store
    is done. *)
Theorem SetStatics_stores_count_first (e : Encoder) (d : Decoder)
        (statics : gmap string string) (ss : list store) (m : Memory) :
  Statics (DLayout d) = Statics (ELayout e) ->
  Capacity (Statics (ELayout e)) < 2 ^ 31 ->
  size statics <> 0%nat ->
  SetStatics_stores e statics = (ss, None) ->
  ss = StPutInt32Volatile staticsNumberOfStaticsOffset (Z.of_nat (size statics))
       :: records_stores statics (sortedLabels statics) staticsRecordsOffset /\
  (forall (k : nat) (mk : Memory),
      (1 <= k)%nat ->
      after_stores (Statics (ELayout e)) ss k m = Some mk ->
      GetInt32Volatile (Statics (ELayout e)) staticsNumberOfStaticsOffset mk
      = Z.of_nat (size statics)) /\
  (forall m',
      after_stores (Statics (ELayout e)) ss (length ss) m = Some m' ->
      ForEachStatic d (fun label value => collect (label, value)) m' []
      = Done (sortedEntries statics)).
Proof.
  intros Hd Hcap Hsz Hstores.
  assert (Hset : forall m', exec_stores (Statics (ELayout e)) ss m = Some m' ->
                            SetStatics e statics m = Done (None, m')).
  { intros m' Hexec. unfold SetStatics. by rewrite Hstores, Hexec. }
  unfold SetStatics_stores in Hstores.
  destruct (Nat.eqb_spec (size statics) 0) as [|_]; [done|].
  rewrite Z.gtb_ltb in Hstores.
  destruct (Z.ltb_spec (Capacity (Statics (ELayout e))) (0 + staticsRecordsOffset))
    as [|Hfit]; [done|].
  destruct (SetStatics_records _ statics (sortedLabels statics) staticsRecordsOffset)
    as [ss' err] eqn:Hrec.
  injection Hstores as <- ->.
  pose proof (SetStatics_records_fit _ _ _ _ _ Hrec) as Hn.
  rewrite sortedLabels_length in *. statics_consts.
  assert (Hr : is_int32 (Z.of_nat (size statics))) by (unfold is_int32; lia).
  rewrite (int32_id _ Hr) in *.
  apply SetStatics_records_stores in Hrec as ->.
  split; [done|]. split.
  - intros [|k] mk Hk Hexec; [lia|].
    unfold after_stores in Hexec. cbn [take exec_stores exec_store] in Hexec.
    unfold GetInt32Volatile.
    assert (Habove : Forall (fun s => 4 <= store_offset s)
                            (take k (records_stores statics (sortedLabels statics) 4)))
      by (apply Forall_take, records_stores_above).
    rewrite (exec_stores_frame _ 4 _ _ _ _ 4 Habove Hexec) by lia.
    mem_unfold. rewrite decode_load_store.
    change (256 ^ Z.of_nat 4) with (2 ^ 32). by rewrite int32_mod, (int32_id _ Hr).
  - intros m' Hexec. unfold after_stores in Hexec. rewrite firstn_all in Hexec.
    rewrite (ForEachStatic_after_SetStatics e d statics m m' _ [] Hd Hcap (Hset m' Hexec)).
    by rewrite feed_collect.
Qed.

Lemma SetStatics_stores_count_first_witness :
  Statics (DLayout Example.decoder) = Statics (ELayout Example.encoder) /\
  Capacity (Statics (ELayout Example.encoder)) < 2 ^ 31 /\
  size Example.statics <> 0%nat /\
  exists ss,
    SetStatics_stores Example.encoder Example.statics = (ss, None) /\
    ss = StPutInt32Volatile staticsNumberOfStaticsOffset (Z.of_nat (size Example.statics))
         :: records_stores Example.statics (sortedLabels Example.statics)
                           staticsRecordsOffset /\
    (forall (k : nat) (mk : Memory),
        (1 <= k)%nat ->
        after_stores (Statics (ELayout Example.encoder)) ss k zero_memory = Some mk ->
        GetInt32Volatile (Statics (ELayout Example.encoder)) staticsNumberOfStaticsOffset mk
        = Z.of_nat (size Example.statics)) /\
    (forall m',
        after_stores (Statics (ELayout Example.encoder)) ss (length ss) zero_memory
        = Some m' ->
        ForEachStatic Example.decoder (fun label value => collect (label, value)) m' []
        = Done (sortedEntries Example.statics)).
Proof.
  assert (H1 : Statics (DLayout Example.decoder) = Statics (ELayout Example.encoder))
    by reflexivity.
  assert (H2 : Capacity (Statics (ELayout Example.encoder)) < 2 ^ 31) by (by vm_compute).
  assert (H3 : size Example.statics <> 0%nat) by (by vm_compute).
  destruct (SetStatics_stores_sized Example.encoder Example.statics
                                    ltac:(by vm_compute)) as [ss H4].
  split; [exact H1|]. split; [exact H2|]. split; [exact H3|].
  exists ss. split; [exact H4|].
  exact (SetStatics_stores_count_first Example.encoder Example.decoder Example.statics
                                       ss zero_memory H1 H2 H3 H4).
Defined.

(** C8 as stated fails: the count is stored before the records.  After the
    first store of SetStatics on a map of two entries the count read from
    the section is 2, and a reader that iterates the section then finds two
    empty records; after the five stores that complete the first record it
    finds the first entry and an empty record.  The entries of the map are
    ("a", "1") and ("b", "2"). *)
Lemma SetStatics_count_precedes_records :
  (match after_stores (Statics (ELayout Example.encoder))
                      (SetStatics_stores Example.encoder Example.statics).1 1
                      zero_memory with
   | Some mk =>
     Some (GetInt32Volatile (Statics (ELayout Example.encoder)) 0 mk,
           ForEachStatic Example.decoder (fun label value => collect (label, value)) mk [])
   | None => None
   end
   = Some (2, Done [(EmptyString, EmptyString); (EmptyString, EmptyString)])) /\
  (match after_stores (Statics (ELayout Example.encoder))
                      (SetStatics_stores Example.encoder Example.statics).1 5
                      zero_memory with
   | Some mk =>
     Some (GetInt32Volatile (Statics (ELayout Example.encoder)) 0 mk,
           ForEachStatic Example.decoder (fun label value => collect (label, value)) mk [])
   | None => None
   end
   = Some (2, Done [("a", "1"); (EmptyString, EmptyString)]%string)) /\
  sortedEntries Example.statics = [("a", "1"); ("b", "2")]%string /\
  (SetStatics_stores Example.encoder Example.statics).1 !! 0%nat
  = Some (StPutInt32Volatile 0 2).
Proof. repeat split; vm_compute; reflexivity. Qed.

(** ** The facades *)

(** The version a reader checks is the int32 in the first four bytes of
    the buffer, and it is zero when these bytes are. *)
Lemma Version_NewDecoder (buf : Buffer) (m : Memory) :
  Version (NewDecoder buf m) m = int32 (decode_le (load_bytes m (Address buf) 4)).
Proof.
  unfold Version, NewDecoder, GetInt32Volatile, Slice, headerCountersVersionOffset, Address.
  cbn [DLayout Header addr]. by rewrite !Z.add_0_r.
Qed.

Lemma Z_of_byte_zero (b : byte) : Z_of_byte b = 0 <-> b = zero.
Proof.
  split; [|by intros ->]. intros Hb.
  rewrite <- (byte_of_Z_of_byte b), Hb. reflexivity.
Qed.

Lemma version_bytes_zero (m : Memory) (a : Z) :
  int32 (decode_le (load_bytes m a 4)) = 0
  <-> forall x, a <= x < a + 4 -> m x = zero.
Proof.
  pose proof (Z_of_byte_range (m (a + 0))) as H0.
  pose proof (Z_of_byte_range (m (a + 1))) as H1.
  pose proof (Z_of_byte_range (m (a + 2))) as H2.
  pose proof (Z_of_byte_range (m (a + 3))) as H3.
  pose proof (Z_of_byte_zero (m (a + 0))) as Z0.
  pose proof (Z_of_byte_zero (m (a + 1))) as Z1.
  pose proof (Z_of_byte_zero (m (a + 2))) as Z2.
  pose proof (Z_of_byte_zero (m (a + 3))) as Z3.
  change (load_bytes m a 4) with [m (a + 0); m (a + 1); m (a + 2); m (a + 3)].
  cbn [decode_le].
  set (d := Z_of_byte (m (a + 0))
            + 256 * (Z_of_byte (m (a + 1))
                     + 256 * (Z_of_byte (m (a + 2))
                              + 256 * (Z_of_byte (m (a + 3)) + 256 * 0)))).
  assert (Hd : 0 <= d < 2 ^ 32) by (unfold d; lia).
  assert (Hint : int32 d = 0 <-> d = 0).
  { unfold int32. rewrite Z.mod_small by done.
    destruct (Z.ltb_spec d (2 ^ 31)); lia. }
  rewrite Hint. split.
  - intros Hz x Hx.
    assert (Z_of_byte (m (a + 0)) = 0 /\ Z_of_byte (m (a + 1)) = 0 /\
            Z_of_byte (m (a + 2)) = 0 /\ Z_of_byte (m (a + 3)) = 0)
      as (E0 & E1 & E2 & E3) by (unfold d in Hz; lia).
    assert (x = a + 0 \/ x = a + 1 \/ x = a + 2 \/ x = a + 3) as [->|[->|[->| ->]]] by lia;
      tauto.
  - intros Hz. unfold d.
    rewrite (proj2 Z0), (proj2 Z1), (proj2 Z2), (proj2 Z3) by (apply Hz; lia). done.
Qed.

(** C7.  NewReader over a mapped file fails with the "not initialized"
    error exactly when the version field of the header, the int32 in the
    first four bytes of the buffer, is 0, that is when these four bytes are
    zero; with the "unexpected version" error, which carries the version,
    exactly when it is neither 0 nor CountersVersion = 1; and it returns a
    Reader, over the buffer and the sections the header gives, exactly when
    it is 1. *)
Theorem NewReader_checks_version (buf : Buffer) (m : Memory) :
  let version := int32 (decode_le (load_bytes m (Address buf) 4)) in
  CountersVersion = 1 /\
  (NewReader buf m = (None, Some ErrNotInitialized) <-> version = 0) /\
  (NewReader buf m = (None, Some ErrNotInitialized)
   <-> forall x, Address buf <= x < Address buf + 4 -> m x = zero) /\
  (NewReader buf m = (None, Some (ErrUnexpectedVersion version))
   <-> version <> 0 /\ version <> 1) /\
  ((exists v, NewReader buf m = (None, Some (ErrUnexpectedVersion v)))
   <-> version <> 0 /\ version <> 1) /\
  (NewReader buf m = (Some (mkReader buf (NewDecoder buf m)), None) <-> version = 1) /\
  ((exists r, NewReader buf m = (Some r, None)) <-> version = 1).
Proof.
  cbn zeta. rewrite <- version_bytes_zero. rewrite <- !Version_NewDecoder.
  unfold NewReader. set (v := Version (NewDecoder buf m) m).
  change CountersVersion with 1.
  destruct (Z.eqb_spec v 0) as [H0|H0]; [|destruct (Z.eqb_spec v 1) as [H1|H1]];
    cbn [negb]; (split; [done|]);
    repeat match goal with
           | |- _ /\ _ => split
           | |- _ <-> _ => split
           end;
    try (intros [? ?]); intros;
    first [ done | lia | by eexists ].
Qed.

(** A buffer of zeros is refused, and so is one whose version is 2; a
    version of 1 is accepted, whatever follows it. *)
Example NewReader_on_versions :
  (NewReader (NewBuffer 0 4096) zero_memory,
   fst (NewReader (NewBuffer 0 4096) (PutInt32 (NewBuffer 0 4096) 0 1 zero_memory)),
   NewReader (NewBuffer 0 4096) (PutInt32 (NewBuffer 0 4096) 0 2 zero_memory))
  = ((None, Some ErrNotInitialized),
     Some (mkReader (NewBuffer 0 4096)
                    (mkDecoder (mkLayout (NewBuffer 0 128) (NewBuffer 128 0)
                                         (NewBuffer 128 0) (NewBuffer 128 0)))),
     (None, Some (ErrUnexpectedVersion 2))).
Proof. vm_compute. reflexivity. Qed.

(** A writer that NewWriterForFile returns starts its id sequence at -1 and
    owns a metadata section of maxNumbersOfCounters slots, followed by the
    values section. *)
Lemma NewWriterForFile_fresh (env : Env) (filename : string)
      (statics : gmap string string) (maxNumbersOfCounters : Z) (world world' : World)
      (w : Writer) (err : option error) :
  NewWriterForFile env filename statics maxNumbersOfCounters world
  = Done ((Some w, err), world') ->
  idSequence w = -1 /\ closed w = 0 /\
  0 <= maxNumbersOfCounters <= MaxPossibleNumberOfCounters /\
  layout_ok (ELayout (encoder w)) (Z.to_nat maxNumbersOfCounters).
Proof.
  unfold NewWriterForFile.
  rewrite Z.gtb_ltb.
  destruct (Z.ltb_spec maxNumbersOfCounters 0) as [|Hlo]; [done|].
  destruct (Z.ltb_spec MaxPossibleNumberOfCounters maxNumbersOfCounters) as [|Hhi]; [done|].
  cbn [orb].
  destruct (MapNewFile _ _ _ _) as [[[buf|] err'] world1]; [|done].
  destruct (NewEncoder _ _ _ _ _) as [enc m1] eqn:Henc.
  destruct (SetStatics _ _ _) as [[err'' m2]| |]; [|done..].
  intros [= <- _ _]. cbn [idSequence closed encoder].
  split; [done|]. split; [done|]. split; [lia|].
  unfold NewEncoder, NewEncoderWithBuffers in Henc. injection Henc as <- _.
  unfold layout_ok, MetadataLength, Slice. cbn. rewrite Z2Nat.id by done.
  split; [done|]. left. lia.
Qed.

(** MapNewFile returns a buffer when the file is new, the size is positive
    after rounding and no call of the system fails. *)
Lemma MapNewFile_returns (env : Env) (filename : string) (size : Z) (world : World) :
  filename ∉ files world ->
  openFileError env = None -> truncateError env = None -> mmapError env = None ->
  0 < align size (pageSize env) ->
  MapNewFile env filename size world
  = ((Some (NewBuffer (mmapAddr env) (align size (pageSize env))), None),
     mkWorld (pretouch (Z.to_nat (align size (pageSize env)))
                       (NewBuffer (mmapAddr env) (align size (pageSize env)))
                       (align size (pageSize env)) (pageSize env) 0
                       (fresh_pages (mmapAddr env) (align size (pageSize env))
                                    (memory world)))
             ({[ filename ]} ∪ files world)
             ((mmapAddr env, align size (pageSize env)) :: mapped world)
             (munmaps world)).
Proof.
  intros Hfile Hopen Htrunc Hmmap Hsize. unfold MapNewFile.
  rewrite bool_decide_eq_false_2 by done. rewrite Hopen, Htrunc, Hmmap.
  destruct (Z.ltb_spec (align size (pageSize env)) 0) as [|_]; [lia|].
  destruct (Z.leb_spec (align size (pageSize env)) 0) as [|_]; [lia|]. done.
Qed.

(** What a call of MapNewFile that returns a buffer has done. *)
Lemma MapNewFile_inv (env : Env) (filename : string) (size : Z) (world world' : World)
      (buf : Buffer) (err : option error) :
  MapNewFile env filename size world = ((Some buf, err), world') ->
  (filename ∉ files world) /\
  openFileError env = None /\ truncateError env = None /\ mmapError env = None /\
  0 < align size (pageSize env) /\
  err = None /\
  buf = NewBuffer (mmapAddr env) (align size (pageSize env)) /\
  world' = mkWorld (pretouch (Z.to_nat (align size (pageSize env))) buf
                             (align size (pageSize env)) (pageSize env) 0
                             (fresh_pages (mmapAddr env) (align size (pageSize env))
                                          (memory world)))
                   ({[ filename ]} ∪ files world)
                   ((mmapAddr env, align size (pageSize env)) :: mapped world)
                   (munmaps world).
Proof.
  unfold MapNewFile.
  destruct (decide (filename ∈ files world)) as [Hin|Hin];
    [by rewrite bool_decide_eq_true_2 by done|].
  rewrite bool_decide_eq_false_2 by done.
  destruct (openFileError env); [done|].
  destruct (Z.ltb_spec (align size (pageSize env)) 0); [done|].
  destruct (truncateError env); [done|].
  destruct (Z.leb_spec (align size (pageSize env)) 0); [done|].
  destruct (mmapError env); [done|].
  cbn [memory files mapped munmaps]. intros [= <- <- <-]. repeat split; done || lia.
Qed.



(** The file of a writer is longer than its header, whatever the page
    size, when that is a power of two. *)
Lemma countersFileSize_pos (statics : gmap string string) (maxNumbersOfCounters k : Z) :
  0 <= k -> 0 <= maxNumbersOfCounters ->
  0 < align (Layout.Align (HeaderLength + StaticsLength statics
                           + MetadataLength maxNumbersOfCounters
                           + ValuesLength maxNumbersOfCounters) (2 ^ k)) (2 ^ k).
Proof.
  intros Hk Hn.
  set (total := HeaderLength + StaticsLength statics
                + MetadataLength maxNumbersOfCounters + ValuesLength maxNumbersOfCounters).
  pose proof (Align_bounds total k Hk) as H1.
  pose proof (Align_bounds (Layout.Align total (2 ^ k)) k Hk) as H2.
  change (align (Layout.Align total (2 ^ k)) (2 ^ k))
    with (Layout.Align (Layout.Align total (2 ^ k)) (2 ^ k)).
  assert (Hsl : 4 <= StaticsLength statics).
  { unfold StaticsLength. destruct (size statics =? 0)%nat; [by compute|].
    change (sizeOfCacheLine * 2) with (2 ^ 7).
    set (l := fold_left _ _ _).
    pose proof (Align_bounds l 7 ltac:(lia)).
    pose proof (records_length_le statics (sortedLabels statics) staticsRecordsOffset) as Hl.
    fold l in Hl. change staticsRecordsOffset with 4 in Hl. lia. }
  assert (0 < total); [|lia].
  unfold total, MetadataLength, ValuesLength.
  change HeaderLength with 128. change metadataRecordLength with 512.
  change valuesCounterLength with 128. lia.
Qed.

Lemma NewWriterForFile_returns (env : Env) (filename : string)
      (statics : gmap string string) (maxNumbersOfCounters k : Z) (world : World) :
  0 <= maxNumbersOfCounters <= MaxPossibleNumberOfCounters ->
  filename ∉ files world ->
  0 <= k -> pageSize env = 2 ^ k ->
  openFileError env = None -> truncateError env = None -> mmapError env = None ->
  exists w world',
    NewWriterForFile env filename statics maxNumbersOfCounters world
    = Done ((Some w, None), world').
Proof.
  intros Hn Hfile Hk Hpage Hopen Htrunc Hmmap. unfold NewWriterForFile.
  rewrite Z.gtb_ltb.
  destruct (Z.ltb_spec maxNumbersOfCounters 0) as [|_]; [lia|].
  destruct (Z.ltb_spec MaxPossibleNumberOfCounters maxNumbersOfCounters) as [|_]; [lia|].
  cbn [orb]. rewrite MapNewFile_returns; try done.
  2:{ rewrite Hpage. apply countersFileSize_pos; lia. }
  destruct (NewEncoder _ _ _ _ _) as [enc m1] eqn:Henc.
  destruct (SetStatics_sized enc statics
              (SetStartTime enc (int64 (unixNano env / 1000000))
                            (SetPid enc (int64 (pid env)) m1))) as [m2 ->].
  - unfold NewEncoder, NewEncoderWithBuffers in Henc. by injection Henc as <- _.
  - eauto.
Qed.

(** The answers of the system in the examples: pages of 4096 bytes, and no
    call fails. *)
Lemma example_env_ok :
  0 <= 12 /\ pageSize Example.env = 2 ^ 12 /\
  openFileError Example.env = None /\ truncateError Example.env = None /\
  mmapError Example.env = None.
Proof. repeat split; lia || reflexivity. Qed.

(** One call of AddCounterWithInitialValue returns, and draws the next id. *)
Lemma Writer_AddCounterWithInitialValue_draws (w : Writer) (n : nat) (label : string)
      (initialValue : Z) (m : Memory) :
  layout_ok (ELayout (encoder w)) n ->
  exists c err w' m',
    Writer_AddCounterWithInitialValue w label initialValue m = Done ((c, err), w', m') /\
    idSequence w' = int64 (idSequence w + 1) /\
    encoder w' = encoder w /\
    (forall c0, c = Some c0 -> id c0 = idSequence w').
Proof.
  intros Hok. unfold Writer_AddCounterWithInitialValue. cbn [encoder].
  destruct (AddCounter_cases (encoder w) n (int64 (idSequence w + 1)) initialValue label
                             m Hok) as [(i & _ & _ & _ & ->)|[_ ->]].
  - eexists _, _, _, _. split; [done|]. cbn. split; [done|]. split; [done|].
    by intros c0 [= <-].
  - eexists _, _, _, _. split; [done|]. cbn. split; [done|]. split; [done|]. done.
Qed.

Lemma Counter_Close_returns (w : Writer) (n : nat) (c : Counter) (m : Memory) :
  layout_ok (ELayout (encoder w)) n ->
  exists c' m', Counter_Close w c m = Done (c', m').
Proof.
  intros [Hcap _]. unfold Counter_Close. destruct (counterClosed c =? 0); [|eauto].
  unfold FreeCounter. rewrite Hcap, scan_fuel_slots. cbn [id].
  pose proof (FreeCounter_loop_cases (ELayout (encoder w)) n (id c) m Hcap (n + 2) 0) as Hfree.
  change (Z.of_nat 0 * metadataRecordLength) with 0 in Hfree.
  destruct Hfree as [->|(j & _ & _ & _ & _ & ->)]; [lia | lia | eauto | eauto].
Qed.

(** The ids drawn along a run of calls follow the id sequence. *)
Lemma run_calls_ids (n : nat) (calls : list call) :
  forall (w : Writer) (m : Memory),
    layout_ok (ELayout (encoder w)) n ->
    -1 <= idSequence w ->
    idSequence w + Z.of_nat (length (filter is_add calls)) < 2 ^ 63 ->
    exists rs w' m',
      run_calls w calls m = Done (rs, w', m') /\
      length rs = length (filter is_add calls) /\
      forall (k : nat) (issued : Z) (c : option Counter),
        rs !! k = Some (issued, c) ->
        issued = idSequence w + 1 + Z.of_nat k /\
        forall c0, c = Some c0 -> id c0 = idSequence w + 1 + Z.of_nat k.
Proof.
  induction calls as [|[label initialValue|c] calls IH]; intros w m Hok Hlo Hhi.
  - exists [], w, m. split; [done|]. split; [done|]. intros k issued c Hk.
    by rewrite lookup_nil in Hk.
  - rewrite filter_cons_True in Hhi |- * by done. cbn [length] in Hhi |- *.
    destruct (Writer_AddCounterWithInitialValue_draws w n label initialValue m Hok)
      as (c & err & w1 & m1 & Hadd & Hseq & Henc & Hid).
    rewrite int64_id in Hseq by (unfold is_int64; lia).
    destruct (IH w1 m1) as (rs & w' & m' & Hrun & Hlen & Hrs);
      [by rewrite Henc | lia | lia |].
    exists ((idSequence w1, c) :: rs), w', m'.
    cbn [run_calls]. rewrite Hadd, Hrun. split; [done|].
    split; [cbn [length]; by rewrite Hlen|].
    intros [|k] issued c' Hk.
    + injection Hk as <- <-. split; [lia|]. intros c0 Hc0. rewrite (Hid c0 Hc0). lia.
    + cbn in Hk. destruct (Hrs k issued c' Hk) as [-> Hc]. split; [lia|].
      intros c0 Hc0. rewrite (Hc c0 Hc0). lia.
  - rewrite filter_cons_False in Hhi |- * by (cbn; intros []). 
    destruct (Counter_Close_returns w n c m Hok) as (c' & m1 & Hclose).
    destruct (IH w m1 Hok Hlo Hhi) as (rs & w' & m' & Hrun & Hlen & Hrs).
    exists rs, w', m'. cbn [run_calls]. rewrite Hclose. done.
Qed.

(** C6.  On a writer that NewWriterForFile has returned, the n-th call of
    AddCounter / AddCounterWithInitialValue draws id n-1, whatever calls
    closing counters come in between and whether or not the call finds a
    slot: the ids start at 0 and increase by one, without duplicates or
    gaps, and a counter that is returned carries the id of its call. *)
Theorem ids_issued_in_sequence (env : Env) (filename : string)
        (statics : gmap string string) (maxNumbersOfCounters : Z) (world world' : World)
        (w : Writer) (err : option error) (calls : list call) (m : Memory) :
  NewWriterForFile env filename statics maxNumbersOfCounters world
  = Done ((Some w, err), world') ->
  Z.of_nat (length (filter is_add calls)) <= 2 ^ 63 ->
  exists rs w' m',
    run_calls w calls m = Done (rs, w', m') /\
    length rs = length (filter is_add calls) /\
    forall (n : nat) (issued : Z) (c : option Counter),
      (1 <= n)%nat ->
      rs !! (n - 1)%nat = Some (issued, c) ->
      issued = Z.of_nat n - 1 /\
      forall c0, c = Some c0 -> Counter_ID c0 = Z.of_nat n - 1.
Proof.
  intros Hnew Hlen.
  destruct (NewWriterForFile_fresh _ _ _ _ _ _ _ _ Hnew) as (Hseq & _ & Hmax & Hok).
  destruct (run_calls_ids (Z.to_nat maxNumbersOfCounters) calls w m Hok)
    as (rs & w' & m' & Hrun & Hlenrs & Hrs); [lia | lia |].
  exists rs, w', m'. split; [done|]. split; [done|].
  intros n issued c Hn Hk. destruct (Hrs _ _ _ Hk) as [-> Hc].
  split; [lia|]. intros c0 Hc0. unfold Counter_ID. rewrite (Hc c0 Hc0). lia.
Qed.

Lemma ids_issued_in_sequence_witness :
  exists w world',
    NewWriterForFile Example.env "f" Example.statics 2 Example.world
    = Done ((Some w, None), world') /\
    Z.of_nat (length (filter is_add
                             [CallAdd "a" 0; CallAdd "b" 1;
                              CallClose (mkCounter 0 "a" 0 0); CallAdd "c" 2;
                              CallAdd "d" 3])) <= 2 ^ 63 /\
    exists rs w' m',
      run_calls w [CallAdd "a" 0; CallAdd "b" 1;
                   CallClose (mkCounter 0 "a" 0 0); CallAdd "c" 2; CallAdd "d" 3]
                (memory world') = Done (rs, w', m') /\
      length rs = length (filter is_add
                                 [CallAdd "a" 0; CallAdd "b" 1;
                                  CallClose (mkCounter 0 "a" 0 0); CallAdd "c" 2;
                                  CallAdd "d" 3]) /\
      forall (n : nat) (issued : Z) (c : option Counter),
        (1 <= n)%nat ->
        rs !! (n - 1)%nat = Some (issued, c) ->
        issued = Z.of_nat n - 1 /\
        forall c0, c = Some c0 -> Counter_ID c0 = Z.of_nat n - 1.
Proof.
  destruct (NewWriterForFile_returns Example.env "f" Example.statics 2 12 Example.world)
    as (w & world' & Hnew).
  { change MaxPossibleNumberOfCounters with 10000. lia. }
  { apply not_elem_of_empty. }
  { lia. }
  { reflexivity. }
  { reflexivity. }
  { reflexivity. }
  { reflexivity. }
  assert (Hlen : Z.of_nat (length (filter is_add
                             [CallAdd "a" 0; CallAdd "b" 1;
                              CallClose (mkCounter 0 "a" 0 0); CallAdd "c" 2;
                              CallAdd "d" 3])) <= 2 ^ 63)
    by (by vm_compute).
  exists w, world'. split; [exact Hnew|]. split; [exact Hlen|].
  exact (ids_issued_in_sequence Example.env "f" Example.statics 2 Example.world world'
                                w None _ (memory world') Hnew Hlen).
Defined.

(** Four calls on a writer of two slots: the ids drawn are 0, 1, 2, 3; the
    third call takes the slot that the closed counter left and the fourth
    finds no slot. *)
Example ids_of_four_calls :
  match run_calls Example.writer
                  [CallAdd "a" 0; CallAdd "b" 1; CallClose (mkCounter 0 "a" 0 0);
                   CallAdd "c" 2; CallAdd "d" 3] zero_memory with
  | Done (rs, w', m') =>
    Some (rs, idSequence w',
          slot_id Example.layout m' 0, slot_id Example.layout m' 1)
  | _ => None
  end
  = Some ([(0, Some (mkCounter 0 "a" 0 0)); (1, Some (mkCounter 1 "b" 128 0));
           (2, Some (mkCounter 2 "c" 0 0)); (3, None)], 3, 2, 1).
Proof. vm_compute. reflexivity. Qed.

(** A Writer whose Close has returned is closed, and Close on it returns at
    once: no call of Unmap, nothing changes, whatever the world has become
    since. *)
Lemma Writer_Close_single_shot (w w1 : Writer) (world world1 : World)
      (err : option error) :
  Writer_Close w world = Done (err, w1, world1) ->
  Writer_IsClosed w1 = true /\
  forall world', Writer_Close w1 world' = Done (None, w1, world').
Proof.
  unfold Writer_Close, Writer_IsClosed. destruct (closed w =? 0) eqn:Hclosed.
  - destruct (Unmap _ _) as [[err' world2]| |]; [|done..].
    intros [= _ <- _]. done.
  - intros [= _ <- _]. by rewrite Hclosed.
Qed.

(** syscall.Munmap on a range that is an active mapping, and on one that is
    not. *)
Lemma munmap_active (a size : Z) (w : World) :
  0 < size -> (a, size) ∈ mapped w ->
  munmap a size w
  = Done (None, mkWorld (memory w) (files w)
                        (filter (fun r => r <> (a, size)) (mapped w))
                        ((a, size) :: munmaps w)).
Proof.
  intros Hsize Hin. unfold munmap.
  destruct (Z.eqb_spec size 0); [lia|]. destruct (Z.ltb_spec size 0); [lia|].
  by rewrite bool_decide_eq_true_2.
Qed.

Lemma munmap_inactive (a size : Z) (w : World) :
  0 < size -> (a, size) ∉ mapped w -> munmap a size w = Done (Some ErrEINVAL, w).
Proof.
  intros Hsize Hin. unfold munmap.
  destruct (Z.eqb_spec size 0); [lia|]. destruct (Z.ltb_spec size 0); [lia|].
  by rewrite bool_decide_eq_false_2.
Qed.

Lemma not_elem_of_filter_ne (range : Z * Z) (l : list (Z * Z)) :
  range ∉ filter (fun r => r <> range) l.
Proof. intros Hin. apply list_elem_of_filter in Hin as [Hne _]. done. Qed.

(** C9.  A second Close of a Writer, after a first one that returned, finds
    the closed flag set: it changes nothing and unmaps nothing, whatever
    happened in between.  A Reader has no closed flag, and its second Close
    calls Unmap on its range again.  Right after the first Close the range
    is no active mapping, and the call is refused with EINVAL and changes
    nothing; but when the range was mapped again in between, the second
    Close of the Reader unmaps that later mapping. *)
Theorem Close_twice (w : Writer) (r : Reader) (world : World) :
  0 < Capacity (readerBuffer r) ->
  (Address (readerBuffer r), Capacity (readerBuffer r)) ∈ mapped world ->
  let range := (Address (readerBuffer r), Capacity (readerBuffer r)) in
  (forall err w1 world1,
      Writer_Close w world = Done (err, w1, world1) ->
      Writer_IsClosed w1 = true /\
      forall world', Writer_Close w1 world' = Done (None, w1, world')) /\
  exists world2,
    Reader_Close r world = Done (None, r, world2) /\
    (range ∉ mapped world2) /\
    munmaps world2 = range :: munmaps world /\
    Reader_Close r world2 = Done (Some ErrEINVAL, r, world2) /\
    forall world3,
      range ∈ mapped world3 ->
      exists world4,
        Reader_Close r world3 = Done (None, r, world4) /\
        (range ∉ mapped world4) /\
        munmaps world4 = range :: munmaps world3.
Proof.
  intros Hsize Hin range.
  split; [intros err w1 world1; apply Writer_Close_single_shot|].
  assert (Hclose : forall world3,
            range ∈ mapped world3 ->
            exists world4,
              Reader_Close r world3 = Done (None, r, world4) /\
              (range ∉ mapped world4) /\
              munmaps world4 = range :: munmaps world3).
  { intros world3 Hin3. unfold Reader_Close, Unmap.
    rewrite munmap_active by done. eexists. split; [done|]. cbn [mapped munmaps].
    split; [apply not_elem_of_filter_ne|done]. }
  destruct (Hclose world Hin) as (world2 & Hfirst & Hout & Hcalls).
  exists world2. split; [done|]. split; [done|]. split; [done|].
  split; [|done]. unfold Reader_Close, Unmap. by rewrite munmap_inactive.
Qed.

Lemma Close_twice_witness :
  0 < Capacity (readerBuffer Example.reader) /\
  ((Address (readerBuffer Example.reader), Capacity (readerBuffer Example.reader))
   ∈ mapped (mkWorld zero_memory ∅ [(8192, 4096)] [])) /\
  let range := (Address (readerBuffer Example.reader),
                Capacity (readerBuffer Example.reader)) in
  (forall err w1 world1,
      Writer_Close Example.writer (mkWorld zero_memory ∅ [(8192, 4096)] [])
      = Done (err, w1, world1) ->
      Writer_IsClosed w1 = true /\
      forall world', Writer_Close w1 world' = Done (None, w1, world')) /\
  exists world2,
    Reader_Close Example.reader (mkWorld zero_memory ∅ [(8192, 4096)] [])
    = Done (None, Example.reader, world2) /\
    (range ∉ mapped world2) /\
    munmaps world2 = range :: munmaps (mkWorld zero_memory ∅ [(8192, 4096)] []) /\
    Reader_Close Example.reader world2 = Done (Some ErrEINVAL, Example.reader, world2) /\
    forall world3,
      range ∈ mapped world3 ->
      exists world4,
        Reader_Close Example.reader world3 = Done (None, Example.reader, world4) /\
        (range ∉ mapped world4) /\
        munmaps world4 = range :: munmaps world3.
Proof.
  assert (H1 : 0 < Capacity (readerBuffer Example.reader)) by (cbn; lia).
  assert (H2 : (Address (readerBuffer Example.reader),
                Capacity (readerBuffer Example.reader))
               ∈ mapped (mkWorld zero_memory ∅ [(8192, 4096)] []))
    by (cbn; apply list_elem_of_here).
  split; [exact H1|]. split; [exact H2|].
  exact (Close_twice Example.writer Example.reader
                     (mkWorld zero_memory ∅ [(8192, 4096)] []) H1 H2).
Defined.

(** Two Closes of a Reader in a row: the first unmaps the range, the second
    is refused and makes no system call. *)
Example Reader_Close_twice :
  match Reader_Close Example.reader (mkWorld zero_memory ∅ [(8192, 4096)] []) with
  | Done (err1, _, world1) =>
    match Reader_Close Example.reader world1 with
    | Done (err2, _, world2) => Some (err1, mapped world1, err2, munmaps world2)
    | _ => None
    end
  | _ => None
  end
  = Some (None, [], Some ErrEINVAL, [(8192, 4096)]).
Proof. vm_compute. reflexivity. Qed.

(** Between the two Closes of the Reader a Writer is created, and the system
    places its mapping of one page where the Reader's was: the second Close
    of the Reader unmaps the buffer of the Writer, which is not closed. *)
Example Reader_Close_unmaps_a_later_mapping :
  match Reader_Close Example.reader (mkWorld zero_memory ∅ [(8192, 4096)] []) with
  | Done (_, _, world1) =>
    match NewWriterForFile (mkEnv 4096 8192 1 0 None None None) "g" Example.statics 2
                           world1 with
    | Done ((Some w, _), world2) =>
      match Reader_Close Example.reader world2 with
      | Done (err, _, world3) =>
        Some (mapped world1, Address (buffer w), Capacity (buffer w), mapped world2,
              err, mapped world3, munmaps world3, Writer_IsClosed w)
      | _ => None
      end
    | _ => None
    end
  | _ => None
  end
  = Some ([], 8192, 4096, [(8192, 4096)],
          None, [], [(8192, 4096); (8192, 4096)], false).
Proof. vm_compute. reflexivity. Qed.

(** * Further properties of the code *)

(** ** The id-status word *)

Lemma uint64_range (v : Z) : 0 <= uint64 v < 2 ^ 64.
Proof. unfold uint64. apply Z.mod_pos_bound. lia. Qed.

Lemma int64_uint64 (v : Z) : int64 (uint64 v) = int64 v.
Proof. unfold uint64. apply int64_mod. Qed.

Lemma uint64_id (v : Z) : 0 <= v < 2 ^ 64 -> uint64 v = v.
Proof. intros. unfold uint64. by apply Z.mod_small. Qed.

(** The status byte and the id of any word. *)
Lemma extractStatus_mod (w : Z) : extractStatus w = uint64 w mod 256.
Proof.
  unfold extractStatus, uint8, uint64.
  change 255 with (Z.ones 8). rewrite Z.land_ones by lia.
  change (2 ^ 8) with 256. rewrite Z.mod_mod by lia.
  symmetry. apply Z.mod_mod_divide. by exists (2 ^ 56).
Qed.

Lemma extractID_div (w : Z) : extractID w = uint64 w / 256.
Proof.
  unfold extractID. rewrite Z.shiftr_div_pow2 by lia. change (2 ^ 8) with 256.
  pose proof (uint64_range w).
  apply int64_id. unfold is_int64.
  assert (uint64 w / 256 < 2 ^ 56) by (apply Z.div_lt_upper_bound; lia).
  assert (0 <= uint64 w / 256) by (apply Z.div_pos; lia). lia.
Qed.

(** Packing adds the status to the id shifted by one byte. *)
Lemma makeIDStatus_sum (counterID status : Z) :
  0 <= status < 256 ->
  uint64 (makeIDStatus counterID status) = (counterID mod 2 ^ 56) * 256 + status.
Proof.
  intros Hs. unfold makeIDStatus. rewrite uint64_int64.
  assert (HA : uint64 (Z.shiftl (uint64 counterID) 8) = (counterID mod 2 ^ 56) * 2 ^ 8).
  { unfold uint64. rewrite Z.shiftl_mul_pow2 by lia.
    change (2 ^ 64) with (2 ^ 56 * 2 ^ 8) at 2.
    rewrite Z.mul_mod_distr_r by lia. f_equal.
    rewrite Z.mod_mod_divide by (by exists (2 ^ 8)). done. }
  rewrite HA, (uint64_id status) by lia.
  pose proof (Z.mod_pos_bound counterID (2 ^ 56) ltac:(lia)).
  assert (Hland : Z.land ((counterID mod 2 ^ 56) * 2 ^ 8) status = 0).
  { rewrite <- (Z.mod_small status (2 ^ 8)) by lia.
    rewrite <- (Z.land_ones status) by lia.
    rewrite (Z.land_comm status), Z.land_assoc.
    rewrite (Z.land_ones (_ * _)) by lia.
    rewrite Z.mod_mul by lia. done. }
  rewrite <- (Z.lxor_lor _ _ Hland), <- (Z.add_nocarry_lxor _ _ Hland).
  apply uint64_id. lia.
Qed.

(** X1.  makeIDStatus and extractID / extractStatus are inverse to each
    other: a word made of an id of 56 bits and a status byte gives both back,
    and every int64 word is the packing of its id and its status, where the
    id lies in [0, 2^56) and the status in [0, 256). *)
Theorem idStatus_round_trip (counterID status w : Z) :
  0 <= counterID < 2 ^ 56 -> 0 <= status < 256 -> is_int64 w ->
  extractID (makeIDStatus counterID status) = counterID /\
  extractStatus (makeIDStatus counterID status) = status /\
  0 <= extractID w < 2 ^ 56 /\
  0 <= extractStatus w < 256 /\
  makeIDStatus (extractID w) (extractStatus w) = w.
Proof.
  intros Hid Hs Hw.
  split; [rewrite extractID_makeIDStatus by done; by apply Z.mod_small|].
  split; [by apply extractStatus_makeIDStatus|].
  pose proof (uint64_range w) as Hu.
  rewrite extractID_div, extractStatus_mod.
  assert (Hq : 0 <= uint64 w / 256 < 2 ^ 56).
  { split; [apply Z.div_pos; lia | apply Z.div_lt_upper_bound; lia]. }
  pose proof (Z.mod_pos_bound (uint64 w) 256 ltac:(lia)) as Hr.
  split; [done|]. split; [done|].
  rewrite <- (int64_id w Hw) at 3. rewrite <- int64_uint64.
  rewrite <- (int64_id (makeIDStatus _ _)) by (unfold makeIDStatus; apply int64_is_int64).
  rewrite <- int64_uint64. f_equal.
  rewrite makeIDStatus_sum by done. rewrite (Z.mod_small (uint64 w / 256)) by done.
  pose proof (Z.div_mod (uint64 w) 256 ltac:(lia)). lia.
Qed.

Lemma idStatus_round_trip_witness :
  0 <= 7 < 2 ^ 56 /\ 0 <= counterStatusFreed < 256 /\ is_int64 (-1) /\
  extractID (makeIDStatus 7 counterStatusFreed) = 7 /\
  extractStatus (makeIDStatus 7 counterStatusFreed) = counterStatusFreed /\
  0 <= extractID (-1) < 2 ^ 56 /\
  0 <= extractStatus (-1) < 256 /\
  makeIDStatus (extractID (-1)) (extractStatus (-1)) = -1.
Proof.
  assert (H1 : 0 <= 7 < 2 ^ 56) by lia.
  assert (H2 : 0 <= counterStatusFreed < 256) by (by vm_compute).
  assert (H3 : is_int64 (-1)) by (by vm_compute).
  split; [exact H1|]. split; [exact H2|]. split; [exact H3|].
  exact (idStatus_round_trip 7 counterStatusFreed (-1) H1 H2 H3).
Defined.

(** An id outside of 56 bits is stored modulo 2^56: a negative id comes back
    positive. *)
Example extractID_of_negative_id :
  extractID (makeIDStatus (-1) counterStatusAllocated) = 2 ^ 56 - 1.
Proof. reflexivity. Qed.

(** ** Align *)

Lemma int64_add_l (a b : Z) : int64 (int64 a + b) = int64 (a + b).
Proof.
  rewrite <- (int64_mod (int64 a + b)), <- (int64_mod (a + b)). f_equal.
  rewrite <- (Z.add_mod_idemp_l (int64 a)), <- (Z.add_mod_idemp_l a) by lia.
  f_equal. f_equal. apply uint64_int64.
Qed.

(** X2.  For an alignment 2^k and a v for which no sum of the expression
    leaves Go's int (v + 2^k - 1 is at most 2^63 - 1), Align(v, 2^k) as it is
    computed on 64-bit ints is the least multiple of 2^k that is not below
    v; an aligned v is returned as it is.  mmap.align is the same
    function. *)
Theorem Align_least_multiple (v k : Z) :
  0 <= k < 63 -> - 2 ^ 63 <= v -> v + 2 ^ k <= 2 ^ 63 ->
  int64 (Z.ldiff (int64 (int64 (v + 2 ^ k) - 1)) (int64 (2 ^ k - 1))) = Align v (2 ^ k) /\
  is_int64 (Align v (2 ^ k)) /\
  Align v (2 ^ k) mod 2 ^ k = 0 /\
  v <= Align v (2 ^ k) < v + 2 ^ k /\
  (forall u, u mod 2 ^ k = 0 -> v <= u -> Align v (2 ^ k) <= u) /\
  (v mod 2 ^ k = 0 -> Align v (2 ^ k) = v) /\
  Mmap.align v (2 ^ k) = Align v (2 ^ k).
Proof.
  intros Hk Hlo Hhi. assert (Hpos : 0 < 2 ^ k) by (apply Z.pow_pos_nonneg; lia).
  assert (Hk63 : 2 ^ k < 2 ^ 63) by (apply Z.pow_lt_mono_r; lia).
  pose proof (Align_bounds v k ltac:(lia)) as Hb.
  assert (Hint : is_int64 (Align v (2 ^ k))) by (unfold is_int64; lia).
  assert (Hmul : Align v (2 ^ k) mod 2 ^ k = 0)
    by (rewrite Align_pow2 by lia; apply Z.mod_mul; lia).
  assert (Hleast : forall u, u mod 2 ^ k = 0 -> v <= u -> Align v (2 ^ k) <= u).
  { intros u Hu Hvu.
    apply Z.mod_divide in Hu as [q ->]; [|lia].
    apply Z.mod_divide in Hmul as [p Hp]; [|lia]. rewrite Hp in *.
    assert (p < q + 1) by nia. nia. }
  split.
  { replace (int64 (v + 2 ^ k) - 1) with (int64 (v + 2 ^ k) + -1) by lia.
    rewrite int64_add_l.
    rewrite (int64_id (v + 2 ^ k + -1)) by (unfold is_int64; lia).
    rewrite (int64_id (2 ^ k - 1)) by (unfold is_int64; lia).
    replace (v + 2 ^ k + -1) with (v + 2 ^ k - 1) by lia.
    by apply int64_id. }
  split; [done|]. split; [done|]. split; [done|]. split; [done|]. split; [|done].
  intros Hv. apply Z.le_antisymm; [|lia]. apply Hleast; [done|lia].
Qed.

Lemma Align_least_multiple_witness :
  0 <= 7 < 63 /\ - 2 ^ 63 <= 133 /\ 133 + 2 ^ 7 <= 2 ^ 63 /\
  int64 (Z.ldiff (int64 (int64 (133 + 2 ^ 7) - 1)) (int64 (2 ^ 7 - 1))) = Align 133 (2 ^ 7) /\
  is_int64 (Align 133 (2 ^ 7)) /\
  Align 133 (2 ^ 7) mod 2 ^ 7 = 0 /\
  133 <= Align 133 (2 ^ 7) < 133 + 2 ^ 7 /\
  (forall u, u mod 2 ^ 7 = 0 -> 133 <= u -> Align 133 (2 ^ 7) <= u) /\
  (133 mod 2 ^ 7 = 0 -> Align 133 (2 ^ 7) = 133) /\
  Mmap.align 133 (2 ^ 7) = Align 133 (2 ^ 7).
Proof.
  assert (H1 : 0 <= 7 < 63) by lia.
  assert (H2 : - 2 ^ 63 <= 133) by lia.
  assert (H3 : 133 + 2 ^ 7 <= 2 ^ 63) by lia.
  repeat (split; [assumption|]).
  exact (Align_least_multiple 133 7 H1 H2 H3).
Defined.

(** Beyond that range the sum wraps: for the largest int and an alignment
    of 2 the expression on 64-bit ints gives the smallest int, where Align
    on Z gives 2^63. *)
Example Align_at_the_largest_int :
  (int64 (Z.ldiff (int64 (int64 (2 ^ 63 - 1 + 2) - 1)) (int64 (2 - 1))),
   Align (2 ^ 63 - 1) 2)
  = (- 2 ^ 63, 2 ^ 63).
Proof. vm_compute. reflexivity. Qed.

(** ** The accessors of a Buffer *)

Lemma GetInt64_PutInt64 (b : Buffer) (offset v : Z) (m : Memory) :
  GetInt64 b offset (PutInt64 b offset v m) = int64 v.
Proof.
  mem_unfold. rewrite decode_load_store.
  change (256 ^ Z.of_nat 8) with (2 ^ 64). apply int64_mod.
Qed.

Lemma GetInt32_PutInt32 (b : Buffer) (offset v : Z) (m : Memory) :
  GetInt32 b offset (PutInt32 b offset v m) = int32 v.
Proof.
  mem_unfold. rewrite decode_load_store.
  change (256 ^ Z.of_nat 4) with (2 ^ 32). apply int32_mod.
Qed.

Lemma GetInt64_AddInt64 (b : Buffer) (offset delta : Z) (m : Memory) :
  (AddInt64 b offset delta m).1 = int64 (GetInt64 b offset m + delta) /\
  GetInt64 b offset (AddInt64 b offset delta m).2 = int64 (GetInt64 b offset m + delta).
Proof.
  unfold AddInt64. cbn [fst snd]. split; [done|].
  rewrite GetInt64_PutInt64. apply int64_id, int64_is_int64.
Qed.

(** X3.  An integer put at an offset is what a get at that offset returns,
    wrapped to the width of the field, and a put leaves the integers at
    offsets outside of its bytes as they were; the Volatile accessors
    store and load the same bytes. *)
Theorem Put_Get_round_trip (b : Buffer) (offset offset' v : Z) (m : Memory) :
  GetInt64 b offset (PutInt64 b offset v m) = int64 v /\
  GetInt64Volatile b offset (PutInt64Volatile b offset v m) = int64 v /\
  GetInt32 b offset (PutInt32 b offset v m) = int32 v /\
  GetInt32Volatile b offset (PutInt32Volatile b offset v m) = int32 v /\
  (offset' + 8 <= offset \/ offset + 8 <= offset' ->
   GetInt64 b offset' (PutInt64 b offset v m) = GetInt64 b offset' m) /\
  (offset' + 4 <= offset \/ offset + 4 <= offset' ->
   GetInt32 b offset' (PutInt32 b offset v m) = GetInt32 b offset' m) /\
  (offset' + 8 <= offset \/ offset + 4 <= offset' ->
   GetInt64 b offset' (PutInt32 b offset v m) = GetInt64 b offset' m) /\
  (offset' + 4 <= offset \/ offset + 8 <= offset' ->
   GetInt32 b offset' (PutInt64 b offset v m) = GetInt32 b offset' m).
Proof.
  split; [apply GetInt64_PutInt64|]. split; [apply GetInt64_PutInt64|].
  split; [apply GetInt32_PutInt32|]. split; [apply GetInt32_PutInt32|].
  mem_unfold.
  repeat split; intros Hd;
    by rewrite load_store_disjoint by (rewrite length_encode_le; lia).
Qed.

(** X4.  The bytes put by PutSomeBytes are the slice [bs[start:start+len]],
    which GetBytes at the same offset returns, and the bytes outside of the
    range written stay as they were; the bytes put by PutBytes and the
    string put by PutString are read back by GetBytes and GetString. *)
Theorem PutBytes_GetBytes_round_trip (b : Buffer) (offset : Z) (bs : list byte)
        (start len : Z) (s : string) (m : Memory) :
  (0 <= start /\ 0 <= len /\ start + len <= Z.of_nat (length bs) ->
   exists m', PutSomeBytes b offset bs start len m = Some m' /\
              GetBytes b offset len m'
              = Some (take (Z.to_nat len) (drop (Z.to_nat start) bs)) /\
              forall offset' (n : nat),
                offset' + Z.of_nat n <= offset \/ offset + len <= offset' ->
                GetBytes b offset' (Z.of_nat n) m' = GetBytes b offset' (Z.of_nat n) m) /\
  (exists m', PutBytes b offset bs m = Some m' /\
              GetBytes b offset (Z.of_nat (length bs)) m' = Some bs) /\
  (exists m', PutString b offset s m = Some m' /\
              GetString b offset (Layout.len s) m' = Some s).
Proof.
  assert (Hput : forall bs', exists m',
             PutBytes b offset bs' m = Some m' /\
             GetBytes b offset (Z.of_nat (length bs')) m' = Some bs').
  { intros bs'. rewrite PutBytes_store. eexists. split; [done|].
    unfold GetBytes. destruct (Z.ltb_spec (Z.of_nat (length bs')) 0); [lia|].
    f_equal. rewrite Nat2Z.id. apply load_store_same. }
  split; [|split].
  - intros (H1 & H2 & H3). unfold PutSomeBytes.
    rewrite (proj2 (Z.leb_le _ _) H1), (proj2 (Z.leb_le _ _) H2), (proj2 (Z.leb_le _ _) H3).
    cbn [andb]. eexists. split; [done|].
    unfold GetBytes. destruct (Z.ltb_spec len 0); [lia|]. split.
    + f_equal. apply load_store_same'; [done|].
      rewrite length_take, length_drop. lia.
    + intros offset' n Hout. destruct (Z.ltb_spec (Z.of_nat n) 0); [done|].
      f_equal. apply load_store_disjoint.
      rewrite length_take, length_drop. lia.
  - apply Hput.
  - unfold PutString, GetString, Layout.len.
    destruct (Hput (list_ascii_of_string s)) as (m' & -> & Hget).
    exists m'. split; [done|].
    rewrite length_list_ascii_of_string in Hget. rewrite Hget. cbn.
    by rewrite string_of_list_ascii_of_string.
Qed.

(** The bytes the test of the package puts and reads back: the four bytes
    of the slice, not the three that the test expects. *)
Example TestBuffer_bytes :
  match PutSomeBytes (NewBuffer 0 1000) 2 (list_ascii_of_string "atestb") 2 4
                     zero_memory with
  | Some m => GetString (NewBuffer 0 1000) 2 4 m
  | None => None
  end = Some "estb"%string.
Proof. vm_compute. reflexivity. Qed.

(** X5.  SwapInt64 returns the value the word had and leaves 0 in it,
    whatever new value it is passed. *)
Theorem SwapInt64_stores_zero (b : Buffer) (offset new : Z) (m : Memory) :
  (SwapInt64 b offset new m).1 = GetInt64 b offset m /\
  GetInt64 b offset (SwapInt64 b offset new m).2 = 0 /\
  (SwapInt64 b offset new m).2 = (SwapInt64 b offset 0 m).2.
Proof.
  unfold SwapInt64. cbn [fst snd]. split; [done|]. split; [|done].
  mem_unfold. by rewrite decode_load_store.
Qed.

(** ** The value of a counter *)

(** X6.  On the value of a counter: Get after Set returns the value set;
    Increment returns the value plus one, wrapped to 64 bits, and leaves it
    in the counter; GetAndAdd returns the value the counter had and leaves
    the wrapped sum in it. *)
Theorem Counter_value_operations (owner : Writer) (c : Counter) (v delta : Z)
        (m : Memory) :
  Counter_Get owner c (Counter_Set owner c v m) = int64 v /\
  Counter_GetWeak owner c (Counter_SetWeak owner c v m) = int64 v /\
  (Counter_Increment owner c m).1 = int64 (Counter_Get owner c m + 1) /\
  Counter_Get owner c (Counter_Increment owner c m).2 = int64 (Counter_Get owner c m + 1) /\
  (Counter_GetAndAdd owner c delta m).1 = Counter_Get owner c m /\
  Counter_Get owner c (Counter_GetAndAdd owner c delta m).2
  = int64 (Counter_Get owner c m + delta).
Proof.
  pose proof (GetInt64_AddInt64 (values owner) (valueOffset c) 1 m) as [H3 H4].
  pose proof (GetInt64_AddInt64 (values owner) (valueOffset c) delta m) as [H5 H6].
  unfold Counter_Get, Counter_Set, Counter_GetWeak, Counter_SetWeak, Counter_Increment,
    Counter_GetAndAdd.
  split; [apply GetInt64_PutInt64|]. split; [apply GetInt64_PutInt64|].
  split; [done|]. split; [done|].
  destruct (AddInt64 (values owner) (valueOffset c) delta m) as [new m'] eqn:Hadd.
  cbn [fst snd] in *. split; [|done].
  rewrite H5.
  change (GetInt64Volatile ?b ?o ?m) with (GetInt64 b o m).
  replace (int64 (GetInt64 (values owner) (valueOffset c) m + delta) - delta)
    with (int64 (GetInt64 (values owner) (valueOffset c) m + delta) + - delta) by lia.
  rewrite int64_add_l.
  replace (GetInt64 (values owner) (valueOffset c) m + delta + - delta)
    with (GetInt64 (values owner) (valueOffset c) m) by lia.
  apply int64_id. unfold GetInt64. apply int64_is_int64.
Qed.

(** At the largest int64 an increment wraps to the smallest. *)
Example Counter_Increment_wraps :
  (Counter_Increment Example.writer (mkCounter 0 "a" 0 0)
                     (Counter_Set Example.writer (mkCounter 0 "a" 0 0)
                                  (2 ^ 63 - 1) zero_memory)).1
  = - 2 ^ 63.
Proof. vm_compute. reflexivity. Qed.

(** ** Counters written and read back *)

(** The horizon lies beyond a slot when no slot up to it is NotUsed. *)
Lemma horizon_gt (L : Layout.Layout) (m : Memory) (n i : nat) :
  (i < n)%nat ->
  (forall j, (j <= i)%nat -> slot_status L m j <> counterStatusNotUsed) ->
  (i < horizon L m n)%nat.
Proof.
  intros Hi Hused. unfold horizon.
  destruct (list_find _ (seq 0 n)) as [[p x]|] eqn:Hfind; [|done].
  apply list_find_Some in Hfind as (Hp & Hx & _).
  apply lookup_seq in Hp as [-> Hp]. cbn in Hx.
  destruct (decide (i < p)%nat); [done|]. exfalso. apply (Hused p); [lia|done].
Qed.

(** The first slot before the horizon that stores an id. *)
Lemma list_find_slot (L : Layout.Layout) (m : Memory) (n i : nat) (counterID : Z) :
  (i < horizon L m n)%nat ->
  slot_id L m i = counterID ->
  (forall j, (j < i)%nat -> slot_id L m j <> counterID) ->
  list_find (fun j => slot_id L m j = counterID) (seq 0 (horizon L m n)) = Some (i, i).
Proof.
  intros Hi Hid Hfirst. apply list_find_Some. split; [by apply lookup_seq_lt|].
  split; [done|]. intros j y Hj Hji. apply lookup_seq in Hj as [-> _].
  by apply Hfirst.
Qed.

Lemma list_find_no_slot (L : Layout.Layout) (m : Memory) (h : nat) (counterID : Z) :
  (forall j, (j < h)%nat -> slot_id L m j <> counterID) ->
  list_find (fun j => slot_id L m j = counterID) (seq 0 h) = None.
Proof.
  intros Hnone. apply list_find_None, Forall_forall. intros j Hj.
  apply elem_of_seq in Hj. apply Hnone. lia.
Qed.

(** The lookups, through the first slot before the horizon that stores the
    id. *)
Lemma lookups_at (d : Decoder) (n i : nat) (counterID : Z) (m : Memory) :
  Capacity (CountersMetadata (DLayout d)) = Z.of_nat n * metadataRecordLength ->
  (i < horizon (DLayout d) m n)%nat ->
  slot_id (DLayout d) m i = counterID ->
  (forall j, (j < i)%nat -> slot_id (DLayout d) m j <> counterID) ->
  GetCounterValue d counterID m
  = (if decide (slot_status (DLayout d) m i = counterStatusAllocated)
     then Done (slot_value (DLayout d) m i, None)
     else Done (0, Some (ErrNotAllocated counterID))) /\
  GetCounterLabel d counterID m
  = (if decide (slot_status (DLayout d) m i = counterStatusAllocated)
     then if decide (0 <= slot_label_length (DLayout d) m i)
          then Done (slot_label (DLayout d) m i, None)
          else Panic
     else Done (EmptyString, Some (ErrNotAllocated counterID))).
Proof.
  intros Hcap Hi Hid Hfirst.
  assert (Hv := GetCounterValue_loop_spec (DLayout d) n counterID m Hcap n (n + 2) 0).
  assert (Hl := GetCounterLabel_loop_spec (DLayout d) n counterID m Hcap n (n + 2) 0).
  change (Z.of_nat 0 * metadataRecordLength) with 0 in *.
  change (Z.of_nat 0 * valuesCounterLength) with 0 in *.
  rewrite live_prefix_seq in *.
  rewrite (list_find_slot _ _ _ i counterID Hi Hid Hfirst) in *.
  unfold GetCounterValue, GetCounterLabel.
  rewrite Hcap, scan_fuel_slots, Hv, Hl by lia. done.
Qed.

Lemma slot_id_range (L : Layout.Layout) (m : Memory) (i : nat) :
  0 <= slot_id L m i < 2 ^ 56.
Proof.
  unfold slot_id. rewrite extractID_div.
  pose proof (uint64_range (slot_word L m i)).
  split; [apply Z.div_pos; lia | apply Z.div_lt_upper_bound; lia].
Qed.

(** The lookups of an id in the memory that allocating a slot leaves, when
    no slot before the one allocated is NotUsed or stores the id. *)
Lemma allocate_lookups (L : Layout.Layout) (d : Decoder) (n i : nat)
      (counterID initialValue : Z) (label : string) (m : Memory) :
  layout_ok L n ->
  DLayout d = L ->
  is_int64 initialValue ->
  0 <= counterID < 2 ^ 56 ->
  (i < n)%nat ->
  (forall j, (j < i)%nat -> slot_status L m j <> counterStatusNotUsed) ->
  (forall j, (j < i)%nat -> slot_id L m j <> counterID) ->
  let m' := allocate L i counterID initialValue label m in
  GetCounterValue d counterID m' = Done (initialValue, None) /\
  GetCounterLabel d counterID m'
  = Done (string_of_list_ascii (take 380 (list_ascii_of_string label)), None).
Proof.
  intros Hok Hd Hiv Hid Hi Hused Hother m'.
  assert (Hst : slot_status L m' i = counterStatusAllocated)
    by apply allocate_status.
  assert (Hidi : slot_id L m' i = counterID).
  { unfold m'. rewrite allocate_id. by apply Z.mod_small. }
  assert (Hbefore : forall j, (j < i)%nat -> slot_word L m' j = slot_word L m j).
  { intros j Hj. apply (allocate_word_other _ n); [done | done | lia | lia]. }
  assert (Hhor : (i < horizon L m' n)%nat).
  { apply horizon_gt; [done|]. intros j Hj.
    destruct (decide (j = i)) as [->|Hne]; [rewrite Hst; by consts|].
    unfold slot_status. rewrite Hbefore by lia. apply Hused. lia. }
  pose proof Hok as [Hcap Hsep].
  destruct (lookups_at d n i counterID m') as [Hv Hl]; rewrite ?Hd; try done.
  { intros j Hj. unfold slot_id. rewrite Hbefore by done. by apply Hother. }
  rewrite Hd in Hv, Hl.
  rewrite decide_True in Hv by done. rewrite decide_True in Hl by done.
  pose proof (allocate_label_length L n i counterID initialValue label m Hok Hi)
    as Hlen. fold m' in Hlen.
  pose proof (len_nonneg label) as Hl0.
  rewrite decide_True in Hl by (rewrite Hlen; consts; lia).
  assert (Hlab : slot_label L m' i
                 = string_of_list_ascii (take 380 (list_ascii_of_string label))).
  { unfold slot_label. rewrite Hlen. unfold m'.
    rewrite (allocate_label_bytes L n i counterID initialValue label m Hok Hi).
    f_equal. consts.
    destruct (Z.le_gt_cases (len label) 380).
    - rewrite Z.min_l by done. unfold len.
      rewrite !firstn_all2; [done| |]; rewrite length_list_ascii_of_string;
        unfold len in *; lia.
    - rewrite Z.min_r by lia. done. }
  split.
  - rewrite Hv. f_equal. f_equal.
    unfold m'. rewrite (allocate_value L n) by done. by apply int64_id.
  - by rewrite Hl, Hlab.
Qed.

(** X7.  A counter that AddCounter has just added is found by the reader:
    when no slot before the one taken stores the id, GetCounterValue(id)
    returns the initial value and GetCounterLabel(id) the label, cut to its
    first 380 bytes (the label itself when it has no more). *)
Theorem added_counter_is_read_back (e : Encoder) (d : Decoder) (n i : nat)
        (counterID initialValue : Z) (label : string) (m : Memory) :
  layout_ok (ELayout e) n ->
  DLayout d = ELayout e ->
  is_int64 initialValue ->
  0 <= counterID < 2 ^ 56 ->
  (i < n)%nat ->
  is_free (slot_status (ELayout e) m i) ->
  (forall j, (j < i)%nat -> ~ is_free (slot_status (ELayout e) m j)) ->
  (forall j, (j < i)%nat -> slot_id (ELayout e) m j <> counterID) ->
  exists m',
    AddCounter e counterID initialValue label m
    = Done ((Z.of_nat i * valuesCounterLength, None), m') /\
    GetCounterValue d counterID m' = Done (initialValue, None) /\
    GetCounterLabel d counterID m'
    = Done (string_of_list_ascii (take 380 (list_ascii_of_string label)), None) /\
    (len label <= 380 -> GetCounterLabel d counterID m' = Done (label, None)).
Proof.
  intros Hok Hd Hiv Hid Hi Hfree Hlow Hother.
  destruct (AddCounter_cases e n counterID initialValue label m Hok)
    as [(i' & Hi' & Hf' & Hlow' & Hadd)|[Hnone _]]; [|by destruct (Hnone i Hi)].
  assert (i' = i) as ->.
  { destruct (Nat.lt_trichotomy i' i) as [Hlt|[->|Hgt]]; [|done|].
    - by destruct (Hlow i' Hlt).
    - by destruct (Hlow' i Hgt). }
  destruct (allocate_lookups (ELayout e) d n i counterID initialValue label m)
    as [Hv Hl]; try done.
  { intros j Hj Hnu. apply (Hlow j Hj). by left. }
  eexists. split; [exact Hadd|]. split; [done|]. split; [done|].
  intros Hshort. rewrite Hl. f_equal. f_equal.
  rewrite firstn_all2
    by (rewrite length_list_ascii_of_string; unfold len in *; lia).
  apply string_of_list_ascii_of_string.
Qed.

Lemma added_counter_is_read_back_witness :
  layout_ok (ELayout Example.encoder) 2 /\
  DLayout Example.decoder = ELayout Example.encoder /\
  is_int64 42 /\
  0 <= 8 < 2 ^ 56 /\
  (1 < 2)%nat /\
  is_free (slot_status (ELayout Example.encoder) Example.one_counter 1) /\
  (forall j, (j < 1)%nat ->
             ~ is_free (slot_status (ELayout Example.encoder) Example.one_counter j)) /\
  (forall j, (j < 1)%nat ->
             slot_id (ELayout Example.encoder) Example.one_counter j <> 8) /\
  exists m',
    AddCounter Example.encoder 8 42 "second" Example.one_counter
    = Done ((Z.of_nat 1 * valuesCounterLength, None), m') /\
    GetCounterValue Example.decoder 8 m' = Done (42, None) /\
    GetCounterLabel Example.decoder 8 m'
    = Done (string_of_list_ascii (take 380 (list_ascii_of_string "second")), None) /\
    (len "second" <= 380 -> GetCounterLabel Example.decoder 8 m' = Done ("second"%string, None)).
Proof.
  assert (H1 : layout_ok (ELayout Example.encoder) 2)
    by (split; [reflexivity | left; vm_compute; discriminate]).
  assert (H2 : DLayout Example.decoder = ELayout Example.encoder) by reflexivity.
  assert (H3 : is_int64 42) by (unfold is_int64; lia).
  assert (H4 : 0 <= 8 < 2 ^ 56) by lia.
  assert (H5 : (1 < 2)%nat) by lia.
  assert (H6 : is_free (slot_status (ELayout Example.encoder) Example.one_counter 1))
    by (left; vm_compute; reflexivity).
  assert (H7 : forall j, (j < 1)%nat ->
             ~ is_free (slot_status (ELayout Example.encoder) Example.one_counter j)).
  { intros j Hj. assert (j = 0%nat) as -> by lia. vm_compute. intros [|]; discriminate. }
  assert (H8 : forall j, (j < 1)%nat ->
             slot_id (ELayout Example.encoder) Example.one_counter j <> 8).
  { intros j Hj. assert (j = 0%nat) as -> by lia. vm_compute. discriminate. }
  repeat (split; [assumption|]).
  exact (added_counter_is_read_back Example.encoder Example.decoder 2 1 8 42 "second"
                                    Example.one_counter H1 H2 H3 H4 H5 H6 H7 H8).
Defined.

(** A label of more than 380 bytes comes back cut to 380. *)
Example long_label_is_cut :
  match AddCounter Example.encoder 1 0 (string_of_list_ascii (repeat "x"%char 400))
                   zero_memory with
  | Done (_, m') =>
    match GetCounterLabel Example.decoder 1 m' with
    | Done (l, None) => Some (len l)
    | _ => None
    end
  | _ => None
  end = Some 380.
Proof. vm_compute. reflexivity. Qed.

(** ** Freeing a counter *)

Lemma FreeCounter_cases (e : Encoder) (n : nat) (counterID : Z) (m : Memory) :
  Capacity (CountersMetadata (ELayout e)) = Z.of_nat n * metadataRecordLength ->
  FreeCounter e counterID m = Done (false, m)
  \/ exists j, (j < n)%nat /\
               slot_id (ELayout e) m j = counterID /\
               slot_status (ELayout e) m j = counterStatusAllocated /\
               (forall j', (j' < j)%nat -> slot_id (ELayout e) m j' <> counterID) /\
               FreeCounter e counterID m = Done (true, release (ELayout e) j counterID m).
Proof.
  intros Hcap. unfold FreeCounter. rewrite Hcap, scan_fuel_slots.
  destruct (FreeCounter_loop_cases (ELayout e) n counterID m Hcap (n + 2) 0)
    as [Hno|(j & Hj & Hid & Hst & Hfirst & Hrun)]; [lia | lia | by left |].
  right. exists j. repeat split; [lia | done | done | | done].
  intros j' Hj'. apply Hfirst. lia.
Qed.

Lemma release_id (L : Layout.Layout) (i : nat) (m : Memory) :
  slot_id L (release L i (slot_id L m i) m) i = slot_id L m i.
Proof.
  unfold slot_id at 1. rewrite release_word.
  rewrite extractID_makeIDStatus by (consts; lia).
  apply Z.mod_small, slot_id_range.
Qed.

(** X8.  A counter that FreeCounter has freed is gone for the reader and
    cannot be freed again: when FreeCounter(id) returns true on a section
    whose NotUsed slots form a suffix, both lookups of the id then return
    the NotAllocated error, and a second FreeCounter(id) returns false and
    stores nothing. *)
Theorem freed_counter_is_not_allocated (e : Encoder) (d : Decoder) (n : nat)
        (counterID : Z) (m m' : Memory) :
  Capacity (CountersMetadata (ELayout e)) = Z.of_nat n * metadataRecordLength ->
  DLayout d = ELayout e ->
  slots_inv (ELayout e) n m ->
  FreeCounter e counterID m = Done (true, m') ->
  GetCounterValue d counterID m' = Done (0, Some (ErrNotAllocated counterID)) /\
  GetCounterLabel d counterID m' = Done (EmptyString, Some (ErrNotAllocated counterID)) /\
  FreeCounter e counterID m' = Done (false, m').
Proof.
  intros Hcap Hd [_ Hsuffix] Hfree.
  destruct (FreeCounter_cases e n counterID m Hcap)
    as [Hno|(j & Hj & Hid & Hst & Hfirst & Hrun)]; [congruence|].
  rewrite Hrun in Hfree. injection Hfree as <-.
  set (m' := release (ELayout e) j counterID m).
  assert (Hst' : slot_status (ELayout e) m' j = counterStatusFreed)
    by apply release_status.
  assert (Hid' : slot_id (ELayout e) m' j = counterID).
  { unfold m'. rewrite <- Hid at 1. rewrite release_id. done. }
  assert (Hfirst' : forall j', (j' < j)%nat -> slot_id (ELayout e) m' j' <> counterID).
  { intros j' Hj'. unfold slot_id, m'. rewrite release_word_other by lia.
    by apply Hfirst. }
  assert (Hhor : (j < horizon (ELayout e) m' n)%nat).
  { apply horizon_gt; [done|]. intros k Hk.
    destruct (decide (k = j)) as [->|Hne]; [rewrite Hst'; by consts|].
    unfold m'. rewrite release_status_other by done. intros Hnu.
    assert (Hj' : slot_status (ELayout e) m j = counterStatusNotUsed)
      by (apply (Hsuffix k j); [lia|done]).
    rewrite Hst in Hj'. revert Hj'. by consts. }
  destruct (lookups_at d n j counterID m') as [Hv Hl]; rewrite ?Hd; try done.
  rewrite Hd in Hv, Hl.
  rewrite decide_False in Hv by (rewrite Hst'; by consts).
  rewrite decide_False in Hl by (rewrite Hst'; by consts).
  split; [done|]. split; [done|].
  destruct (FreeCounter_cases e n counterID m' Hcap)
    as [Hno|(j2 & Hj2 & Hid2 & Hst2 & Hfirst2 & _)]; [done|].
  exfalso.
  assert (j2 = j) as ->.
  { destruct (Nat.lt_trichotomy j2 j) as [Hlt|[->|Hgt]]; [|done|].
    - by destruct (Hfirst' j2 Hlt).
    - by destruct (Hfirst2 j Hgt). }
  rewrite Hst' in Hst2. revert Hst2. by consts.
Qed.

Lemma freed_counter_is_not_allocated_witness :
  Capacity (CountersMetadata (ELayout Example.encoder)) = Z.of_nat 2 * metadataRecordLength /\
  DLayout Example.decoder = ELayout Example.encoder /\
  slots_inv (ELayout Example.encoder) 2 Example.one_counter /\
  FreeCounter Example.encoder 7 Example.one_counter
  = Done (true, release Example.layout 0 7 Example.one_counter) /\
  GetCounterValue Example.decoder 7 (release Example.layout 0 7 Example.one_counter)
  = Done (0, Some (ErrNotAllocated 7)) /\
  GetCounterLabel Example.decoder 7 (release Example.layout 0 7 Example.one_counter)
  = Done (EmptyString, Some (ErrNotAllocated 7)) /\
  FreeCounter Example.encoder 7 (release Example.layout 0 7 Example.one_counter)
  = Done (false, release Example.layout 0 7 Example.one_counter).
Proof.
  assert (H1 : Capacity (CountersMetadata (ELayout Example.encoder))
               = Z.of_nat 2 * metadataRecordLength) by reflexivity.
  assert (H2 : DLayout Example.decoder = ELayout Example.encoder) by reflexivity.
  assert (H3 : slots_inv (ELayout Example.encoder) 2 Example.one_counter).
  { split.
    - intros i Hi. destruct i as [|[|i]]; [| |lia].
      + right; right; left. vm_compute. reflexivity.
      + left. vm_compute. reflexivity.
    - intros i j Hij _. assert (j = 1%nat) as -> by lia. vm_compute. reflexivity. }
  assert (H4 : FreeCounter Example.encoder 7 Example.one_counter
               = Done (true, release Example.layout 0 7 Example.one_counter)).
  { destruct (FreeCounter_cases Example.encoder 2 7 Example.one_counter H1)
      as [Hno|(j & Hj & Hid & Hst & Hfirst & Hrun)].
    - exfalso. revert Hno. unfold FreeCounter. rewrite H1, scan_fuel_slots.
      cbn [FreeCounter_loop Nat.add]. vm_compute. discriminate.
    - assert (j = 0%nat) as ->; [|done].
      destruct j as [|[|j]]; [done| |lia]. exfalso. revert Hid. vm_compute. discriminate. }
  repeat (split; [assumption|]).
  exact (freed_counter_is_not_allocated Example.encoder Example.decoder 2 7
           Example.one_counter _ H1 H2 H3 H4).
Defined.

(** ** A section that runs out of slots *)

(** X9.  AddCounter fails only when no slot is NotUsed or Freed: it then
    returns offset 0 with the no-free-space error, and this is its only
    error; a call that fails has stored nothing. *)
Theorem AddCounter_fails_only_when_full (e : Encoder) (n : nat)
        (counterID initialValue : Z) (label : string) (m : Memory) :
  layout_ok (ELayout e) n ->
  ((forall j, (j < n)%nat -> ~ is_free (slot_status (ELayout e) m j)) <->
   AddCounter e counterID initialValue label m = Done ((0, Some ErrNoFreeSpace), m)) /\
  (forall r err m',
      AddCounter e counterID initialValue label m = Done ((r, Some err), m') ->
      r = 0 /\ err = ErrNoFreeSpace /\ m' = m /\
      forall j, (j < n)%nat -> ~ is_free (slot_status (ELayout e) m j)).
Proof.
  intros Hok.
  destruct (AddCounter_cases e n counterID initialValue label m Hok)
    as [(i & Hi & Hf & Hlow & Hadd)|[Hnone Hadd]]; rewrite Hadd.
  - split.
    + split; [|intros [=]]. intros Hnone. by destruct (Hnone i Hi).
    + intros r err m' [=].
  - split; [done|]. by intros r err m' [= <- <- <-].
Qed.

Lemma AddCounter_fails_only_when_full_witness :
  layout_ok (ELayout Example.encoder) 2 /\
  ((forall j, (j < 2)%nat ->
              ~ is_free (slot_status (ELayout Example.encoder) Example.one_counter j)) <->
   AddCounter Example.encoder 9 1 "c" Example.one_counter
   = Done ((0, Some ErrNoFreeSpace), Example.one_counter)) /\
  (forall r err m',
      AddCounter Example.encoder 9 1 "c" Example.one_counter = Done ((r, Some err), m') ->
      r = 0 /\ err = ErrNoFreeSpace /\ m' = Example.one_counter /\
      forall j, (j < 2)%nat ->
                ~ is_free (slot_status (ELayout Example.encoder) Example.one_counter j)).
Proof.
  assert (H1 : layout_ok (ELayout Example.encoder) 2)
    by (split; [reflexivity | left; vm_compute; discriminate]).
  split; [exact H1|].
  exact (AddCounter_fails_only_when_full Example.encoder 2 9 1 "c" Example.one_counter H1).
Defined.

(** An encoder over an empty metadata section never adds a counter. *)
Example AddCounter_no_slots :
  match AddCounter (mkEncoder (mkLayout (NewBuffer 0 128) (NewBuffer 128 128)
                                        (NewBuffer 256 0) (NewBuffer 256 0)))
                   1 0 "a" zero_memory with
  | Done (r, _) => Some r
  | _ => None
  end = Some (0, Some ErrNoFreeSpace).
Proof. vm_compute. reflexivity. Qed.

(** Adding to a section whose first [k] slots are Allocated and whose
    others are NotUsed takes slot [k]. *)
Lemma filled_add (e : Encoder) (n k : nat) (counterID initialValue : Z) (label : string)
      (m : Memory) :
  layout_ok (ELayout e) n ->
  filled (ELayout e) n k m ->
  (k < n)%nat ->
  AddCounter e counterID initialValue label m
  = Done ((Z.of_nat k * valuesCounterLength, None),
          allocate (ELayout e) k counterID initialValue label m) /\
  filled (ELayout e) n (S k) (allocate (ELayout e) k counterID initialValue label m).
Proof.
  intros Hok Hfill Hk.
  assert (Hfree : is_free (slot_status (ELayout e) m k)).
  { left. rewrite Hfill by done. by rewrite decide_False by lia. }
  assert (Hlow : forall j, (j < k)%nat -> ~ is_free (slot_status (ELayout e) m j)).
  { intros j Hj. rewrite Hfill by lia. rewrite decide_True by done.
    intros [Hc|Hc]; revert Hc; by consts. }
  destruct (AddCounter_cases e n counterID initialValue label m Hok)
    as [(i & Hi & Hf & Hlow' & Hadd)|[Hnone _]]; [|by destruct (Hnone k Hk)].
  assert (i = k) as ->.
  { destruct (Nat.lt_trichotomy i k) as [Hlt|[->|Hgt]]; [|done|].
    - by destruct (Hlow i Hlt).
    - by destruct (Hlow' k Hgt). }
  split; [done|]. intros j Hj.
  destruct (decide (j = k)) as [->|Hne].
  - rewrite allocate_status. by rewrite decide_True by lia.
  - rewrite (allocate_status_other (ELayout e) n) by done. rewrite Hfill by done.
    destruct (decide (j < k)%nat), (decide (j < S k)%nat); try done; lia.
Qed.

Lemma filled_full (e : Encoder) (n : nat) (counterID initialValue : Z) (label : string)
      (m : Memory) :
  layout_ok (ELayout e) n ->
  filled (ELayout e) n n m ->
  AddCounter e counterID initialValue label m = Done ((0, Some ErrNoFreeSpace), m).
Proof.
  intros Hok Hfill.
  destruct (AddCounter_cases e n counterID initialValue label m Hok)
    as [(i & Hi & Hf & _)|[_ Hadd]]; [|done].
  exfalso. rewrite Hfill in Hf by done. rewrite decide_True in Hf by done.
  destruct Hf as [Hc|Hc]; revert Hc; by consts.
Qed.

Lemma run_adds_filled (e : Encoder) (n : nat) (cs : list (Z * Z * string)) :
  layout_ok (ELayout e) n ->
  forall (k : nat) (m : Memory),
    filled (ELayout e) n k m ->
    (k + length cs <= n)%nat ->
    exists m', run e (adds cs) m = Done m' /\ filled (ELayout e) n (k + length cs) m'.
Proof.
  intros Hok. induction cs as [|[[i v] l] cs IH]; intros k m Hfill Hlen; cbn in *.
  - exists m. by rewrite Nat.add_0_r.
  - destruct (filled_add e n k i v l m Hok Hfill) as [Hadd Hfill']; [lia|].
    rewrite Hadd.
    destruct (IH (S k) _ Hfill') as (m' & Hrun & Hfill''); [lia|].
    exists m'. split; [done|]. by rewrite Nat.add_succ_r.
Qed.

(** X10.  Counters added to a section of n slots that starts all NotUsed
    take the slots in order: after k <= n additions exactly the first k
    slots are Allocated, the next AddCounter returns the value offset
    k * 128, and once all n slots are taken it fails with the no-free-space
    error and stores nothing. *)
Theorem slots_fill_in_order (e : Encoder) (n : nat) (cs : list (Z * Z * string))
        (m0 : Memory) :
  layout_ok (ELayout e) n ->
  (forall i, (i < n)%nat -> slot_status (ELayout e) m0 i = counterStatusNotUsed) ->
  (length cs <= n)%nat ->
  exists m,
    run e (adds cs) m0 = Done m /\
    filled (ELayout e) n (length cs) m /\
    forall counterID initialValue label,
      if decide (length cs < n)%nat
      then exists m', AddCounter e counterID initialValue label m
                      = Done ((Z.of_nat (length cs) * valuesCounterLength, None), m')
      else AddCounter e counterID initialValue label m
           = Done ((0, Some ErrNoFreeSpace), m).
Proof.
  intros Hok Hempty Hlen.
  destruct (run_adds_filled e n cs Hok 0 m0) as (m & Hrun & Hfill); [|done|].
  { intros i Hi. rewrite Hempty by done. by rewrite decide_False by lia. }
  exists m. cbn in Hfill. split; [done|]. split; [done|].
  intros counterID initialValue label. destruct (decide _) as [Hlt|Hge].
  - eexists. by apply (filled_add e n (length cs) counterID initialValue label m).
  - assert (length cs = n) as Heq by lia. rewrite Heq in Hfill. by apply (filled_full e n).
Qed.

Lemma slots_fill_in_order_witness :
  layout_ok (ELayout Example.encoder) 2 /\
  (forall i, (i < 2)%nat ->
             slot_status (ELayout Example.encoder) zero_memory i = counterStatusNotUsed) /\
  (length [(1, 5, "a"%string); (2, 6, "b"%string)] <= 2)%nat /\
  exists m,
    run Example.encoder (adds [(1, 5, "a"%string); (2, 6, "b"%string)]) zero_memory
    = Done m /\
    filled (ELayout Example.encoder) 2 (length [(1, 5, "a"%string); (2, 6, "b"%string)]) m /\
    forall counterID initialValue label,
      if decide (length [(1, 5, "a"%string); (2, 6, "b"%string)] < 2)%nat
      then exists m', AddCounter Example.encoder counterID initialValue label m
                      = Done ((Z.of_nat (length [(1, 5, "a"%string); (2, 6, "b"%string)])
                               * valuesCounterLength, None), m')
      else AddCounter Example.encoder counterID initialValue label m
           = Done ((0, Some ErrNoFreeSpace), m).
Proof.
  assert (H1 : layout_ok (ELayout Example.encoder) 2)
    by (split; [reflexivity | left; vm_compute; discriminate]).
  assert (H2 : forall i, (i < 2)%nat ->
             slot_status (ELayout Example.encoder) zero_memory i = counterStatusNotUsed).
  { intros i Hi. destruct i as [|[|i]]; [vm_compute; reflexivity..|lia]. }
  assert (H3 : (length [(1, 5, "a"%string); (2, 6, "b"%string)] <= 2)%nat) by (cbn; lia).
  repeat (split; [assumption|]).
  exact (slots_fill_in_order Example.encoder 2 [(1, 5, "a"%string); (2, 6, "b"%string)]
                             zero_memory H1 H2 H3).
Defined.

(** ** Statics: labels that are missing, and sections that are too small *)

(** X11.  After a successful SetStatics(M), GetStaticValue of a label that
    M does not hold returns the empty string and the label-not-found
    error. *)
Theorem GetStaticValue_missing_label (e : Encoder) (d : Decoder)
        (statics : gmap string string) (m m' : Memory) (label : string) :
  Statics (DLayout d) = Statics (ELayout e) ->
  Capacity (Statics (ELayout e)) < 2 ^ 31 ->
  SetStatics e statics m = Done (None, m') ->
  statics !! label = None ->
  GetStaticValue d label m' = Done (EmptyString, Some (ErrLabelNotFound label)).
Proof.
  intros Hd Hcap Hset Hlookup. unfold GetStaticValue. rewrite Hd.
  assert (Hin : label ∉ sortedLabels statics).
  { rewrite elem_of_sortedLabels, Hlookup. by intros [? ?]. }
  destruct (SetStatics_Done e statics m m' Hset)
    as [[Hsz ->]|(Hsz & Hfit & ss & Hrec & Hexec)].
  - mem_unfold. statics_consts. by rewrite decode_load_store by lia.
  - change staticsNumberOfStaticsOffset with 0.
    rewrite (SetStatics_count e statics ss m m' Hcap Hfit Hrec Hexec), Nat2Z.id.
    rewrite (GetStaticValue_loop_reads _ statics label Hcap _ staticsRecordsOffset ss _ m'
                                       ltac:(by statics_consts) Hrec Hexec).
    by rewrite decide_False.
Qed.

Lemma GetStaticValue_missing_label_witness :
  Statics (DLayout Example.decoder) = Statics (ELayout Example.encoder) /\
  Capacity (Statics (ELayout Example.encoder)) < 2 ^ 31 /\
  exists m',
    SetStatics Example.encoder Example.statics zero_memory = Done (None, m') /\
    Example.statics !! "c"%string = None /\
    GetStaticValue Example.decoder "c" m'
    = Done (EmptyString, Some (ErrLabelNotFound "c")).
Proof.
  assert (H1 : Statics (DLayout Example.decoder) = Statics (ELayout Example.encoder))
    by reflexivity.
  assert (H2 : Capacity (Statics (ELayout Example.encoder)) < 2 ^ 31) by (by vm_compute).
  destruct (SetStatics_sized Example.encoder Example.statics zero_memory) as [m' H3];
    [by vm_compute|].
  assert (H4 : Example.statics !! "c"%string = None) by (by vm_compute).
  split; [exact H1|]. split; [exact H2|]. exists m'.
  split; [exact H3|]. split; [exact H4|].
  exact (GetStaticValue_missing_label Example.encoder Example.decoder Example.statics
           zero_memory m' "c" H1 H2 H3 H4).
Defined.

(** The records fit exactly when the section holds the summed record
    lengths. *)
Lemma SetStatics_records_error (statx : Buffer) (statics : gmap string string)
      (labels : list string) (offset : Z) :
  offset <= Capacity statx ->
  (SetStatics_records statx statics labels offset).2
  = if Capacity statx
       <? fold_left (fun l label =>
                       l + staticsRecordLength (len label) (len (mapIndex statics label)))
                    labels offset
    then Some (ErrPropertiesDontFit (Capacity statx)) else None.
Proof.
  revert offset. induction labels as [|label labels IH]; intros offset Hoff.
  - cbn [SetStatics_records fold_left snd].
    by destruct (Z.ltb_spec (Capacity statx) offset); [lia|].
  - cbn [SetStatics_records fold_left]. rewrite Z.gtb_ltb.
    pose proof (records_length_le statics labels
                  (offset + staticsRecordLength (len label) (len (mapIndex statics label))))
      as Hle.
    destruct (Z.ltb_spec (Capacity statx)
                (offset + staticsRecordLength (len label) (len (mapIndex statics label))))
      as [Hout|Hfit].
    + cbn [snd].
      match goal with |- context [?a <? ?b] => destruct (Z.ltb_spec a b) end; [done|lia].
    + specialize (IH _ Hfit).
      destruct (SetStatics_records statx statics labels _) as [ss err]. done.
Qed.

(** X12.  SetStatics performs its stores and returns; it fails exactly when
    the map is not empty and the section is shorter than 4 bytes (too small,
    nothing stored) or than the end of the last record (properties do not
    fit).  In the second case the count of the whole map is stored already,
    although not every record was written. *)
Theorem SetStatics_errors (e : Encoder) (statics : gmap string string) (m : Memory) :
  let statx := Statics (ELayout e) in
  let err :=
    if (size statics =? 0)%nat then None
    else if Capacity statx <? staticsRecordsOffset
         then Some (ErrStaticsBufferTooSmall (Capacity statx))
         else if Capacity statx <? recordsEnd statics
              then Some (ErrPropertiesDontFit (Capacity statx))
              else None in
  exists m',
    SetStatics e statics m = Done (err, m') /\
    (err = Some (ErrStaticsBufferTooSmall (Capacity statx)) -> m' = m) /\
    (err = Some (ErrPropertiesDontFit (Capacity statx)) ->
     GetInt32Volatile statx staticsNumberOfStaticsOffset m'
     = int32 (Z.of_nat (size statics))).
Proof.
  cbn zeta. unfold SetStatics, SetStatics_stores.
  destruct (Nat.eqb_spec (size statics) 0) as [Hsz|Hsz].
  { cbn [exec_stores exec_store]. eexists. split; [done|]. split; intros [=]. }
  rewrite Z.gtb_ltb. statics_consts.
  destruct (Z.ltb_spec (Capacity (Statics (ELayout e))) (0 + 4)) as [Hsmall|Hfit].
  { destruct (Z.ltb_spec (Capacity (Statics (ELayout e))) 4) as [_|]; [|lia].
    cbn [exec_stores]. exists m. split; [done|]. split; [done|]. intros [=]. }
  destruct (Z.ltb_spec (Capacity (Statics (ELayout e))) 4) as [|_]; [lia|].
  pose proof (SetStatics_records_error (Statics (ELayout e)) statics
                (sortedLabels statics) 4 ltac:(lia)) as Herr.
  destruct (SetStatics_records _ statics (sortedLabels statics) 4) as [ss err] eqn:Hrec.
  cbn [snd] in Herr. fold (recordsEnd statics) in Herr.
  destruct (exec_stores_total (Statics (ELayout e))
              (StPutInt32Volatile 0 (int32 (Z.of_nat (length (sortedLabels statics)))) :: ss)
              m) as [m' Hexec].
  rewrite Hexec. exists m'. unfold recordsEnd. statics_consts.
  split; [by rewrite Herr|]. split.
  { by destruct (_ <? _). }
  intros _. cbn [exec_stores exec_store] in Hexec.
  unfold GetInt32Volatile.
  rewrite (SetStatics_records_frame _ _ _ _ _ _ _ _ _ _ Hrec Hexec) by lia.
  mem_unfold. rewrite decode_load_store.
  change (256 ^ Z.of_nat 4) with (2 ^ 32). rewrite int32_mod.
  rewrite sortedLabels_length.
  apply int32_id, int32_is_int32.
Qed.

(** A section of 16 bytes is too short for the two records of 10 bytes
    each: the call fails, and the count reads 2. *)
Example SetStatics_does_not_fit :
  match SetStatics (mkEncoder (mkLayout (NewBuffer 0 128) (NewBuffer 128 16)
                                        (NewBuffer 256 1024) (NewBuffer 1280 256)))
                   Example.statics zero_memory with
  | Done (err, m') => Some (err, GetInt32Volatile (NewBuffer 128 16) 0 m',
                            GetInt32 (NewBuffer 128 16) 4 m',
                            GetInt32 (NewBuffer 128 16) 14 m')
  | _ => None
  end = Some (Some (ErrPropertiesDontFit 16), 2, 1, 0).
Proof. vm_compute. reflexivity. Qed.

(** ** The lengths of the sections *)

Lemma recordsEnd_lower (statics : gmap string string) :
  size statics <> 0%nat -> staticsRecordsOffset + 8 <= recordsEnd statics.
Proof.
  intros Hsz. unfold recordsEnd.
  pose proof (sortedLabels_length statics) as Hlen.
  destruct (sortedLabels statics) as [|label labels]; [cbn in Hlen; lia|].
  cbn [fold_left].
  pose proof (records_length_le statics labels
    (staticsRecordsOffset + staticsRecordLength (len label) (len (mapIndex statics label)))).
  pose proof (staticsRecordLength_bounds (len label) (len (mapIndex statics label))).
  pose proof (len_nonneg label). pose proof (len_nonneg (mapIndex statics label)). lia.
Qed.

Lemma Align_128_divide (v : Z) : (128 | Align v (sizeOfCacheLine * 2)).
Proof.
  change (sizeOfCacheLine * 2) with (2 ^ 7). rewrite Align_pow2 by lia.
  change (2 ^ 7) with 128. by apply Z.divide_factor_r.
Qed.

Lemma StaticsLength_empty (statics : gmap string string) :
  size statics = 0%nat -> StaticsLength statics = 4.
Proof. intros Hsz. unfold StaticsLength. by rewrite Hsz. Qed.

Lemma StaticsLength_nonempty (statics : gmap string string) :
  size statics <> 0%nat ->
  StaticsLength statics = Align (recordsEnd statics) (sizeOfCacheLine * 2).
Proof.
  intros Hsz. unfold StaticsLength.
  by destruct (Nat.eqb_spec (size statics) 0).
Qed.

(** X13.  StaticsLength of a map that is not empty is the end of its last
    record, at least 12, rounded up to the next multiple of 128; of an empty
    map it is 4, which is not rounded. *)
Theorem StaticsLength_rounds_up (statics : gmap string string) :
  (size statics = 0%nat -> StaticsLength statics = 4) /\
  (size statics <> 0%nat ->
   (128 | StaticsLength statics) /\
   12 <= recordsEnd statics <= StaticsLength statics /\
   StaticsLength statics < recordsEnd statics + 128).
Proof.
  split; [apply StaticsLength_empty|]. intros Hsz.
  rewrite StaticsLength_nonempty by done.
  split; [apply Align_128_divide|].
  pose proof (recordsEnd_lower statics Hsz) as Hlo. statics_consts.
  change (sizeOfCacheLine * 2) with (2 ^ 7).
  pose proof (Align_bounds (recordsEnd statics) 7 ltac:(lia)). lia.
Qed.

Example StaticsLength_of_two_entries :
  (recordsEnd Example.statics, StaticsLength Example.statics, StaticsLength ∅) = (28, 128, 4).
Proof. vm_compute. reflexivity. Qed.

(** ** The header, written and read *)

Ltac header_consts :=
  change headerCountersVersionOffset with 0 in *;
  change headerStaticsLengthOffset with 4 in *;
  change headerMetadataLengthOffset with 8 in *;
  change headerValuesLengthOffset with 12 in *;
  change headerPidOffsert with 16 in *;
  change headerStartTimeOffsert with 24 in *;
  change HeaderLength with 128 in *.


Lemma NewDecoder_NewEncoder (buf : Buffer) (staticsLength metadataLength valuesLength : Z)
      (m : Memory) :
  is_int32 staticsLength -> is_int32 metadataLength -> is_int32 valuesLength ->
  DLayout (NewDecoder buf (NewEncoder buf staticsLength metadataLength valuesLength m).2)
  = ELayout (NewEncoder buf staticsLength metadataLength valuesLength m).1.
Proof.
  intros Hs Hm Hv. unfold NewDecoder, NewEncoder, NewEncoderWithBuffers.
  cbn [fst snd DLayout ELayout]. mem_unfold. header_consts.
  cbn [Slice addr capacity Capacity].
  repeat first [ rewrite decode_load_store' by lia
               | rewrite load_store_disjoint by (rewrite ?length_encode_le; lia) ].
  change (256 ^ Z.of_nat 4) with (2 ^ 32). rewrite !int32_mod.
  rewrite !(int32_id _ (int32_is_int32 _)).
  rewrite (int32_id _ Hs), (int32_id _ Hm), (int32_id _ Hv).
  by rewrite Z.add_assoc.
Qed.

(** X14.  A decoder made over the buffer an encoder was made over finds the
    encoder's four sections, as long as each length fits an int32: NewDecoder
    reads back the three lengths that NewEncoder stores in the header. *)
Theorem NewDecoder_finds_the_sections (buf : Buffer)
        (staticsLength metadataLength valuesLength : Z) (m : Memory) :
  is_int32 staticsLength -> is_int32 metadataLength -> is_int32 valuesLength ->
  let '(e, m') := NewEncoder buf staticsLength metadataLength valuesLength m in
  DLayout (NewDecoder buf m') = ELayout e /\
  Capacity (Statics (ELayout e)) = staticsLength /\
  Capacity (CountersMetadata (ELayout e)) = metadataLength /\
  Capacity (CountersValues (ELayout e)) = valuesLength /\
  Address (Statics (ELayout e)) = Address buf + HeaderLength /\
  Address (CountersMetadata (ELayout e)) = Address (Statics (ELayout e)) + staticsLength /\
  Address (CountersValues (ELayout e))
  = Address (CountersMetadata (ELayout e)) + metadataLength.
Proof.
  intros Hs Hm Hv.
  pose proof (NewDecoder_NewEncoder buf staticsLength metadataLength valuesLength m Hs Hm Hv)
    as Hd.
  destruct (NewEncoder buf staticsLength metadataLength valuesLength m) as [e m'] eqn:Henc.
  split; [done|].
  unfold NewEncoder, NewEncoderWithBuffers in Henc. injection Henc as <- _.
  cbn. repeat split; lia.
Qed.

Lemma NewDecoder_finds_the_sections_witness :
  is_int32 128 /\ is_int32 1024 /\ is_int32 256 /\
  let '(e, m') := NewEncoder (NewBuffer 0 4096) 128 1024 256 zero_memory in
  DLayout (NewDecoder (NewBuffer 0 4096) m') = ELayout e /\
  Capacity (Statics (ELayout e)) = 128 /\
  Capacity (CountersMetadata (ELayout e)) = 1024 /\
  Capacity (CountersValues (ELayout e)) = 256 /\
  Address (Statics (ELayout e)) = Address (NewBuffer 0 4096) + HeaderLength /\
  Address (CountersMetadata (ELayout e)) = Address (Statics (ELayout e)) + 128 /\
  Address (CountersValues (ELayout e))
  = Address (CountersMetadata (ELayout e)) + 1024.
Proof.
  assert (H1 : is_int32 128) by (unfold is_int32; lia).
  assert (H2 : is_int32 1024) by (unfold is_int32; lia).
  assert (H3 : is_int32 256) by (unfold is_int32; lia).
  repeat (split; [assumption|]).
  exact (NewDecoder_finds_the_sections (NewBuffer 0 4096) 128 1024 256 zero_memory H1 H2 H3).
Defined.

(** A length that no int32 holds is read back wrapped. *)
Example NewDecoder_wraps_long_section :
  Capacity (Statics (DLayout (NewDecoder (NewBuffer 0 4096)
                               (NewEncoder (NewBuffer 0 4096) (2 ^ 31) 0 0 zero_memory).2)))
  = - 2 ^ 31.
Proof. vm_compute. reflexivity. Qed.

(** ** What the initialisation of a writer leaves in the mapping *)

(** Stores between two offsets leave the bytes outside as they were. *)
Lemma exec_stores_outside (b : Buffer) (lo hi : Z) (ss : list store) (m m' : Memory) (x : Z) :
  Forall (fun s => lo <= store_offset s /\ store_end s <= hi) ss ->
  exec_stores b ss m = Some m' ->
  x < addr b + lo \/ addr b + hi <= x ->
  m' x = m x.
Proof.
  intros Hss. revert m. induction Hss as [|s ss [Hlo Hhi] Hss IH]; intros m Hexec Hx.
  - cbn in Hexec. by injection Hexec as <-.
  - cbn [exec_stores] in Hexec.
    destruct s as [o v|o v|o bs]; cbn [exec_store store_offset store_end] in *;
      rewrite ?PutBytes_store in Hexec;
      rewrite (IH _ Hexec Hx); mem_unfold;
      apply store_bytes_outside; rewrite ?length_encode_le; lia.
Qed.

Lemma SetStatics_records_within (statx : Buffer) (statics : gmap string string)
      (labels : list string) :
  forall (offset : Z) (ss : list store) (err : option error),
    SetStatics_records statx statics labels offset = (ss, err) ->
    Forall (fun s => offset <= store_offset s /\ store_end s <= Capacity statx) ss.
Proof.
  induction labels as [|label labels IH]; intros offset ss err Hrec.
  - cbn in Hrec. injection Hrec as <- _. constructor.
  - cbn [SetStatics_records] in Hrec. rewrite Z.gtb_ltb in Hrec.
    destruct (Z.ltb_spec (Capacity statx)
                (offset + staticsRecordLength (len label) (len (mapIndex statics label))))
      as [|Hfit]; [injection Hrec as <- _; constructor|].
    destruct (SetStatics_records statx statics labels _) as [ss' err'] eqn:Hrest.
    injection Hrec as <- _.
    pose proof (staticsRecordLength_bounds (len label) (len (mapIndex statics label))).
    pose proof (len_nonneg label). pose proof (len_nonneg (mapIndex statics label)).
    statics_consts.
    repeat (constructor;
            [cbn [store_offset store_end];
             rewrite ?length_list_ascii_of_string; unfold len in *; lia|]).
    eapply Forall_impl; [apply (IH _ _ _ Hrest)|]. intros s Hs. cbn beta in Hs. lia.
Qed.

(** SetStatics stores within the statics section, or within its first four
    bytes where the section is shorter. *)
Lemma SetStatics_outside (e : Encoder) (statics : gmap string string) (m m' : Memory)
      (err : option error) (x : Z) :
  SetStatics e statics m = Done (err, m') ->
  x < addr (Statics (ELayout e))
  \/ addr (Statics (ELayout e)) + Z.max 4 (Capacity (Statics (ELayout e))) <= x ->
  m' x = m x.
Proof.
  unfold SetStatics, SetStatics_stores. intros Hset Hx.
  destruct (size statics =? 0)%nat.
  { cbn [exec_stores exec_store] in Hset. injection Hset as _ <-.
    mem_unfold. apply store_bytes_outside. rewrite length_encode_le. lia. }
  destruct (_ >? _); [cbn in Hset; by injection Hset as _ <-|].
  destruct (SetStatics_records _ statics (sortedLabels statics) staticsRecordsOffset)
    as [ss err'] eqn:Hrec.
  destruct (exec_stores _ _ m) as [m1|] eqn:Hexec; [|done].
  injection Hset as _ <-.
  eapply (exec_stores_outside _ 0 (Z.max 4 (Capacity (Statics (ELayout e)))));
    [|exact Hexec|lia].
  constructor; [cbn [store_offset store_end]; lia|].
  eapply Forall_impl; [apply (SetStatics_records_within _ _ _ _ _ _ Hrec)|].
  intros s Hs. cbn beta in Hs. statics_consts. lia.
Qed.

(** The pages of a new file are zero, and the stores that touch them store
    zeros. *)
Lemma encode_le_zero (n : nat) (k : nat) (b : byte) :
  encode_le n 0 !! k = Some b -> b = zero.
Proof.
  revert k. induction n as [|n IH]; intros k; [done|].
  cbn [encode_le]. change (0 / 256) with 0.
  destruct k as [|k]; [by intros [= <-]|]. apply IH.
Qed.

Lemma zero_on_fresh_pages (a size : Z) (m : Memory) : zero_on a size (fresh_pages a size m).
Proof.
  intros x Hx. unfold fresh_pages.
  destruct (Z.leb_spec a x); [|lia]. destruct (Z.ltb_spec x (a + size)); [done|lia].
Qed.

Lemma zero_on_pretouch (a size : Z) (buf : Buffer) (alignedSize pageSize : Z) (fuel : nat) :
  forall (position : Z) (m : Memory),
    zero_on a size m -> zero_on a size (pretouch fuel buf alignedSize pageSize position m).
Proof.
  induction fuel as [|fuel IH]; intros position m Hz; [done|].
  cbn [pretouch]. destruct (position <? alignedSize); [|done].
  apply IH. intros x Hx. unfold PutInt64, store_bytes.
  destruct (addr buf + position <=? x); [|by apply Hz].
  destruct (encode_le 8 0 !! _) as [b|] eqn:Hb; [|by apply Hz].
  by apply encode_le_zero in Hb.
Qed.

Lemma load_bytes_zero (a size : Z) (m : Memory) (x : Z) (n : nat) :
  zero_on a size m -> a <= x -> x + Z.of_nat n <= a + size ->
  load_bytes m x n = load_bytes zero_memory x n.
Proof.
  intros Hz Hlo Hhi. apply load_bytes_ext. intros y Hy. unfold zero_memory.
  apply Hz. lia.
Qed.

(** What NewWriterForFile has done when it returns a writer. *)
Lemma NewWriterForFile_inv (env : Env) (filename : string)
      (statics : gmap string string) (maxNumbersOfCounters : Z) (world world' : World)
      (w : Writer) (err : option error) :
  NewWriterForFile env filename statics maxNumbersOfCounters world
  = Done ((Some w, err), world') ->
  let size := Layout.Align (HeaderLength + StaticsLength statics
                            + MetadataLength maxNumbersOfCounters
                            + ValuesLength maxNumbersOfCounters) (pageSize env) in
  let buf := NewBuffer (mmapAddr env) (align size (pageSize env)) in
  let m0 := pretouch (Z.to_nat (align size (pageSize env))) buf
                     (align size (pageSize env)) (pageSize env) 0
                     (fresh_pages (mmapAddr env) (align size (pageSize env))
                                  (memory world)) in
  let enc := (NewEncoder buf (StaticsLength statics) (MetadataLength maxNumbersOfCounters)
                         (ValuesLength maxNumbersOfCounters) m0).1 in
  let m1 := (NewEncoder buf (StaticsLength statics) (MetadataLength maxNumbersOfCounters)
                        (ValuesLength maxNumbersOfCounters) m0).2 in
  0 <= maxNumbersOfCounters <= MaxPossibleNumberOfCounters /\
  (filename ∉ files world) /\
  err = None /\
  w = mkWriter filename (-1) 0 buf enc (CountersValues (ELayout enc)) /\
  exists m2,
    SetStatics enc statics
               (SetStartTime enc (int64 (unixNano env / 1000000))
                             (SetPid enc (int64 (pid env)) m1)) = Done (None, m2) /\
    world' = mkWorld (SetVersion enc CountersVersion m2)
                     ({[ filename ]} ∪ files world)
                     ((mmapAddr env, align size (pageSize env)) :: mapped world)
                     (munmaps world).
Proof.
  cbn zeta. unfold NewWriterForFile.
  rewrite Z.gtb_ltb.
  destruct (Z.ltb_spec maxNumbersOfCounters 0) as [|Hlo]; [done|].
  destruct (Z.ltb_spec MaxPossibleNumberOfCounters maxNumbersOfCounters) as [|Hhi]; [done|].
  cbn [orb].
  destruct (MapNewFile env filename _ world) as [[[buf|] err'] world1] eqn:Hmap; [|done].
  destruct (MapNewFile_inv _ _ _ _ _ _ _ Hmap) as (Hin & _ & _ & _ & _ & _ & -> & ->).
  cbn [memory].
  destruct (NewEncoder _ _ _ _ _) as [enc m1] eqn:Henc. cbn [fst snd].
  destruct (SetStatics_sized enc statics
              (SetStartTime enc (int64 (unixNano env / 1000000))
                            (SetPid enc (int64 (pid env)) m1))) as [m2 Hset].
  { unfold NewEncoder, NewEncoderWithBuffers in Henc. by injection Henc as <- _. }
  rewrite Hset. intros [= <- <- <-].
  split; [lia|]. split; [done|]. split; [done|]. split; [done|].
  exists m2. split; [done|]. done.
Qed.




Lemma StaticsLength_lower (statics : gmap string string) : 4 <= StaticsLength statics.
Proof.
  destruct (decide (size statics = 0%nat)) as [Hsz|Hsz].
  - by rewrite StaticsLength_empty.
  - rewrite StaticsLength_nonempty by done.
    pose proof (recordsEnd_lower statics Hsz). statics_consts.
    change (sizeOfCacheLine * 2) with (2 ^ 7).
    pose proof (Align_bounds (recordsEnd statics) 7 ltac:(lia)). lia.
Qed.



(** ** A new mapping, and a writer before any counter is added *)

Lemma align_lower (v k : Z) : 0 <= k -> v <= align v (2 ^ k).
Proof. intros Hk. apply (Align_bounds v k Hk). Qed.

Lemma decode_zero (x : Z) : decode_le (load_bytes zero_memory x 8) = 0.
Proof. reflexivity. Qed.

Lemma horizon_empty (L : Layout.Layout) (m : Memory) (n : nat) :
  (forall i, (i < n)%nat -> slot_status L m i = counterStatusNotUsed) ->
  horizon L m n = 0%nat.
Proof.
  intros Hempty. unfold horizon.
  destruct (list_find _ (seq 0 n)) as [[p x]|] eqn:Hfind.
  - apply list_find_Some in Hfind as (Hp & _ & Hfirst).
    destruct p as [|p]; [done|]. exfalso.
    apply lookup_lt_Some in Hp as Hlt. rewrite length_seq in Hlt.
    apply (Hfirst 0%nat 0%nat); [by apply lookup_seq_lt; lia | lia |].
    apply Hempty. lia.
  - apply list_find_None in Hfind. destruct n as [|n]; [done|]. exfalso.
    apply Forall_forall with (x := 0%nat) in Hfind.
    + apply Hfind, Hempty. lia.
    + apply elem_of_seq. lia.
Qed.

(** A section with no slot in use gives a reader nothing. *)
Lemma empty_section_reads (d : Decoder) (n : nat) (m : Memory) :
  Capacity (CountersMetadata (DLayout d)) = Z.of_nat n * metadataRecordLength ->
  (forall i, (i < n)%nat -> slot_status (DLayout d) m i = counterStatusNotUsed) ->
  (forall (A : Type) (consumer : Z -> Z -> string -> A -> bool * A) (acc : A),
      ForEachCounter d consumer m acc = Done acc) /\
  (forall counterID,
      GetCounterValue d counterID m = Done (0, Some (ErrNotFound counterID)) /\
      GetCounterLabel d counterID m = Done (EmptyString, Some (ErrNotFound counterID))).
Proof.
  intros Hcap Hempty. pose proof (horizon_empty _ _ _ Hempty) as Hhor. split.
  - intros A consumer acc. unfold ForEachCounter. rewrite Hcap, scan_fuel_slots.
    pose proof (ForEachCounter_loop_spec (DLayout d) n consumer m Hcap n (n + 2) 0 acc)
      as Hspec.
    rewrite live_prefix_seq, Hhor in Hspec.
    apply Hspec; [lia | lia |]. intros i Hi. by apply elem_of_nil in Hi.
  - intros counterID.
    assert (Hv := GetCounterValue_loop_spec (DLayout d) n counterID m Hcap n (n + 2) 0).
    assert (Hl := GetCounterLabel_loop_spec (DLayout d) n counterID m Hcap n (n + 2) 0).
    rewrite live_prefix_seq, Hhor in Hv, Hl.
    change (Z.of_nat 0 * metadataRecordLength) with 0 in *.
    change (Z.of_nat 0 * valuesCounterLength) with 0 in *.
    unfold GetCounterValue, GetCounterLabel. rewrite Hcap, scan_fuel_slots.
    rewrite Hv, Hl by lia. done.
Qed.

(** X16.  A writer that NewWriterForFile has just returned holds no
    counter, where the page size is a power of two: every slot word and
    every value is zero, so that every slot is NotUsed, ForEachCounter calls
    its sink for nothing and every lookup fails with the not-found error. *)
Theorem fresh_writer_has_no_counters (env : Env) (filename : string)
        (statics : gmap string string) (maxNumbersOfCounters : Z) (world world' : World)
        (w : Writer) (err : option error) (k : Z) :
  NewWriterForFile env filename statics maxNumbersOfCounters world
  = Done ((Some w, err), world') ->
  0 <= k -> pageSize env = 2 ^ k ->
  let L := ELayout (encoder w) in
  let n := Z.to_nat maxNumbersOfCounters in
  (forall i, (i < n)%nat -> slot_word L (memory world') i = 0 /\
                            slot_value L (memory world') i = 0) /\
  filled L n 0 (memory world') /\
  slots_inv L n (memory world') /\
  ids_drawn w n (memory world') /\
  forall d, DLayout d = L ->
    (forall (A : Type) (consumer : Z -> Z -> string -> A -> bool * A) (acc : A),
        ForEachCounter d consumer (memory world') acc = Done acc) /\
    (forall counterID,
        GetCounterValue d counterID (memory world')
        = Done (0, Some (ErrNotFound counterID)) /\
        GetCounterLabel d counterID (memory world')
        = Done (EmptyString, Some (ErrNotFound counterID))).
Proof.
  intros Hnew Hk Hpage.
  destruct (NewWriterForFile_fresh _ _ _ _ _ _ _ _ Hnew) as (_ & _ & _ & Hok).
  destruct (NewWriterForFile_inv _ _ _ _ _ _ _ _ Hnew)
    as (Hmax & _ & _ & -> & m2 & Hset & ->).
  cbn [buffer encoder memory] in *. cbn zeta.
  set (size := Layout.Align _ _) in *.
  set (buf := NewBuffer (mmapAddr env) (align size (pageSize env))) in *.
  set (m0 := pretouch _ _ _ _ _ _) in *.
  set (enc := (NewEncoder buf _ _ _ m0).1) in *.
  set (m1 := (NewEncoder buf _ _ _ m0).2) in *.
  set (m' := SetVersion enc CountersVersion m2).
  set (n := Z.to_nat maxNumbersOfCounters) in *.
  pose proof (StaticsLength_lower statics) as Hsl0.
  assert (Hz0 : zero_on (mmapAddr env) (align size (pageSize env)) m0).
  { apply zero_on_pretouch, zero_on_fresh_pages. }
  assert (Hsize : HeaderLength + StaticsLength statics
                  + MetadataLength maxNumbersOfCounters
                  + ValuesLength maxNumbersOfCounters <= align size (pageSize env)).
  { rewrite Hpage. etrans; [|apply align_lower; done].
    unfold size. rewrite Hpage. apply (Align_bounds _ k Hk). }
  unfold MetadataLength, ValuesLength in Hsize. header_consts. consts.
  assert (Hmd : addr (CountersMetadata (ELayout enc))
                = mmapAddr env + (128 + StaticsLength statics)) by reflexivity.
  assert (Hvs : addr (CountersValues (ELayout enc))
                = mmapAddr env + (128 + StaticsLength statics + maxNumbersOfCounters * 512))
    by reflexivity.
  assert (Hzero : forall x, mmapAddr env + (128 + StaticsLength statics) <= x
                            < mmapAddr env + align size (pageSize env) -> m' x = zero).
  { intros x Hx. unfold m', SetVersion.
    change (Header (ELayout enc)) with (Slice buf 0 HeaderLength).
    mem_unfold. header_consts. cbn [Slice addr].
    rewrite store_bytes_outside by (rewrite length_encode_le; cbn [buf addr]; lia).
    rewrite (SetStatics_outside enc statics _ m2 None x Hset)
      by (right; change (Capacity (Statics (ELayout enc))) with (StaticsLength statics);
          change (addr (Statics (ELayout enc))) with (mmapAddr env + 128); lia).
    unfold SetStartTime, SetPid.
    change (Header (ELayout enc)) with (Slice buf 0 HeaderLength).
    mem_unfold. header_consts. cbn [Slice addr buf].
    rewrite !store_bytes_outside by (rewrite length_encode_le; lia).
    unfold m1, NewEncoder, NewEncoderWithBuffers. cbn [snd].
    mem_unfold. header_consts. cbn [Slice addr buf].
    rewrite !store_bytes_outside by (rewrite length_encode_le; lia).
    apply Hz0. lia. }
  assert (Hwords : forall i, (i < n)%nat ->
            slot_word (ELayout enc) m' i = 0 /\ slot_value (ELayout enc) m' i = 0).
  { intros i Hi. unfold slot_word, slot_value. mem_unfold. consts. rewrite Hmd, Hvs.
    rewrite !(load_bytes_ext m' zero_memory)
      by (intros x Hx; unfold zero_memory; apply Hzero; unfold n in Hi; lia).
    done. }
  assert (Hempty : forall i, (i < n)%nat ->
            slot_status (ELayout enc) m' i = counterStatusNotUsed).
  { intros i Hi. unfold slot_status. by rewrite (proj1 (Hwords i Hi)). }
  split; [done|].
  split. { intros i Hi. rewrite Hempty by done. by rewrite decide_False by lia. }
  split. { split; [intros i Hi; left; by apply Hempty|]. intros i j Hij _. apply Hempty. lia. }
  split. { intros i Hi Hused. by destruct Hused; apply Hempty. }
  intros d Hd. destruct Hok as [Hcap _].
  apply (empty_section_reads d n m'); rewrite Hd; done.
Qed.

Lemma fresh_writer_has_no_counters_witness :
  exists w world',
    NewWriterForFile Example.env "f" Example.statics 2 Example.world
    = Done ((Some w, None), world') /\
    0 <= 12 /\ pageSize Example.env = 2 ^ 12 /\
    let L := ELayout (encoder w) in
    let n := Z.to_nat 2 in
    (forall i, (i < n)%nat -> slot_word L (memory world') i = 0 /\
                              slot_value L (memory world') i = 0) /\
    filled L n 0 (memory world') /\
    slots_inv L n (memory world') /\
    ids_drawn w n (memory world') /\
    forall d, DLayout d = L ->
      (forall (A : Type) (consumer : Z -> Z -> string -> A -> bool * A) (acc : A),
          ForEachCounter d consumer (memory world') acc = Done acc) /\
      (forall counterID,
          GetCounterValue d counterID (memory world')
          = Done (0, Some (ErrNotFound counterID)) /\
          GetCounterLabel d counterID (memory world')
          = Done (EmptyString, Some (ErrNotFound counterID))).
Proof.
  destruct (NewWriterForFile_returns Example.env "f" Example.statics 2 12 Example.world)
    as (w & world' & Hnew).
  { change MaxPossibleNumberOfCounters with 10000. lia. }
  { apply not_elem_of_empty. }
  { lia. }
  { reflexivity. }
  { reflexivity. }
  { reflexivity. }
  { reflexivity. }
  assert (H2 : 0 <= 12) by lia.
  assert (H3 : pageSize Example.env = 2 ^ 12) by reflexivity.
  exists w, world'. split; [exact Hnew|]. split; [exact H2|]. split; [exact H3|].
  exact (fresh_writer_has_no_counters Example.env "f" Example.statics 2 Example.world world'
                                      w None 12 Hnew H2 H3).
Defined.

(** A reader refuses a buffer whose first four bytes are zero. *)
Lemma NewReader_zero_version (buf : Buffer) (m : Memory) :
  (forall x, addr buf <= x < addr buf + 4 -> m x = zero) ->
  NewReader buf m = (None, Some ErrNotInitialized).
Proof.
  intros Hz. unfold NewReader, Version, NewDecoder. cbn [DLayout Header].
  mem_unfold. header_consts. cbn [Slice addr].
  rewrite (load_bytes_ext m zero_memory)
    by (intros x Hx; unfold zero_memory; apply Hz; lia).
  done.
Qed.

(** X17.  Until SetVersion has run, a reader refuses the file as not
    initialised: on the new mapping, and after NewEncoder, SetPid,
    SetStartTime and SetStatics, the version field still reads zero.  The
    version is the last store of the initialisation.  The mapping is the one
    MapNewFile returns when the file is new and no call of the system
    fails. *)
Theorem reader_refuses_unfinished_file (env : Env) (filename : string) (size k : Z)
        (world : World) (staticsLength metadataLength valuesLength p t : Z)
        (statics : gmap string string) :
  0 <= k -> pageSize env = 2 ^ k -> 4 <= size ->
  filename ∉ files world ->
  openFileError env = None -> truncateError env = None -> mmapError env = None ->
  exists buf world1,
    MapNewFile env filename size world = ((Some buf, None), world1) /\
    (let '(enc, m1) :=
       NewEncoder buf staticsLength metadataLength valuesLength (memory world1) in
     let m2 := SetPid enc p m1 in
     let m3 := SetStartTime enc t m2 in
     NewReader buf (memory world1) = (None, Some ErrNotInitialized) /\
     NewReader buf m1 = (None, Some ErrNotInitialized) /\
     NewReader buf m2 = (None, Some ErrNotInitialized) /\
     NewReader buf m3 = (None, Some ErrNotInitialized) /\
     (forall err m4, SetStatics enc statics m3 = Done (err, m4) ->
                     NewReader buf m4 = (None, Some ErrNotInitialized))).
Proof.
  intros Hk Hpage Hsize Hfile Hopen Htrunc Hmmap.
  assert (Hal : size <= align size (pageSize env)).
  { rewrite Hpage. by apply align_lower. }
  rewrite MapNewFile_returns by (done || lia).
  eexists _, _. split; [done|]. cbn [memory].
  set (buf := NewBuffer (mmapAddr env) (align size (pageSize env))).
  set (m0 := pretouch _ _ _ _ _ _).
  assert (Hz0 : zero_on (mmapAddr env) (align size (pageSize env)) m0).
  { apply zero_on_pretouch, zero_on_fresh_pages. }
  destruct (NewEncoder buf staticsLength metadataLength valuesLength m0) as [enc m1] eqn:Henc.
  unfold NewEncoder, NewEncoderWithBuffers in Henc. injection Henc as <- <-.
  cbn zeta.
  assert (H0 : forall x, addr buf <= x < addr buf + 4 -> m0 x = zero).
  { intros x Hx. apply Hz0. cbn [buf addr] in Hx. lia. }
  set (enc := mkEncoder _).
  set (m1 := PutInt32 _ _ _ _).
  assert (H1 : forall x, addr buf <= x < addr buf + 4 -> m1 x = zero).
  { intros x Hx. unfold m1. mem_unfold. header_consts. cbn [Slice addr] in *.
    rewrite !store_bytes_outside by (rewrite length_encode_le; lia). by apply H0. }
  assert (H2 : forall x, addr buf <= x < addr buf + 4 -> SetPid enc p m1 x = zero).
  { intros x Hx. unfold SetPid. cbn [enc ELayout Header]. mem_unfold. header_consts.
    cbn [Slice addr] in *.
    rewrite !store_bytes_outside by (rewrite length_encode_le; lia). by apply H1. }
  assert (H3 : forall x, addr buf <= x < addr buf + 4 ->
                         SetStartTime enc t (SetPid enc p m1) x = zero).
  { intros x Hx. unfold SetStartTime. cbn [enc ELayout Header]. mem_unfold. header_consts.
    cbn [Slice addr] in *.
    rewrite !store_bytes_outside by (rewrite length_encode_le; lia). by apply H2. }
  split; [by apply NewReader_zero_version|].
  split; [by apply NewReader_zero_version|].
  split; [by apply NewReader_zero_version|].
  split; [by apply NewReader_zero_version|].
  intros err m4 Hset. apply NewReader_zero_version. intros x Hx.
  rewrite (SetStatics_outside enc statics _ m4 err x Hset); [by apply H3|].
  left. cbn [enc ELayout Statics Slice addr] in *. header_consts. lia.
Qed.

Lemma reader_refuses_unfinished_file_witness :
  0 <= 12 /\ pageSize Example.env = 2 ^ 12 /\ 4 <= 4096 /\
  ("f"%string ∉ files Example.world) /\
  openFileError Example.env = None /\ truncateError Example.env = None /\
  mmapError Example.env = None /\
  exists buf world1,
    MapNewFile Example.env "f" 4096 Example.world = ((Some buf, None), world1) /\
    (let '(enc, m1) := NewEncoder buf 128 1024 256 (memory world1) in
     let m2 := SetPid enc 1234 m1 in
     let m3 := SetStartTime enc 1600000000000 m2 in
     NewReader buf (memory world1) = (None, Some ErrNotInitialized) /\
     NewReader buf m1 = (None, Some ErrNotInitialized) /\
     NewReader buf m2 = (None, Some ErrNotInitialized) /\
     NewReader buf m3 = (None, Some ErrNotInitialized) /\
     (forall err m4, SetStatics enc Example.statics m3 = Done (err, m4) ->
                     NewReader buf m4 = (None, Some ErrNotInitialized))).
Proof.
  assert (H1 : 0 <= 12) by lia.
  assert (H2 : pageSize Example.env = 2 ^ 12) by reflexivity.
  assert (H3 : 4 <= 4096) by lia.
  assert (H4 : "f"%string ∉ files Example.world) by apply not_elem_of_empty.
  assert (H5 : openFileError Example.env = None) by reflexivity.
  assert (H6 : truncateError Example.env = None) by reflexivity.
  assert (H7 : mmapError Example.env = None) by reflexivity.
  repeat (split; [assumption|]).
  exact (reader_refuses_unfinished_file Example.env "f" 4096 12 Example.world
           128 1024 256 1234 1600000000000 Example.statics H1 H2 H3 H4 H5 H6 H7).
Defined.

(** ** Creating a writer *)




(** A disk that is full when the file is to be extended: the call fails, and
    the file it has created stays, so that the call cannot be made again. *)
Example NewWriterForFile_truncate_fails :
  match NewWriterForFile (mkEnv 4096 65536 1234 0 None (Some ErrOS) None) "f"
                         Example.statics 2 Example.world with
  | Done ((None, err), world') =>
    match NewWriterForFile Example.env "f" Example.statics 2 world' with
    | Done ((None, err'), _) => Some (err, mapped world', err')
    | _ => None
    end
  | _ => None
  end = Some (Some ErrOS, [], Some ErrOS).
Proof. vm_compute. reflexivity. Qed.

Example NewWriterForFile_too_many_counters :
  NewWriterForFile Example.env "f" Example.statics 10001 Example.world
  = Done ((None, Some (ErrIncorrectMaxCounters 10001)), Example.world).
Proof. reflexivity. Qed.

(** ** Where the counters lie *)

(** X19.  The slot words and the values a writer's counters are accessed
    at, atomically as 64-bit words, are 8-byte aligned in a mapping at an
    8-byte aligned address when the statics map is not empty.  With an empty
    map the statics section is 4 bytes long, and every slot word and every
    value lies 4 bytes off an 8-byte boundary. *)
Theorem counter_words_alignment (env : Env) (filename : string)
        (statics : gmap string string) (maxNumbersOfCounters : Z) (world world' : World)
        (w : Writer) (err : option error) :
  NewWriterForFile env filename statics maxNumbersOfCounters world
  = Done ((Some w, err), world') ->
  (8 | mmapAddr env) ->
  forall i : Z,
    let word := Address (CountersMetadata (ELayout (encoder w)))
                + (i * metadataRecordLength + metadataCounterIDStatusOffset) in
    let value := Address (values w) + i * valuesCounterLength in
    (size statics = 0%nat -> word mod 8 = 4 /\ value mod 8 = 4) /\
    (size statics <> 0%nat -> word mod 8 = 0 /\ value mod 8 = 0).
Proof.
  intros Hnew [q Hq] i.
  destruct (NewWriterForFile_inv _ _ _ _ _ _ _ _ Hnew)
    as (_ & _ & _ & -> & _).
  clear Hnew. cbn [encoder values]. cbn zeta.
  unfold NewEncoder, NewEncoderWithBuffers, MetadataLength.
  cbn [fst ELayout CountersMetadata CountersValues Address Slice addr].
  header_consts. consts. split; intros Hsz.
  - rewrite (StaticsLength_empty _ Hsz). rewrite Hq.
    split.
    + symmetry; apply (Z.mod_unique_pos _ 8 (q + 16 + 64 * i)); lia.
    + symmetry; apply (Z.mod_unique_pos _ 8 (q + 16 + 64 * maxNumbersOfCounters + 16 * i)); lia.
  - destruct (Align_128_divide (recordsEnd statics)) as [r Hr].
    rewrite (StaticsLength_nonempty _ Hsz), Hr, Hq.
    split.
    + symmetry; apply (Z.mod_unique_pos _ 8 (q + 16 + 16 * r + 64 * i)); lia.
    + symmetry; apply (Z.mod_unique_pos _ 8 (q + 16 + 16 * r + 64 * maxNumbersOfCounters + 16 * i)); lia.
Qed.

Lemma counter_words_alignment_witness :
  exists w world',
    NewWriterForFile Example.env "f" ∅ 2 Example.world = Done ((Some w, None), world') /\
    (8 | mmapAddr Example.env) /\
    forall i : Z,
      let word := Address (CountersMetadata (ELayout (encoder w)))
                  + (i * metadataRecordLength + metadataCounterIDStatusOffset) in
      let value := Address (values w) + i * valuesCounterLength in
      (size (∅ : gmap string string) = 0%nat -> word mod 8 = 4 /\ value mod 8 = 4) /\
      (size (∅ : gmap string string) <> 0%nat -> word mod 8 = 0 /\ value mod 8 = 0).
Proof.
  destruct (NewWriterForFile_returns Example.env "f" ∅ 2 12 Example.world)
    as (w & world' & Hnew).
  { change MaxPossibleNumberOfCounters with 10000. lia. }
  { apply not_elem_of_empty. }
  { lia. }
  { reflexivity. }
  { reflexivity. }
  { reflexivity. }
  { reflexivity. }
  assert (H2 : (8 | mmapAddr Example.env)) by (exists 8192; reflexivity).
  exists w, world'. split; [exact Hnew|]. split; [exact H2|].
  exact (counter_words_alignment Example.env "f" ∅ 2 Example.world world' w None Hnew H2).
Defined.

(** The first counter of a writer without statics, in a mapping at address
    65536: its slot word lies at 65668 and its value at 66692. *)
Example first_counter_without_statics :
  match NewWriterForFile Example.env "f" ∅ 2 Example.world with
  | Done ((Some w, _), _) =>
    Some (Address (CountersMetadata (ELayout (encoder w))) mod 8,
          Address (values w) mod 8)
  | _ => None
  end = Some (4, 4).
Proof. vm_compute. reflexivity. Qed.

(** ** Counters of a writer *)

(** A store of eight bytes to the value of slot [i] leaves the metadata
    section and the other values as they were. *)
Lemma value_store_frame (L : Layout.Layout) (n i : nat) (bs : list byte) (m : Memory) :
  layout_ok L n -> (i < n)%nat -> length bs = 8%nat ->
  let m' := store_bytes m (addr (CountersValues L) + Z.of_nat i * valuesCounterLength) bs in
  (forall x, addr (CountersMetadata L) <= x
             < addr (CountersMetadata L) + Z.of_nat n * metadataRecordLength ->
             m' x = m x) /\
  (forall j, (j < n)%nat -> slot_word L m' j = slot_word L m j) /\
  (forall j, (j < n)%nat -> slot_label_length L m' j = slot_label_length L m j) /\
  (forall j, (j < n)%nat -> slot_label_length L m j <= metadataLabelMaxLength ->
             slot_label L m' j = slot_label L m j) /\
  (forall j, (j < n)%nat -> j <> i -> slot_value L m' j = slot_value L m j).
Proof.
  intros [Hcap Hsep] Hi Hlen m'.
  assert (Hmd : forall x, addr (CountersMetadata L) <= x
                          < addr (CountersMetadata L) + Z.of_nat n * metadataRecordLength ->
                          m' x = m x).
  { intros x Hx. unfold m'. apply store_bytes_outside. rewrite Hlen. consts. lia. }
  split; [done|].
  split.
  { intros j Hj. mem_unfold. consts.
    by rewrite (load_bytes_ext m' m) by (intros; apply Hmd; consts; lia). }
  assert (Hll : forall j, (j < n)%nat -> slot_label_length L m' j = slot_label_length L m j).
  { intros j Hj. mem_unfold. consts.
    by rewrite (load_bytes_ext m' m) by (intros; apply Hmd; consts; lia). }
  split; [done|].
  split.
  { intros j Hj Hshort. unfold slot_label. rewrite Hll by done.
    unfold slot_label_bytes. consts.
    by rewrite (load_bytes_ext m' m) by (intros; apply Hmd; consts; lia). }
  intros j Hj Hne. mem_unfold. unfold m'. consts.
  by rewrite load_store_disjoint by (rewrite Hlen; lia).
Qed.

(** X20.  Setting or adding to a counter stores to the value of its own
    slot only: Set, SetWeak, Increment and GetAndAdd leave every slot word,
    every label and the value of every other slot as they were. *)
Theorem counter_value_is_private (w : Writer) (c : Counter) (n i : nat) (v : Z)
        (m : Memory) :
  layout_ok (ELayout (encoder w)) n ->
  values w = CountersValues (ELayout (encoder w)) ->
  (i < n)%nat ->
  valueOffset c = Z.of_nat i * valuesCounterLength ->
  Forall
    (fun m' =>
       (forall j, (j < n)%nat ->
                  slot_word (ELayout (encoder w)) m' j = slot_word (ELayout (encoder w)) m j /\
                  slot_label_length (ELayout (encoder w)) m' j
                  = slot_label_length (ELayout (encoder w)) m j /\
                  (slot_label_length (ELayout (encoder w)) m j <= metadataLabelMaxLength ->
                   slot_label (ELayout (encoder w)) m' j
                   = slot_label (ELayout (encoder w)) m j)) /\
       (forall j, (j < n)%nat -> j <> i ->
                  slot_value (ELayout (encoder w)) m' j
                  = slot_value (ELayout (encoder w)) m j))
    [Counter_Set w c v m; Counter_SetWeak w c v m;
     (Counter_Increment w c m).2; (Counter_GetAndAdd w c v m).2].
Proof.
  intros Hok Hvalues Hi Hoff.
  assert (Hframe : forall bs, length bs = 8%nat ->
            let m' := store_bytes m (addr (CountersValues (ELayout (encoder w)))
                                     + Z.of_nat i * valuesCounterLength) bs in
            (forall j, (j < n)%nat ->
               slot_word (ELayout (encoder w)) m' j = slot_word (ELayout (encoder w)) m j /\
               slot_label_length (ELayout (encoder w)) m' j
               = slot_label_length (ELayout (encoder w)) m j /\
               (slot_label_length (ELayout (encoder w)) m j <= metadataLabelMaxLength ->
                slot_label (ELayout (encoder w)) m' j
                = slot_label (ELayout (encoder w)) m j)) /\
            (forall j, (j < n)%nat -> j <> i ->
               slot_value (ELayout (encoder w)) m' j
               = slot_value (ELayout (encoder w)) m j)).
  { intros bs Hlen m'.
    destruct (value_store_frame _ n i bs m Hok Hi Hlen) as (_ & Hw & Hll & Hl & Hv).
    split; [|done]. intros j Hj.
    split; [by apply Hw|]. split; [by apply Hll|]. by apply Hl. }
  unfold Counter_Set, Counter_SetWeak, Counter_Increment, Counter_GetAndAdd, AddInt64.
  cbn [snd]. rewrite Hvalues, Hoff. mem_unfold.
  repeat (constructor; [apply Hframe, length_encode_le|]). constructor.
Qed.

Lemma counter_value_is_private_witness :
  layout_ok (ELayout (encoder Example.writer)) 2 /\
  values Example.writer = CountersValues (ELayout (encoder Example.writer)) /\
  (0 < 2)%nat /\
  valueOffset (mkCounter 0 "a" 0 0) = Z.of_nat 0 * valuesCounterLength /\
  Forall
    (fun m' =>
       (forall j, (j < 2)%nat ->
                  slot_word (ELayout (encoder Example.writer)) m' j
                  = slot_word (ELayout (encoder Example.writer)) Example.second_counter_live j /\
                  slot_label_length (ELayout (encoder Example.writer)) m' j
                  = slot_label_length (ELayout (encoder Example.writer))
                                      Example.second_counter_live j /\
                  (slot_label_length (ELayout (encoder Example.writer))
                                     Example.second_counter_live j <= metadataLabelMaxLength ->
                   slot_label (ELayout (encoder Example.writer)) m' j
                   = slot_label (ELayout (encoder Example.writer))
                                Example.second_counter_live j)) /\
       (forall j, (j < 2)%nat -> j <> 0%nat ->
                  slot_value (ELayout (encoder Example.writer)) m' j
                  = slot_value (ELayout (encoder Example.writer))
                               Example.second_counter_live j))
    [Counter_Set Example.writer (mkCounter 0 "a" 0 0) 9 Example.second_counter_live;
     Counter_SetWeak Example.writer (mkCounter 0 "a" 0 0) 9 Example.second_counter_live;
     (Counter_Increment Example.writer (mkCounter 0 "a" 0 0) Example.second_counter_live).2;
     (Counter_GetAndAdd Example.writer (mkCounter 0 "a" 0 0) 9
                        Example.second_counter_live).2].
Proof.
  assert (H1 : layout_ok (ELayout (encoder Example.writer)) 2)
    by (split; [reflexivity | left; vm_compute; discriminate]).
  assert (H2 : values Example.writer = CountersValues (ELayout (encoder Example.writer)))
    by reflexivity.
  assert (H3 : (0 < 2)%nat) by lia.
  assert (H4 : valueOffset (mkCounter 0 "a" 0 0) = Z.of_nat 0 * valuesCounterLength)
    by reflexivity.
  repeat (split; [assumption|]).
  exact (counter_value_is_private Example.writer (mkCounter 0 "a" 0 0) 2 0 9
                                  Example.second_counter_live H1 H2 H3 H4).
Defined.

(** The ids a writer has drawn stay behind its sequence when a slot is
    allocated for the next id. *)
Lemma ids_drawn_allocate (w : Writer) (n i : nat) (initialValue : Z) (label : string)
      (m : Memory) :
  layout_ok (ELayout (encoder w)) n ->
  (i < n)%nat ->
  -1 <= idSequence w < 2 ^ 56 - 1 ->
  ids_drawn w n m ->
  ids_drawn (mkWriter (filename w) (idSequence w + 1) (closed w) (buffer w) (encoder w)
                      (values w)) n
            (allocate (ELayout (encoder w)) i (idSequence w + 1) initialValue label m).
Proof.
  intros Hok Hi Hseq Hdrawn j Hj. cbn [encoder idSequence].
  destruct (decide (j = i)) as [->|Hne].
  - intros _. rewrite allocate_id. rewrite Z.mod_small by lia. done.
  - rewrite (allocate_status_other _ n) by done. unfold slot_id.
    rewrite (allocate_word_other _ n) by done. intros Hused.
    specialize (Hdrawn j Hj Hused). unfold slot_id in Hdrawn. lia.
Qed.

(** X21.  A counter that the writer adds is read back under its id.  On a
    writer whose slots in use store ids it has drawn, AddCounterWithInitialValue
    draws the next id and, when it finds a slot, returns a counter with this
    id whose Get is the initial value, and which the reader finds with that
    value and the label cut to 380 bytes; when it finds no slot it stores
    nothing.  Either way the slots in use still store ids that were drawn. *)
Theorem writer_counter_is_read_back (w : Writer) (d : Decoder) (n : nat)
        (label : string) (initialValue : Z) (m : Memory) :
  layout_ok (ELayout (encoder w)) n ->
  values w = CountersValues (ELayout (encoder w)) ->
  DLayout d = ELayout (encoder w) ->
  is_int64 initialValue ->
  -1 <= idSequence w < 2 ^ 56 - 1 ->
  ids_drawn w n m ->
  exists res w' m',
    Writer_AddCounterWithInitialValue w label initialValue m = Done (res, w', m') /\
    idSequence w' = idSequence w + 1 /\
    encoder w' = encoder w /\ values w' = values w /\
    ids_drawn w' n m' /\
    match res with
    | (Some c, None) =>
      Counter_ID c = idSequence w + 1 /\
      Counter_Label c = label /\
      Counter_IsClosed c = false /\
      Counter_Get w' c m' = initialValue /\
      GetCounterValue d (Counter_ID c) m' = Done (initialValue, None) /\
      GetCounterLabel d (Counter_ID c) m'
      = Done (string_of_list_ascii (take 380 (list_ascii_of_string label)), None)
    | (None, Some err) => err = ErrNoFreeSpace /\ m' = m
    | _ => False
    end.
Proof.
  intros Hok Hvalues Hd Hiv Hseq Hdrawn.
  unfold Writer_AddCounterWithInitialValue. cbn [encoder].
  rewrite (int64_id (idSequence w + 1)) by (unfold is_int64; lia).
  destruct (AddCounter_cases (encoder w) n (idSequence w + 1) initialValue label m Hok)
    as [(i & Hi & Hf & Hlow & ->)|[_ ->]].
  - eexists _, _, _. split; [reflexivity|]. cbn [idSequence encoder values].
    split; [done|]. split; [done|]. split; [done|].
    split; [by apply ids_drawn_allocate|].
    assert (Hused : forall j, (j < i)%nat ->
              slot_status (ELayout (encoder w)) m j <> counterStatusNotUsed).
    { intros j Hj Hnu. apply (Hlow j Hj). by left. }
    destruct (allocate_lookups (ELayout (encoder w)) d n i (idSequence w + 1)
                               initialValue label m) as [Hv Hl]; try done; [lia| |].
    { intros j Hj. pose proof (Hdrawn j ltac:(lia) (Hused j Hj)). lia. }
    cbn [Counter_ID Counter_Label Counter_IsClosed id Mc4go.label counterClosed].
    repeat (split; [done|]).
    split; [|done].
    unfold Counter_Get. cbn [values valueOffset]. rewrite Hvalues.
    change (GetInt64Volatile _ _ ?m') with (slot_value (ELayout (encoder w)) m' i).
    rewrite (allocate_value _ n) by done. by apply int64_id.
  - eexists _, _, _. split; [reflexivity|]. cbn [idSequence encoder values].
    split; [done|]. split; [done|]. split; [done|].
    split; [|done]. intros j Hj Hused. cbn [encoder idSequence].
    specialize (Hdrawn j Hj Hused). lia.
Qed.

Lemma writer_counter_is_read_back_witness :
  layout_ok (ELayout (encoder Example.writer)) 2 /\
  values Example.writer = CountersValues (ELayout (encoder Example.writer)) /\
  DLayout Example.decoder = ELayout (encoder Example.writer) /\
  is_int64 5 /\
  -1 <= idSequence Example.writer < 2 ^ 56 - 1 /\
  ids_drawn Example.writer 2 zero_memory /\
  exists res w' m',
    Writer_AddCounterWithInitialValue Example.writer "hits" 5 zero_memory
    = Done (res, w', m') /\
    idSequence w' = idSequence Example.writer + 1 /\
    encoder w' = encoder Example.writer /\ values w' = values Example.writer /\
    ids_drawn w' 2 m' /\
    match res with
    | (Some c, None) =>
      Counter_ID c = idSequence Example.writer + 1 /\
      Counter_Label c = "hits"%string /\
      Counter_IsClosed c = false /\
      Counter_Get w' c m' = 5 /\
      GetCounterValue Example.decoder (Counter_ID c) m' = Done (5, None) /\
      GetCounterLabel Example.decoder (Counter_ID c) m'
      = Done (string_of_list_ascii (take 380 (list_ascii_of_string "hits")), None)
    | (None, Some err) => err = ErrNoFreeSpace /\ m' = zero_memory
    | _ => False
    end.
Proof.
  assert (H1 : layout_ok (ELayout (encoder Example.writer)) 2)
    by (split; [reflexivity | left; vm_compute; discriminate]).
  assert (H2 : values Example.writer = CountersValues (ELayout (encoder Example.writer)))
    by reflexivity.
  assert (H3 : DLayout Example.decoder = ELayout (encoder Example.writer)) by reflexivity.
  assert (H4 : is_int64 5) by (unfold is_int64; lia).
  assert (H5 : -1 <= idSequence Example.writer < 2 ^ 56 - 1) by (cbn; lia).
  assert (H6 : ids_drawn Example.writer 2 zero_memory).
  { intros i Hi Hused. exfalso. apply Hused.
    destruct i as [|[|i]]; [vm_compute; reflexivity..|lia]. }
  repeat (split; [assumption|]).
  exact (writer_counter_is_read_back Example.writer Example.decoder 2 "hits" 5 zero_memory
           H1 H2 H3 H4 H5 H6).
Defined.

(** FreeCounter frees the first slot that stores the id, when it is
    Allocated. *)
Lemma FreeCounter_loop_frees (L : Layout.Layout) (n i : nat) (counterID : Z) (m : Memory) :
  Capacity (CountersMetadata L) = Z.of_nat n * metadataRecordLength ->
  (i < n)%nat ->
  slot_id L m i = counterID ->
  slot_status L m i = counterStatusAllocated ->
  forall (fuel k : nat),
    (k <= i)%nat -> (i - k < fuel)%nat ->
    (forall j, (k <= j < i)%nat -> slot_id L m j <> counterID) ->
    FreeCounter_loop fuel (CountersMetadata L) counterID
                     (Z.of_nat k * metadataRecordLength) m
    = Done (true, release L i counterID m).
Proof.
  intros Hcap Hi Hid Hst. induction fuel as [|fuel IH]; intros k Hk Hfuel Hfirst; [lia|].
  cbn [FreeCounter_loop].
  destruct (Z.ltb_spec (Z.of_nat k * metadataRecordLength) (Capacity (CountersMetadata L)))
    as [_|Hge]; [|rewrite Hcap in Hge; consts; lia].
  rewrite Z.add_0_r.
  change (GetInt64Volatile (CountersMetadata L) (Z.of_nat k * metadataRecordLength) m)
    with (slot_word L m k).
  change (extractID (slot_word L m k)) with (slot_id L m k).
  change (extractStatus (slot_word L m k)) with (slot_status L m k).
  destruct (decide (k = i)) as [->|Hne].
  - rewrite Hid, Hst, !Z.eqb_refl.
    unfold CompareAndSwapInt64.
    change (GetInt64 (CountersMetadata L) (Z.of_nat i * metadataRecordLength) m)
      with (slot_word L m i).
    rewrite Z.eqb_refl. unfold release. by rewrite Z.add_0_r.
  - destruct (Z.eqb_spec (slot_id L m k) counterID) as [Heq|_];
      [by destruct (Hfirst k ltac:(lia))|].
    replace (Z.of_nat k * metadataRecordLength + metadataRecordLength)
      with (Z.of_nat (S k) * metadataRecordLength) by lia.
    apply IH; [lia | lia |]. intros j Hj. apply Hfirst. lia.
Qed.

Lemma FreeCounter_frees (e : Encoder) (n i : nat) (counterID : Z) (m : Memory) :
  Capacity (CountersMetadata (ELayout e)) = Z.of_nat n * metadataRecordLength ->
  (i < n)%nat ->
  slot_id (ELayout e) m i = counterID ->
  slot_status (ELayout e) m i = counterStatusAllocated ->
  (forall j, (j < i)%nat -> slot_id (ELayout e) m j <> counterID) ->
  FreeCounter e counterID m = Done (true, release (ELayout e) i counterID m).
Proof.
  intros Hcap Hi Hid Hst Hfirst. unfold FreeCounter. rewrite Hcap, scan_fuel_slots.
  apply (FreeCounter_loop_frees (ELayout e) n i counterID m Hcap Hi Hid Hst (n + 2) 0);
    [lia | lia |]. intros j Hj. apply Hfirst. lia.
Qed.

(** X22.  A closed counter still stores to its slot, and the slot can have
    been given away.  When a counter in the lowest slot that can be freed is
    closed, the next counter the writer adds takes the same slot under a new
    id; Set on the closed counter then changes the value of the new one, for
    its owner and for the reader. *)
Theorem closed_counter_shares_reused_slot (w : Writer) (d : Decoder) (n i : nat)
        (c : Counter) (label : string) (initialValue : Z) (m : Memory) :
  layout_ok (ELayout (encoder w)) n ->
  values w = CountersValues (ELayout (encoder w)) ->
  DLayout d = ELayout (encoder w) ->
  is_int64 initialValue ->
  -1 <= idSequence w < 2 ^ 56 - 1 ->
  ids_drawn w n m ->
  Counter_IsClosed c = false ->
  (i < n)%nat ->
  valueOffset c = Z.of_nat i * valuesCounterLength ->
  slot_id (ELayout (encoder w)) m i = Counter_ID c ->
  slot_status (ELayout (encoder w)) m i = counterStatusAllocated ->
  (forall j, (j < i)%nat ->
             slot_id (ELayout (encoder w)) m j <> Counter_ID c /\
             ~ is_free (slot_status (ELayout (encoder w)) m j)) ->
  exists c1 m1 c2 w2 m2,
    Counter_Close w c m = Done (c1, m1) /\
    Counter_IsClosed c1 = true /\
    Writer_AddCounterWithInitialValue w label initialValue m1
    = Done ((Some c2, None), w2, m2) /\
    Counter_ID c2 = idSequence w + 1 /\
    Counter_ID c1 < Counter_ID c2 /\
    valueOffset c2 = valueOffset c1 /\
    Counter_Get w2 c2 m2 = initialValue /\
    forall v,
      Counter_Get w2 c2 (Counter_Set w2 c1 v m2) = int64 v /\
      GetCounterValue d (Counter_ID c2) (Counter_Set w2 c1 v m2) = Done (int64 v, None).
Proof.
  intros Hok Hvalues Hd Hiv Hseq Hdrawn Hopen Hi Hoff Hid Hst Hbefore.
  set (L := ELayout (encoder w)) in *.
  pose proof Hok as [Hcap _].
  unfold Counter_ID in *.
  assert (Hc : counterClosed c = 0).
  { unfold Counter_IsClosed in Hopen. by destruct (Z.eqb_spec (counterClosed c) 0). }
  assert (Hidc : id c <= idSequence w).
  { rewrite <- Hid. apply Hdrawn; [done|].
    change (slot_status L m i <> counterStatusNotUsed). rewrite Hst. by consts. }
  unfold Counter_Close. rewrite Hc. cbn [Z.eqb id].
  rewrite (FreeCounter_frees (encoder w) n i (id c) m Hcap Hi Hid Hst)
    by (intros j Hj; apply Hbefore; done).
  fold L. set (m1 := release L i (id c) m).
  unfold Writer_AddCounterWithInitialValue. cbn [encoder].
  rewrite (int64_id (idSequence w + 1)) by (unfold is_int64; lia).
  assert (Hfree1 : is_free (slot_status L m1 i)).
  { right. apply release_status. }
  assert (Hlow1 : forall j, (j < i)%nat -> ~ is_free (slot_status L m1 j)).
  { intros j Hj. unfold m1. rewrite release_status_other by lia. by apply Hbefore. }
  destruct (AddCounter_cases (encoder w) n (idSequence w + 1) initialValue label m1 Hok)
    as [(i' & Hi' & Hf' & Hlow' & Hadd)|[Hnone _]]; [|by destruct (Hnone i Hi)].
  assert (i' = i) as ->.
  { destruct (Nat.lt_trichotomy i' i) as [Hlt|[->|Hgt]]; [|done|].
    - by destruct (Hlow1 i' Hlt).
    - by destruct (Hlow' i Hgt). }
  fold L in Hadd.
  set (m2 := allocate L i (idSequence w + 1) initialValue label m1) in *.
  exists (mkCounter (id c) (Mc4go.label c) (valueOffset c) 1), m1,
         (mkCounter (idSequence w + 1) label (Z.of_nat i * valuesCounterLength) 0),
         (mkWriter (filename w) (idSequence w + 1) (closed w) (buffer w) (encoder w)
                   (values w)), m2.
  split; [reflexivity|]. split; [reflexivity|].
  split; [by rewrite Hadd|].
  unfold Counter_Get, Counter_Set. cbn [id valueOffset values].
  split; [done|]. split; [lia|]. split; [done|].
  rewrite Hvalues. fold L.
  split.
  { change (GetInt64Volatile _ _ m2) with (slot_value L m2 i).
    unfold m2. rewrite (allocate_value L n) by done. by apply int64_id. }
  intros v. rewrite Hoff.
  set (m3 := PutInt64Volatile (CountersValues L) (Z.of_nat i * valuesCounterLength) v m2).
  assert (Hval : GetInt64Volatile (CountersValues L) (Z.of_nat i * valuesCounterLength) m3
                 = int64 v).
  { unfold m3. mem_unfold. rewrite decode_load_store.
    change (256 ^ Z.of_nat 8) with (2 ^ 64). apply int64_mod. }
  split; [done|].
  destruct (value_store_frame L n i (encode_le 8 v) m2 Hok Hi (length_encode_le 8 v))
    as (_ & Hw & _).
  change (store_bytes m2 _ _) with m3 in Hw.
  assert (Hw2 : forall j, (j < i)%nat -> slot_word L m3 j = slot_word L m j).
  { intros j Hj. rewrite Hw by lia. unfold m2.
    rewrite (allocate_word_other L n) by (done || lia).
    unfold m1. by rewrite release_word_other by lia. }
  assert (Hst3 : slot_status L m3 i = counterStatusAllocated).
  { unfold slot_status. rewrite Hw by done. apply allocate_status. }
  assert (Hid3 : slot_id L m3 i = idSequence w + 1).
  { unfold slot_id. rewrite Hw by done. fold (slot_id L m2 i). unfold m2.
    rewrite allocate_id. apply Z.mod_small. lia. }
  destruct (lookups_at d n i (idSequence w + 1) m3) as [Hv _]; rewrite ?Hd; fold L;
    try done.
  - apply horizon_gt; [done|]. intros j Hj.
    destruct (decide (j = i)) as [->|Hne]; [rewrite Hst3; by consts|].
    unfold slot_status. rewrite Hw2 by lia. intros Hnu.
    apply (proj2 (Hbefore j ltac:(lia))). by left.
  - intros j Hj. unfold slot_id. rewrite Hw2 by done.
    assert (Hused : slot_status L m j <> counterStatusNotUsed).
    { intros Hnu. apply (proj2 (Hbefore j Hj)). by left. }
    pose proof (Hdrawn j ltac:(lia) Hused) as Hle. unfold slot_id in Hle. fold L in Hle. lia.
  - rewrite Hd in Hv. fold L in Hv. rewrite decide_True in Hv by done.
    rewrite Hv. by rewrite <- Hval.
Qed.

Lemma closed_counter_shares_reused_slot_witness :
  let w := mkWriter "f" 7 0 (NewBuffer 0 4096) Example.encoder
                    (CountersValues Example.layout) in
  let c := mkCounter 7 "first" 0 0 in
  layout_ok (ELayout (encoder w)) 2 /\
  values w = CountersValues (ELayout (encoder w)) /\
  DLayout Example.decoder = ELayout (encoder w) /\
  is_int64 1 /\
  -1 <= idSequence w < 2 ^ 56 - 1 /\
  ids_drawn w 2 Example.one_counter /\
  Counter_IsClosed c = false /\
  (0 < 2)%nat /\
  valueOffset c = Z.of_nat 0 * valuesCounterLength /\
  slot_id (ELayout (encoder w)) Example.one_counter 0 = Counter_ID c /\
  slot_status (ELayout (encoder w)) Example.one_counter 0 = counterStatusAllocated /\
  (forall j, (j < 0)%nat ->
             slot_id (ELayout (encoder w)) Example.one_counter j <> Counter_ID c /\
             ~ is_free (slot_status (ELayout (encoder w)) Example.one_counter j)) /\
  exists c1 m1 c2 w2 m2,
    Counter_Close w c Example.one_counter = Done (c1, m1) /\
    Counter_IsClosed c1 = true /\
    Writer_AddCounterWithInitialValue w "second" 1 m1 = Done ((Some c2, None), w2, m2) /\
    Counter_ID c2 = idSequence w + 1 /\
    Counter_ID c1 < Counter_ID c2 /\
    valueOffset c2 = valueOffset c1 /\
    Counter_Get w2 c2 m2 = 1 /\
    forall v,
      Counter_Get w2 c2 (Counter_Set w2 c1 v m2) = int64 v /\
      GetCounterValue Example.decoder (Counter_ID c2) (Counter_Set w2 c1 v m2)
      = Done (int64 v, None).
Proof.
  intros w c.
  assert (H1 : layout_ok (ELayout (encoder w)) 2)
    by (split; [reflexivity | left; vm_compute; discriminate]).
  assert (H2 : values w = CountersValues (ELayout (encoder w))) by reflexivity.
  assert (H3 : DLayout Example.decoder = ELayout (encoder w)) by reflexivity.
  assert (H4 : is_int64 1) by (unfold is_int64; lia).
  assert (H5 : -1 <= idSequence w < 2 ^ 56 - 1) by (cbn; lia).
  assert (H6 : ids_drawn w 2 Example.one_counter).
  { intros i Hi Hused. destruct i as [|[|i]]; [| |lia].
    - vm_compute. discriminate.
    - exfalso. apply Hused. vm_compute. reflexivity. }
  assert (H7 : Counter_IsClosed c = false) by reflexivity.
  assert (H8 : (0 < 2)%nat) by lia.
  assert (H9 : valueOffset c = Z.of_nat 0 * valuesCounterLength) by reflexivity.
  assert (H10 : slot_id (ELayout (encoder w)) Example.one_counter 0 = Counter_ID c)
    by (vm_compute; reflexivity).
  assert (H11 : slot_status (ELayout (encoder w)) Example.one_counter 0
                = counterStatusAllocated) by (vm_compute; reflexivity).
  assert (H12 : forall j, (j < 0)%nat ->
             slot_id (ELayout (encoder w)) Example.one_counter j <> Counter_ID c /\
             ~ is_free (slot_status (ELayout (encoder w)) Example.one_counter j))
    by (intros j Hj; lia).
  repeat (split; [assumption|]).
  exact (closed_counter_shares_reused_slot w Example.decoder 2 0 c "second" 1
           Example.one_counter H1 H2 H3 H4 H5 H6 H7 H8 H9 H10 H11 H12).
Defined.

(** The scenario on the small image: the counter of id 7 is closed, the
    counter of id 8 takes its slot, and a Set of 99 through the closed
    counter is what the reader then finds under id 8. *)
Example Set_after_Close :
  let w := mkWriter "f" 7 0 (NewBuffer 0 4096) Example.encoder
                    (CountersValues Example.layout) in
  match Counter_Close w (mkCounter 7 "first" 0 0) Example.one_counter with
  | Done (c1, m1) =>
    match Writer_AddCounterWithInitialValue w "second" 1 m1 with
    | Done ((Some c2, _), w2, m2) =>
      Some (Counter_ID c2, valueOffset c2, Counter_IsClosed c1,
            GetCounterValue Example.decoder 8 m2,
            GetCounterValue Example.decoder 8 (Counter_Set w2 c1 99 m2),
            GetCounterLabel Example.decoder 8 (Counter_Set w2 c1 99 m2))
    | _ => None
    end
  | _ => None
  end
  = Some (8, 0, true, Done (1, None), Done (99, None), Done ("second"%string, None)).
Proof. vm_compute. reflexivity. Qed.

(** ** Listing the counters that were added *)

Lemma allocate_record (L : Layout.Layout) (n i : nat) (counterID initialValue : Z)
      (label : string) (m : Memory) :
  layout_ok L n -> (i < n)%nat ->
  0 <= counterID < 2 ^ 56 -> is_int64 initialValue ->
  (slot_record L (allocate L i counterID initialValue label m) i
   = (counterID, initialValue, cut_label label)) /\
  (0 <= slot_label_length L (allocate L i counterID initialValue label m) i
   <= metadataLabelMaxLength).
Proof.
  intros Hok Hi Hid Hiv.
  pose proof (allocate_label_length L n i counterID initialValue label m Hok Hi) as Hlen.
  pose proof (len_nonneg label) as Hl0.
  split; [|rewrite Hlen; consts; lia].
  unfold slot_record. rewrite allocate_id, (allocate_value L n) by done.
  rewrite Z.mod_small by done. rewrite (int64_id _ Hiv). f_equal.
  unfold slot_label, cut_label. rewrite Hlen.
  rewrite (allocate_label_bytes L n i counterID initialValue label m Hok Hi).
  f_equal. consts.
  destruct (Z.le_gt_cases (len label) 380).
  - rewrite Z.min_l by done. unfold len.
    rewrite !firstn_all2; [done| |]; rewrite length_list_ascii_of_string;
      unfold len in *; lia.
  - rewrite Z.min_r by lia. done.
Qed.

Lemma allocate_record_other (L : Layout.Layout) (n i j : nat) (counterID initialValue : Z)
      (label : string) (m : Memory) :
  layout_ok L n -> (i < n)%nat -> (j < n)%nat -> j <> i ->
  0 <= slot_label_length L m j <= metadataLabelMaxLength ->
  slot_record L (allocate L i counterID initialValue label m) j = slot_record L m j /\
  slot_label_length L (allocate L i counterID initialValue label m) j
  = slot_label_length L m j.
Proof.
  intros Hok Hi Hj Hne Hlen.
  assert (Hll : slot_label_length L (allocate L i counterID initialValue label m) j
                = slot_label_length L m j).
  { unfold allocate. mem_unfold. by alloc_frame. }
  split; [|done]. unfold slot_record, slot_id, slot_label.
  rewrite (allocate_word_other L n) by done. rewrite Hll. f_equal; [f_equal|].
  - unfold allocate. mem_unfold. by alloc_frame.
  - f_equal. revert Hlen. generalize (slot_label_length L m j). intros z Hz.
    unfold allocate. mem_unfold. by alloc_frame.
Qed.

Lemma horizon_filled (L : Layout.Layout) (n k : nat) (m : Memory) :
  filled L n k m -> (k <= n)%nat -> horizon L m n = k.
Proof.
  intros Hfill Hk. unfold horizon.
  destruct (decide (k < n)%nat) as [Hlt|Hge].
  - assert (Hfind : list_find (fun i => slot_status L m i = counterStatusNotUsed) (seq 0 n)
                    = Some (k, k)); [|by rewrite Hfind].
    apply list_find_Some. split; [by apply lookup_seq_lt|]. split.
    + rewrite Hfill by done. by rewrite decide_False by lia.
    + intros j y Hj Hjk. apply lookup_seq in Hj as [-> Hj]. cbn.
      rewrite Hfill by done. rewrite decide_True by done. by consts.
  - assert (Hfind : list_find (fun i => slot_status L m i = counterStatusNotUsed) (seq 0 n)
                    = None); [|rewrite Hfind; lia].
    apply list_find_None, Forall_forall. intros j Hj. apply elem_of_seq in Hj.
    rewrite Hfill by lia. rewrite decide_True by lia. by consts.
Qed.

Lemma filter_all {A : Type} (P : A -> Prop) `{forall x, Decision (P x)} (l : list A) :
  Forall P l -> filter P l = l.
Proof.
  induction 1 as [|x l Hx Hl IH]; [done|]. rewrite filter_cons_True by done. by rewrite IH.
Qed.

Lemma live_slots_filled (L : Layout.Layout) (n k : nat) (m : Memory) :
  filled L n k m -> (k <= n)%nat -> live_slots L m n = seq 0 k.
Proof.
  intros Hfill Hk. unfold live_slots. rewrite (horizon_filled L n k m Hfill Hk).
  apply filter_all, Forall_forall. intros j Hj. apply elem_of_seq in Hj.
  rewrite Hfill by lia. by rewrite decide_True by lia.
Qed.

(** The collecting sink of a reader receives every record it is fed. *)
Lemma feed_collect3 {R1 R2 R3 : Type} (rs acc : list (R1 * R2 * R3)) :
  feed (uncurry3 (fun r1 r2 r3 => collect (r1, r2, r3))) rs acc = acc ++ rs.
Proof.
  revert acc. induction rs as [|[[r1 r2] r3] rs IH]; intros acc;
    cbn [feed collect uncurry3].
  - by rewrite app_nil_r.
  - rewrite IH. by rewrite <- app_assoc.
Qed.

(** Adding the counters of a list to a section whose first slots hold the
    counters of another list appends them. *)
Lemma run_adds_records (e : Encoder) (n : nat) (cs : list (Z * Z * string)) :
  layout_ok (ELayout e) n ->
  Forall (fun c => 0 <= c.1.1 < 2 ^ 56 /\ is_int64 c.1.2) cs ->
  forall (pre : list (Z * Z * string)) (m : Memory),
    filled (ELayout e) n (length pre) m ->
    records (ELayout e) m pre ->
    (length pre + length cs <= n)%nat ->
    exists m', run e (adds cs) m = Done m' /\
               filled (ELayout e) n (length (pre ++ cs)) m' /\
               records (ELayout e) m' (pre ++ cs).
Proof.
  intros Hok Hcs. induction Hcs as [|[[i v] l] cs [Hid Hiv] Hcs IH];
    intros pre m Hfill Hrec Hlen; cbn [length] in Hlen.
  - exists m. by rewrite app_nil_r.
  - cbn [fst snd] in Hid, Hiv.
    destruct (filled_add e n (length pre) i v l m Hok Hfill) as [Hadd Hfill']; [lia|].
    cbn [adds fmap list_fmap run step fst snd]. rewrite Hadd.
    destruct (IH (pre ++ [(i, v, l)])
                 (allocate (ELayout e) (length pre) i v l m)) as (m' & Hrun & Hf & Hr).
    + rewrite length_app. cbn [length]. by rewrite Nat.add_1_r.
    + intros j c Hj.
      destruct (decide (j = length pre)) as [->|Hne].
      * rewrite lookup_app_r, Nat.sub_diag in Hj by done. injection Hj as <-.
        cbn [fst snd]. apply (allocate_record _ n); [done | lia | done | done].
      * assert (Hjp : (j < length pre)%nat).
        { apply lookup_lt_Some in Hj. rewrite length_app in Hj. cbn [length] in Hj. lia. }
        rewrite lookup_app_l in Hj by done.
        destruct (Hrec j c Hj) as [Hr Hl].
        destruct (allocate_record_other (ELayout e) n (length pre) j i v l m)
          as [Hr' Hl']; [done | lia | lia | done | done |].
        by rewrite Hr', Hl'.
    + rewrite length_app. cbn [length]. lia.
    + exists m'. rewrite <- app_assoc in Hf, Hr. done.
Qed.

(** X23.  The reader lists the counters that were added, in the order they
    were added: after counters with ids of 56 bits are added to a section
    that starts all NotUsed and has a slot for each, ForEachCounter feeds its
    sink one record for each, with the id, the initial value and the label
    cut to 380 bytes. *)
Theorem added_counters_are_listed (e : Encoder) (d : Decoder) (n : nat)
        (cs : list (Z * Z * string)) (m0 : Memory) :
  layout_ok (ELayout e) n ->
  DLayout d = ELayout e ->
  (forall i, (i < n)%nat -> slot_status (ELayout e) m0 i = counterStatusNotUsed) ->
  (length cs <= n)%nat ->
  Forall (fun c => 0 <= c.1.1 < 2 ^ 56 /\ is_int64 c.1.2) cs ->
  exists m,
    run e (adds cs) m0 = Done m /\
    (forall (A : Type) (consumer : Z -> Z -> string -> A -> bool * A) (acc : A),
        ForEachCounter d consumer m acc = Done (feed (uncurry3 consumer) (listed cs) acc)) /\
    ForEachCounter d (fun id value label => collect (id, value, label)) m []
    = Done (listed cs).
Proof.
  intros Hok Hd Hempty Hlen Hcs.
  destruct (run_adds_records e n cs Hok Hcs [] m0) as (m & Hrun & Hfill & Hrec).
  { intros i Hi. rewrite Hempty by done. by rewrite decide_False by (cbn; lia). }
  { intros j c Hj. by rewrite lookup_nil in Hj. }
  { cbn. lia. }
  cbn [app] in Hfill, Hrec.
  exists m. split; [done|].
  pose proof Hok as [Hcap _].
  assert (Hlive : live_slots (ELayout e) m n = seq 0 (length cs))
    by (by apply live_slots_filled).
  assert (Hlist : slot_record (ELayout e) m <$> seq 0 (length cs) = listed cs).
  { apply list_eq. intros j. unfold listed. rewrite !list_lookup_fmap.
    destruct (cs !! j) as [c|] eqn:Hj.
    - rewrite lookup_seq_lt by (by apply lookup_lt_Some in Hj). cbn.
      by rewrite (proj1 (Hrec j c Hj)).
    - rewrite lookup_seq_ge by (by apply lookup_ge_None in Hj). done. }
  assert (Hfeed : forall (A : Type) (consumer : Z -> Z -> string -> A -> bool * A) (acc : A),
            ForEachCounter d consumer m acc
            = Done (feed (uncurry3 consumer) (listed cs) acc)).
  { intros A consumer acc. unfold ForEachCounter. rewrite Hd, Hcap, scan_fuel_slots.
    pose proof (ForEachCounter_loop_spec (ELayout e) n consumer m Hcap n (n + 2) 0 acc)
      as Hspec.
    rewrite live_prefix_seq in Hspec. fold (live_slots (ELayout e) m n) in Hspec.
    rewrite Hlive, Hlist in Hspec. apply Hspec; [lia | lia |].
    intros i Hi. apply elem_of_seq in Hi.
    destruct (lookup_lt_is_Some_2 cs i ltac:(lia)) as [c Hc].
    apply (Hrec i c Hc). }
  split; [done|]. rewrite Hfeed. by rewrite feed_collect3.
Qed.

Lemma added_counters_are_listed_witness :
  layout_ok (ELayout Example.encoder) 2 /\
  DLayout Example.decoder = ELayout Example.encoder /\
  (forall i, (i < 2)%nat ->
             slot_status (ELayout Example.encoder) zero_memory i = counterStatusNotUsed) /\
  (length [(1, 5, "a"%string); (2, 6, "b"%string)] <= 2)%nat /\
  Forall (fun c => 0 <= c.1.1 < 2 ^ 56 /\ is_int64 c.1.2)
         [(1, 5, "a"%string); (2, 6, "b"%string)] /\
  exists m,
    run Example.encoder (adds [(1, 5, "a"%string); (2, 6, "b"%string)]) zero_memory
    = Done m /\
    (forall (A : Type) (consumer : Z -> Z -> string -> A -> bool * A) (acc : A),
        ForEachCounter Example.decoder consumer m acc
        = Done (feed (uncurry3 consumer)
                     (listed [(1, 5, "a"%string); (2, 6, "b"%string)]) acc)) /\
    ForEachCounter Example.decoder (fun id value label => collect (id, value, label)) m []
    = Done (listed [(1, 5, "a"%string); (2, 6, "b"%string)]).
Proof.
  assert (H1 : layout_ok (ELayout Example.encoder) 2)
    by (split; [reflexivity | left; vm_compute; discriminate]).
  assert (H2 : DLayout Example.decoder = ELayout Example.encoder) by reflexivity.
  assert (H3 : forall i, (i < 2)%nat ->
             slot_status (ELayout Example.encoder) zero_memory i = counterStatusNotUsed).
  { intros i Hi. destruct i as [|[|i]]; [vm_compute; reflexivity..|lia]. }
  assert (H4 : (length [(1, 5, "a"%string); (2, 6, "b"%string)] <= 2)%nat) by (cbn; lia).
  assert (H5 : Forall (fun c => 0 <= c.1.1 < 2 ^ 56 /\ is_int64 c.1.2)
                      [(1, 5, "a"%string); (2, 6, "b"%string)]).
  { repeat constructor; cbn; unfold is_int64; lia. }
  repeat (split; [assumption|]).
  exact (added_counters_are_listed Example.encoder Example.decoder 2
           [(1, 5, "a"%string); (2, 6, "b"%string)] zero_memory H1 H2 H3 H4 H5).
Defined.

(** ** What the operations on counters leave alone *)

Lemma allocate_outside (L : Layout.Layout) (n i : nat) (counterID initialValue : Z)
      (label : string) (m : Memory) (x : Z) :
  (i < n)%nat ->
  (x < addr (CountersMetadata L)
   \/ addr (CountersMetadata L) + Z.of_nat n * metadataRecordLength <= x) ->
  (x < addr (CountersValues L)
   \/ addr (CountersValues L) + Z.of_nat n * valuesCounterLength <= x) ->
  allocate L i counterID initialValue label m x = m x.
Proof.
  intros Hi Hmd Hvs. unfold allocate. mem_unfold. consts.
  pose proof (len_nonneg label).
  repeat (rewrite store_bytes_outside
            by (rewrite ?length_encode_le, ?length_take;
                destruct (Z.ltb_spec 380 (len label)); lia)).
  done.
Qed.

Lemma release_outside (L : Layout.Layout) (n i : nat) (counterID : Z) (m : Memory) (x : Z) :
  (i < n)%nat ->
  (x < addr (CountersMetadata L)
   \/ addr (CountersMetadata L) + Z.of_nat n * metadataRecordLength <= x) ->
  release L i counterID m x = m x.
Proof.
  intros Hi Hmd. unfold release. mem_unfold. consts.
  apply store_bytes_outside. rewrite length_encode_le. lia.
Qed.

(** X24.  AddCounter and FreeCounter store to the two counters sections
    only: whatever operations run, every byte outside the metadata section
    and the values section is left as it was.  The header and the statics a
    reader has seen therefore stay what they were. *)
Theorem counter_operations_stay_in_sections (e : Encoder) (n : nat) (ops : list op)
        (m : Memory) :
  layout_ok (ELayout e) n ->
  exists m',
    run e ops m = Done m' /\
    forall x,
      (x < addr (CountersMetadata (ELayout e))
       \/ addr (CountersMetadata (ELayout e)) + Z.of_nat n * metadataRecordLength <= x) ->
      (x < addr (CountersValues (ELayout e))
       \/ addr (CountersValues (ELayout e)) + Z.of_nat n * valuesCounterLength <= x) ->
      m' x = m x.
Proof.
  intros Hok. revert m. induction ops as [|o ops IH]; intros m; [by exists m|].
  cbn [run].
  assert (Hstep : exists m1, step e o m = Done m1 /\
            forall x,
              (x < addr (CountersMetadata (ELayout e))
               \/ addr (CountersMetadata (ELayout e)) + Z.of_nat n * metadataRecordLength
                  <= x) ->
              (x < addr (CountersValues (ELayout e))
               \/ addr (CountersValues (ELayout e)) + Z.of_nat n * valuesCounterLength
                  <= x) ->
              m1 x = m x).
  { destruct o as [counterID initialValue label|counterID]; unfold step.
    - destruct (AddCounter_cases e n counterID initialValue label m Hok)
        as [(i & Hi & _ & _ & ->)|[_ ->]]; [|by exists m].
      eexists. split; [done|]. intros x Hmd Hvs. by apply (allocate_outside _ n).
    - destruct Hok as [Hcap _].
      destruct (FreeCounter_cases e n counterID m Hcap)
        as [->|(j & Hj & _ & _ & _ & ->)]; [by exists m|].
      eexists. split; [done|]. intros x Hmd _. by apply (release_outside _ n). }
  destruct Hstep as (m1 & -> & Hsame1).
  destruct (IH m1) as (m' & Hrun & Hsame). exists m'. split; [done|].
  intros x Hmd Hvs. rewrite Hsame by done. by apply Hsame1.
Qed.

Lemma counter_operations_stay_in_sections_witness :
  layout_ok (ELayout Example.encoder) 2 /\
  exists m',
    run Example.encoder [OpAdd 1 5 "a"; OpFree 1; OpAdd 2 6 "b"] zero_memory = Done m' /\
    forall x,
      (x < addr (CountersMetadata (ELayout Example.encoder))
       \/ addr (CountersMetadata (ELayout Example.encoder))
          + Z.of_nat 2 * metadataRecordLength <= x) ->
      (x < addr (CountersValues (ELayout Example.encoder))
       \/ addr (CountersValues (ELayout Example.encoder))
          + Z.of_nat 2 * valuesCounterLength <= x) ->
      m' x = zero_memory x.
Proof.
  assert (H1 : layout_ok (ELayout Example.encoder) 2)
    by (split; [reflexivity | left; vm_compute; discriminate]).
  split; [exact H1|].
  exact (counter_operations_stay_in_sections Example.encoder 2
           [OpAdd 1 5 "a"; OpFree 1; OpAdd 2 6 "b"] zero_memory H1).
Defined.

(** ** A new mapping *)




(** A size of zero: the file is created and truncated, and syscall.Mmap
    refuses the empty mapping. *)
Example MapNewFile_of_no_bytes :
  match MapNewFile Example.env "f" 0 Example.world with
  | ((buf, err), world') => (buf, err, mapped world', bool_decide ("f"%string ∈ files world'))
  end = (None, Some ErrEINVAL, [], true).
Proof. vm_compute. reflexivity. Qed.

Example MapNewFile_capacity :
  match MapNewFile Example.env "f" 5000 Example.world with
  | ((Some buf, _), _) => Some (Address buf, Capacity buf)
  | _ => None
  end = Some (65536, 8192).
Proof. vm_compute. reflexivity. Qed.
